(** * ro-market-crawler: TTL cache, WebSocket hub and on-demand routes

    A shallow embedding of [src/cache.py], [src/websocket/manager.py] and the
    two on-demand handlers of [src/api/routes.py], with the properties of
    the orchestration core proved over it.

    Conventions of the embedding.
    - A Python [dict] is a [gmap], a Python [set] a [gset]; mutation in place
      of an object held in a dict is written as re-insertion under its key.
    - [Optional[T]] is [option T]; a Python value that may be [None] is an
      [option].
    - Every reading of [datetime.now()] is an explicit argument, counted in
      microseconds (the resolution of [datetime]).
    - The coroutines are modelled one call at a time: each method body runs
      to completion on the state it is given. *)

From Stdlib Require SpecFloat.
From stdpp Require Import gmap strings list fin_maps pretty sorting.

Open Scope Z_scope.
Set Warnings "-clear-no-such-hyp".

(** ** Python helpers *)

(** [timedelta(seconds=s)], in microseconds. *)
Definition timedelta (seconds : Z) : Z := seconds * 1000000.

(** [ttl or default] on an [Optional[int]]: [None] and [0] are falsy. *)
Definition py_or (ttl : option Z) (default : Z) : Z :=
  match ttl with
  | Some t => if decide (t = 0) then default else t
  | None => default
  end.

(** * src/cache.py *)

Module Cache.

Record CacheEntry (V : Type) := mkEntry {
  value : option V;
  expires_at : Z;
  created_at : Z
}.
Arguments mkEntry {V}.
Arguments value {V}.
Arguments expires_at {V}.
Arguments created_at {V}.

Record Stats := mkStats {
  hits : nat;
  misses : nat;
  sets : nat
}.

Record TTLCache (V : Type) := mkCache {
  _cache : gmap string (CacheEntry V);
  _default_ttl : Z;
  _stats : Stats
}.
Arguments mkCache {V}.
Arguments _cache {V}.
Arguments _default_ttl {V}.
Arguments _stats {V}.

Section Operations.
Context {V : Type}.

(** [CacheEntry.is_expired]: [datetime.now() >= self.expires_at]. *)
Definition is_expired (now : Z) (e : CacheEntry V) : bool :=
  bool_decide (expires_at e ≤ now).

(** [TTLCache.__init__]. *)
Definition init (default_ttl : Z) : TTLCache V :=
  mkCache ∅ default_ttl (mkStats 0 0 0).

Definition count_hit (s : Stats) : Stats :=
  mkStats (S (hits s)) (misses s) (sets s).
Definition count_miss (s : Stats) : Stats :=
  mkStats (hits s) (S (misses s)) (sets s).
Definition count_set (s : Stats) : Stats :=
  mkStats (hits s) (misses s) (S (sets s)).

(** [TTLCache.get]: the returned [option] is the Python return value
    ([None], or [entry.value]). *)
Definition get (key : string) (now : Z) (c : TTLCache V)
  : option V * TTLCache V :=
  match _cache c !! key with
  | None =>
      (None, mkCache (_cache c) (_default_ttl c) (count_miss (_stats c)))
  | Some entry =>
      if is_expired now entry then
        (None, mkCache (delete key (_cache c)) (_default_ttl c)
                       (count_miss (_stats c)))
      else
        (value entry,
         mkCache (_cache c) (_default_ttl c) (count_hit (_stats c)))
  end.

(** [TTLCache.set]. [now] is the reading taken for [expires_at]; the
    entry's [created_at] default is taken at the same reading. *)
Definition set (key : string) (v : option V) (ttl : option Z) (now : Z)
    (c : TTLCache V) : TTLCache V :=
  let ttl := py_or ttl (_default_ttl c) in
  let expires_at := now + timedelta ttl in
  mkCache (<[key := mkEntry v expires_at now]> (_cache c))
          (_default_ttl c) (count_set (_stats c)).

(** [TTLCache.delete]. *)
Definition delete_key (key : string) (c : TTLCache V) : bool * TTLCache V :=
  match _cache c !! key with
  | Some _ => (true, mkCache (delete key (_cache c)) (_default_ttl c) (_stats c))
  | None => (false, c)
  end.

(** [TTLCache.clear]. *)
Definition clear (c : TTLCache V) : nat * TTLCache V :=
  (size (_cache c), mkCache ∅ (_default_ttl c) (_stats c)).

(** [TTLCache.cleanup_expired]. *)
Definition cleanup_expired (now : Z) (c : TTLCache V) : nat * TTLCache V :=
  let expired_keys :=
    (filter (λ kv, is_expired now kv.2 = true) (map_to_list (_cache c))).*1 in
  (length expired_keys,
   mkCache (foldl (λ m k, delete k m) (_cache c) expired_keys)
           (_default_ttl c) (_stats c)).

(** [TTLCache.get_or_set]: [factory] is called only after a miss (or a
    cached [None]); [now] is the reading of the lookup, [now'] the one of
    the store. *)
Definition get_or_set (key : string) (factory : unit → option V)
    (ttl : option Z) (now now' : Z) (c : TTLCache V)
  : option V * TTLCache V :=
  let '(v, c1) := get key now c in
  match v with
  | Some _ => (v, c1)
  | None =>
      let v' := factory tt in
      match v' with
      | Some _ => (v', set key v' ttl now' c1)
      | None => (v', c1)
      end
  end.

(** [len(cache)]. *)
Definition len (c : TTLCache V) : nat := size (_cache c).
End Operations.

Section Statistics.
Context {V : Type}.
(** [f"{h / total * 100:.1f}%"] for [total > 0], from [h] and [total]:
    the quotient and the product are binary floating-point operations and
    the rendering rounds the resulting float. The one of the code is
    [HitRate.format_rate] below; what does not depend on it is stated for
    any. *)
Variable format_rate : nat → nat → string.

Record CacheStats := mkCacheStats {
  stat_hits : nat;
  stat_misses : nat;
  stat_sets : nat;
  stat_size : nat;
  hit_rate : string
}.

(** [TTLCache.stats]; [f"{0:.1f}%"] is ["0.0%"]. *)
Definition stats (c : TTLCache V) : CacheStats :=
  let total := (hits (_stats c) + misses (_stats c))%nat in
  let rate := if decide (0 < total)%nat
              then format_rate (hits (_stats c)) total
              else "0.0%" in
  mkCacheStats (hits (_stats c)) (misses (_stats c)) (sets (_stats c))
               (size (_cache c)) rate.
End Statistics.

End Cache.

(** * src/websocket/manager.py *)

Module Hub.

(** The FastAPI [WebSocket] object held by a connection, by identity. *)
Definition WebSocket := nat.

Record ClientConnection := mkClient {
  websocket : WebSocket;
  client_id : string;
  connected_at : Z;
  subscriptions : gset string
}.

Record ConnectionManager := mkManager {
  _connections : gmap string ClientConnection;
  _subscriptions : gmap string (gset string);
  _message_count : nat
}.

(** The envelopes the manager sends; [D] is the type of the [data] field. *)
Inductive Message (D : Type) :=
  | MsgConnected (client_id : string) (timestamp : Z)
  | MsgItemUpdate (item_name : string) (server_id : Z) (data : D) (timestamp : Z)
  | MsgTop5Update (data : D).
Arguments MsgConnected {D}.
Arguments MsgItemUpdate {D}.
Arguments MsgTop5Update {D}.

(** One call of [ClientConnection.send], with its outcome. *)
Record Sent (D : Type) := mkSent {
  to : string;
  via : WebSocket;
  payload : Message D;
  ok : bool
}.
Arguments mkSent {D}.
Arguments to {D}.
Arguments via {D}.
Arguments payload {D}.
Arguments ok {D}.

Section Manager.
(** [str.lower]. *)
Variable lower : string → string.
Context {D : Type}.
(** Whether [websocket.send_json] returns (true) or raises (false). *)
Variable send_json : WebSocket → bool.

(** [ConnectionManager.__init__]. *)
Definition init : ConnectionManager := mkManager ∅ ∅ 0.

(** [ClientConnection.send]. *)
Definition send (client : ClientConnection) (data : Message D) : bool :=
  send_json (websocket client).

(** [_make_sub_key]: [f"{item_name.lower()}:{server_id}"]. *)
Definition _make_sub_key (item_name : string) (server_id : Z) : string :=
  lower item_name +:+ ":" +:+ pretty server_id.

(** The body shared by [_disconnect_client]'s loop and [unsubscribe]:
    [if sub_key in subs: subs[sub_key].discard(client_id); prune if empty]. *)
Definition discard_member (client_id : string)
    (subs : gmap string (gset string)) (sub_key : string)
  : gmap string (gset string) :=
  match subs !! sub_key with
  | Some members =>
      let members' := members ∖ {[client_id]} in
      if decide (members' = ∅) then delete sub_key subs
      else <[sub_key := members']> subs
  | None => subs
  end.

(** [_disconnect_client]. *)
Definition _disconnect_client (client_id : string) (m : ConnectionManager)
  : ConnectionManager :=
  match _connections m !! client_id with
  | None => m
  | Some client =>
      mkManager (delete client_id (_connections m))
                (foldl (discard_member client_id) (_subscriptions m)
                       (elements (subscriptions client)))
                (_message_count m)
  end.

(** [disconnect]. *)
Definition disconnect (client_id : string) (m : ConnectionManager)
  : ConnectionManager :=
  _disconnect_client client_id m.

(** The registration part of [connect], after any previous holder of the
    id has been torn down. *)
Definition install (client : ClientConnection) (m : ConnectionManager)
  : ConnectionManager :=
  mkManager (<[client_id client := client]> (_connections m))
            (_subscriptions m) (_message_count m).

(** [connect]: returns the new handle, the manager and the welcome send
    (whose outcome the code discards). *)
Definition connect (websocket : WebSocket) (client_id : string) (now : Z)
    (m : ConnectionManager)
  : ClientConnection * ConnectionManager * Sent D :=
  let m1 := match _connections m !! client_id with
            | Some _ => _disconnect_client client_id m
            | None => m
            end in
  let client := mkClient websocket client_id now ∅ in
  let m2 := install client m1 in
  let welcome := MsgConnected client_id now in
  (client, m2, mkSent client_id websocket welcome (send client welcome)).

(** [subscribe]. *)
Definition subscribe (client_id item_name : string) (server_id : Z)
    (m : ConnectionManager) : bool * ConnectionManager :=
  let sub_key := _make_sub_key item_name server_id in
  match _connections m !! client_id with
  | None => (false, m)
  | Some client =>
      let subs0 := match _subscriptions m !! sub_key with
                   | None => <[sub_key := ∅]> (_subscriptions m)
                   | Some _ => _subscriptions m
                   end in
      let subs1 := alter (λ members, members ∪ {[client_id]}) sub_key subs0 in
      let client' := mkClient (websocket client) (Hub.client_id client)
                       (connected_at client)
                       (subscriptions client ∪ {[sub_key]}) in
      (true, mkManager (<[client_id := client']> (_connections m)) subs1
                       (_message_count m))
  end.

(** [unsubscribe]. *)
Definition unsubscribe (client_id item_name : string) (server_id : Z)
    (m : ConnectionManager) : bool * ConnectionManager :=
  let sub_key := _make_sub_key item_name server_id in
  match _connections m !! client_id with
  | None => (false, m)
  | Some client =>
      let subs' := discard_member client_id (_subscriptions m) sub_key in
      let client' := mkClient (websocket client) (Hub.client_id client)
                       (connected_at client)
                       (subscriptions client ∖ {[sub_key]}) in
      (true, mkManager (<[client_id := client']> (_connections m)) subs'
                       (_message_count m))
  end.

(** The running state of a broadcast's send loop. *)
Record Tally := mkTally {
  sent_count : nat;
  failed_clients : list string;
  outbox : list (Sent D)
}.

(** The body of both send loops: [success = await client.send(message)],
    then [sent_count += 1] or [failed_clients.append(id)], where [id] is
    the loop's [client_id], respectively [client.client_id]. *)
Definition deliver (message : Message D) (acc : Tally)
    (client : ClientConnection) (id : string) : Tally :=
  let success := send client message in
  let ev := mkSent id (websocket client) message success in
  if success then
    mkTally (S (sent_count acc)) (failed_clients acc) (outbox acc ++ [ev])
  else
    mkTally (sent_count acc) (failed_clients acc ++ [id])
            (outbox acc ++ [ev]).

(** [notified_clients] as [broadcast_item_update] collects it. *)
Definition notified_clients (item_name : string) (server_id : Z)
    (m : ConnectionManager) : gset string :=
  let sub_keys := [_make_sub_key item_name server_id;
                   _make_sub_key item_name (-1)] in
  foldl (λ notified sub_key,
           match _subscriptions m !! sub_key with
           | Some members => notified ∪ members
           | None => notified
           end) ∅ sub_keys.

(** The cleanup loop [for client_id in failed_clients: disconnect]. *)
Definition cleanup (failed : list string) (m : ConnectionManager)
  : ConnectionManager :=
  foldl (λ m client_id, disconnect client_id m) m failed.

Definition add_messages (n : nat) (m : ConnectionManager)
  : ConnectionManager :=
  mkManager (_connections m) (_subscriptions m) (_message_count m + n).

(** [broadcast_item_update]: the count returned, the manager afterwards
    and the sends made, in order. *)
Definition broadcast_item_update (item_name : string) (server_id : Z)
    (data : D) (now : Z) (m : ConnectionManager)
  : nat * ConnectionManager * list (Sent D) :=
  let notified := notified_clients item_name server_id m in
  let message := MsgItemUpdate item_name server_id data now in
  let acc :=
    foldl (λ acc client_id,
             match _connections m !! client_id with
             | Some client => deliver message acc client client_id
             | None => acc
             end) (mkTally 0 [] []) (elements notified) in
  let m' := cleanup (failed_clients acc) m in
  (sent_count acc, add_messages (sent_count acc) m', outbox acc).

(** [broadcast_all]. *)
Definition broadcast_all (message : Message D) (m : ConnectionManager)
  : nat * ConnectionManager * list (Sent D) :=
  let clients := (map_to_list (_connections m)).*2 in
  let acc :=
    foldl (λ acc client, deliver message acc client (client_id client))
          (mkTally 0 [] []) clients in
  let m' := cleanup (failed_clients acc) m in
  (sent_count acc, add_messages (sent_count acc) m', outbox acc).

(** [stats] and [connection_count]. *)
Record HubStats := mkHubStats {
  connections : nat;
  subscription_keys : nat;
  total_messages_sent : nat
}.
Definition stats (m : ConnectionManager) : HubStats :=
  mkHubStats (size (_connections m)) (size (_subscriptions m))
             (_message_count m).
Definition connection_count (m : ConnectionManager) : nat :=
  size (_connections m).
End Manager.

End Hub.

(** * src/models/item.py *)

Inductive ItemCategory := WEAPON | DEFENSE | CONSUMABLE | ETC.

(** [ItemCategory.value]. *)
Definition category_value (c : ItemCategory) : string :=
  match c with
  | WEAPON => "W" | DEFENSE => "D" | CONSUMABLE => "C" | ETC => "E"
  end.

Module TopItem.
Record t := mk {
  rank_number : Z;
  item_id : Z;
  item_name : string;
  item_count : Z;
  rank_state : string;
  category : option ItemCategory
}.
End TopItem.

Module DealItem.
Record t := mk {
  server_id : Z;
  server_name : string;
  item_id : option Z;
  item_name : string;
  display_name : option string;
  item_image_url : option string;
  refine : option Z;
  grade : option string;
  card_slots : option string;
  quantity : Z;
  price : Z;
  price_formatted : option string;
  deal_type : option string;
  shop_name : string;
  map_name : option string;
  crawled_at : Z
}.
End DealItem.

Module Top5Response.
Record t := mk {
  error_code : Z;
  error_message : string;
  now_date : string;
  weapons : list TopItem.t;
  defenses : list TopItem.t;
  consumables : list TopItem.t;
  etcs : list TopItem.t
}.
End Top5Response.

Module ItemSearchResponse.
Record t := mk {
  items : list DealItem.t;
  total_count : nat;
  page : Z;
  has_more : bool
}.
End ItemSearchResponse.

(** * src/database/repository.py *)

Module Repository.

(** A row of [top_items_cache] or of [rank_history] (same columns; the last
    one is [updated_at], respectively [recorded_at]). *)
Record RankRow := mkRankRow {
  rank_id : Z;
  rank_item_id : Z;
  rank_item_name : string;
  rank_category : string;
  rank : Z;
  deal_count : Z;
  rank_stamp : Z
}.

(** A row of [price_history]. *)
Record PriceRow := mkPriceRow {
  price_id : Z;
  price_item_id : option Z;
  price_item_name : string;
  price_server_id : Z;
  price : Z;
  quantity : Z;
  shop_name : string;
  recorded_at : Z
}.

(** The three tables, each with the next value of its AUTOINCREMENT key. *)
Record ItemRepository := mkRepo {
  price_history : list PriceRow;
  rank_history : list RankRow;
  top_items_cache : list RankRow;
  next_price_id : Z;
  next_rank_id : Z;
  next_cache_id : Z
}.

(** The state after [_create_tables] on a fresh database. *)
Definition init : ItemRepository := mkRepo [] [] [] 1 1 1.

(** One turn of the insert loop of [save_top_items]. *)
Definition insert_top_item (category : string) (now : Z)
    (r : ItemRepository) (item : TopItem.t) : ItemRepository :=
  let cache_row :=
    mkRankRow (next_cache_id r) (TopItem.item_id item) (TopItem.item_name item)
              category (TopItem.rank_number item) (TopItem.item_count item) now in
  let history_row :=
    mkRankRow (next_rank_id r) (TopItem.item_id item) (TopItem.item_name item)
              category (TopItem.rank_number item) (TopItem.item_count item) now in
  mkRepo (price_history r)
         (rank_history r ++ [history_row])
         (top_items_cache r ++ [cache_row])
         (next_price_id r) (next_rank_id r + 1) (next_cache_id r + 1).

(** [save_top_items]. *)
Definition save_top_items (items : list TopItem.t) (category : string)
    (now : Z) (r : ItemRepository) : ItemRepository :=
  let cleared :=
    mkRepo (price_history r) (rank_history r)
           (filter (λ row, rank_category row ≠ category) (top_items_cache r))
           (next_price_id r) (next_rank_id r) (next_cache_id r) in
  foldl (insert_top_item category now) cleared items.

(** [ORDER BY category, rank ASC] and [ORDER BY rank ASC]. *)
Definition by_category_rank (a b : RankRow) : Prop :=
  String.ltb (rank_category a) (rank_category b) = true
  ∨ (rank_category a = rank_category b ∧ rank a ≤ rank b).
Definition by_rank (a b : RankRow) : Prop := rank a ≤ rank b.

#[global] Instance by_category_rank_dec a b : Decision (by_category_rank a b).
Proof. unfold by_category_rank. apply _. Defined.
#[global] Instance by_rank_dec a b : Decision (by_rank a b).
Proof. unfold by_rank. apply _. Defined.

(** [get_cached_top_items]: the rows of [top_items_cache]. *)
Definition get_cached_top_items (category : option string)
    (r : ItemRepository) : list RankRow :=
  match category with
  | Some c =>
      if decide (c = "") then merge_sort by_category_rank (top_items_cache r)
      else merge_sort by_rank
             (filter (λ row, rank_category row = c) (top_items_cache r))
  | None => merge_sort by_category_rank (top_items_cache r)
  end.

(** One turn of the insert loop of [save_deal_items]. *)
Definition insert_deal_item (now : Z) (r : ItemRepository)
    (item : DealItem.t) : ItemRepository :=
  let row :=
    mkPriceRow (next_price_id r) None (DealItem.item_name item)
               (DealItem.server_id item) (DealItem.price item)
               (DealItem.quantity item) (DealItem.shop_name item) now in
  mkRepo (price_history r ++ [row]) (rank_history r) (top_items_cache r)
         (next_price_id r + 1) (next_rank_id r) (next_cache_id r).

(** [save_deal_items]. *)
Definition save_deal_items (items : list DealItem.t) (now : Z)
    (r : ItemRepository) : ItemRepository :=
  foldl (insert_deal_item now) r items.

End Repository.

(** * src/api/routes.py *)

Module Routes.

(** The dict [search_items] stores in [item_cache]. *)
Record SearchData := mkSearchData {
  items : list DealItem.t;
  total_count : nat;
  has_more : bool
}.

(** [response_data] of [get_top5_items]; [model_dump(by_alias=True)] renames
    the fields of an item and keeps their values, so the item stands for
    its dump. *)
Record Top5Data := mkTop5Data {
  date : string;
  W : list TopItem.t;
  D : list TopItem.t;
  C : list TopItem.t;
  E : list TopItem.t
}.

(** What [response_data.get(key, [])] can return. *)
Inductive Top5Value :=
  | VDate (d : string)
  | VItems (l : list TopItem.t).

Definition top5_get (data : Top5Data) (key : string) : Top5Value :=
  if decide (key = "date") then VDate (date data)
  else if decide (key = "W") then VItems (W data)
  else if decide (key = "D") then VItems (D data)
  else if decide (key = "C") then VItems (C data)
  else if decide (key = "E") then VItems (E data)
  else VItems [].

(** The [data] field of the two broadcasts. *)
Inductive Payload :=
  | DataTop5 (data : Top5Data)
  | DataDeals (items : list DealItem.t) (count : nat).

(** Calls made on the collaborators, in order. *)
Inductive Call :=
  | CallFetchTop5
  | CallSearchDeals (name : string) (server_id page : Z)
  | CallGetCachedTop
  | CallSaveTop (items : list TopItem.t) (category : string)
  | CallSaveDeals (items : list DealItem.t)
  | CallBroadcastAll (message : Hub.Message Payload)
  | CallBroadcastItem (item_name : string) (server_id : Z) (data : Payload).

(** The module-level state the handlers work on. *)
Record App := mkApp {
  item_cache : Cache.TTLCache SearchData;
  top5_cache : Cache.TTLCache Top5Data;
  ws_manager : Hub.ConnectionManager;
  repo : Repository.ItemRepository;
  calls : list Call;
  wire : list (Hub.Sent Payload)
}.

(** The state at import time: [TTLCache(default_ttl=60)],
    [TTLCache(default_ttl=300)], [ConnectionManager()]. *)
Definition startup : App :=
  mkApp (Cache.init 60) (Cache.init 300) Hub.init Repository.init [] [].

(** What the outside answers during one request: the Market Data Source
    ([GnjoyClient]) and the transports. *)
Record World := mkWorld {
  fetch_top5_items : option Top5Response.t;
  search_item_deals : string → Z → Z → list DealItem.t;
  send_json : Hub.WebSocket → bool
}.

(** The readings of [datetime.now()] during one request: by the cache
    lookup, by the cache store, by each History Store save (keyed by the
    category saved, [""] for [save_deal_items]) and by the broadcast. *)
Record Clock := mkClock {
  at_lookup : Z;
  at_store : Z;
  at_save : string → Z;
  at_broadcast : Z
}.

Record HTTPException := mkHTTPException {
  status_code : Z;
  detail : string
}.

Inductive Outcome (A : Type) :=
  | Return (a : A)
  | Raise (e : HTTPException).
Arguments Return {A}.
Arguments Raise {A}.

(** Handlers thread [App] and may raise. *)
Definition M (A : Type) : Type := App → Outcome A * App.

Definition ret {A} (a : A) : M A := λ s, (Return a, s).
Definition raise {A} (e : HTTPException) : M A := λ s, (Raise e, s).
Definition bind {A B} (c : M A) (k : A → M B) : M B :=
  λ s, match c s with
       | (Return a, s') => k a s'
       | (Raise e, s') => (Raise e, s')
       end.

Notation "x <~ c ;; k" := (bind c (λ x, k))
  (at level 100, c at next level, right associativity).
Notation "c ;;; k" := (bind c (λ _, k))
  (at level 100, right associativity).

Definition log (c : Call) : M unit :=
  λ s, (Return tt,
        mkApp (item_cache s) (top5_cache s) (ws_manager s) (repo s)
              (calls s ++ [c]) (wire s)).

(** [await top5_cache.get(key)] and [await top5_cache.set(key, value)]. *)
Definition top5_cache_get (key : string) (now : Z) : M (option Top5Data) :=
  λ s, let '(v, c) := Cache.get key now (top5_cache s) in
       (Return v,
        mkApp (item_cache s) c (ws_manager s) (repo s) (calls s) (wire s)).
Definition top5_cache_set (key : string) (v : Top5Data) (now : Z) : M unit :=
  λ s, (Return tt,
        mkApp (item_cache s) (Cache.set key (Some v) None now (top5_cache s))
              (ws_manager s) (repo s) (calls s) (wire s)).

(** [await item_cache.get(key)] and [await item_cache.set(key, value)]. *)
Definition item_cache_get (key : string) (now : Z) : M (option SearchData) :=
  λ s, let '(v, c) := Cache.get key now (item_cache s) in
       (Return v,
        mkApp c (top5_cache s) (ws_manager s) (repo s) (calls s) (wire s)).
Definition item_cache_set (key : string) (v : SearchData) (now : Z) : M unit :=
  λ s, (Return tt,
        mkApp (Cache.set key (Some v) None now (item_cache s)) (top5_cache s)
              (ws_manager s) (repo s) (calls s) (wire s)).

(** The calls on [client]. *)
Definition client_fetch_top5_items (w : World) : M (option Top5Response.t) :=
  log CallFetchTop5 ;;; ret (fetch_top5_items w).
Definition client_search_item_deals (w : World) (name : string)
    (server_id page : Z) : M (list DealItem.t) :=
  log (CallSearchDeals name server_id page) ;;;
  ret (search_item_deals w name server_id page).

(** The calls on [repo]. *)
Definition repo_get_cached_top_items : M (list Repository.RankRow) :=
  log CallGetCachedTop ;;;
  λ s, (Return (Repository.get_cached_top_items None (repo s)), s).
Definition repo_save_top_items (items : list TopItem.t) (category : string)
    (now : Z) : M unit :=
  log (CallSaveTop items category) ;;;
  λ s, (Return tt,
        mkApp (item_cache s) (top5_cache s) (ws_manager s)
              (Repository.save_top_items items category now (repo s))
              (calls s) (wire s)).
Definition repo_save_deal_items (items : list DealItem.t) (now : Z) : M unit :=
  log (CallSaveDeals items) ;;;
  λ s, (Return tt,
        mkApp (item_cache s) (top5_cache s) (ws_manager s)
              (Repository.save_deal_items items now (repo s))
              (calls s) (wire s)).

Section Handlers.
(** [str.lower] and [str.upper]. *)
Variable lower upper : string → string.

(** The calls on [ws_manager]. *)
Definition ws_broadcast_all (w : World) (message : Hub.Message Payload)
  : M nat :=
  log (CallBroadcastAll message) ;;;
  λ s, let '(n, m, sent) :=
         Hub.broadcast_all (send_json w) message (ws_manager s) in
       (Return n,
        mkApp (item_cache s) (top5_cache s) m (repo s) (calls s)
              (wire s ++ sent)).
Definition ws_broadcast_item_update (w : World) (item_name : string)
    (server_id : Z) (data : Payload) (now : Z) : M nat :=
  log (CallBroadcastItem item_name server_id data) ;;;
  λ s, let '(n, m, sent) :=
         Hub.broadcast_item_update lower (send_json w) item_name server_id
           data now (ws_manager s) in
       (Return n,
        mkApp (item_cache s) (top5_cache s) m (repo s) (calls s)
              (wire s ++ sent)).

(** What [get_top5_items] returns. *)
Inductive Top5Reply :=
  | ReplyCategory (category : string) (items : Top5Value) (cached : bool)
      (cache_ttl : option Z)
  | ReplyAll (data : Top5Data) (cached : bool)
  | ReplyStale (items : list Repository.RankRow).

(** [if category:] on an [Optional[str]]. *)
Definition truthy (category : option string) : option string :=
  match category with
  | Some c => if decide (c = "") then None else Some c
  | None => None
  end.

(** The part of [get_top5_items] after the cache check. *)
Definition refresh_top5 (category : option string) (w : World) (clk : Clock)
  : M Top5Reply :=
  let cache_key := "top5_all" in
  result <~ client_fetch_top5_items w ;;
  match result with
  | None =>
      cached <~ repo_get_cached_top_items ;;
      match cached with
      | [] => raise (mkHTTPException 503 "Failed to fetch data from GNJOY")
      | _ :: _ => ret (ReplyStale cached)
      end
  | Some result =>
      let response_data :=
        mkTop5Data (Top5Response.now_date result)
                   (Top5Response.weapons result)
                   (Top5Response.defenses result)
                   (Top5Response.consumables result)
                   (Top5Response.etcs result) in
      top5_cache_set cache_key response_data (at_store clk) ;;;
      repo_save_top_items (Top5Response.weapons result) "W" (at_save clk "W") ;;;
      repo_save_top_items (Top5Response.defenses result) "D" (at_save clk "D") ;;;
      repo_save_top_items (Top5Response.consumables result) "C" (at_save clk "C") ;;;
      repo_save_top_items (Top5Response.etcs result) "E" (at_save clk "E") ;;;
      ws_broadcast_all w (Hub.MsgTop5Update (DataTop5 response_data)) ;;;
      match truthy category with
      | Some category =>
          let cat_upper := upper category in
          ret (ReplyCategory cat_upper (top5_get response_data cat_upper)
                             false None)
      | None => ret (ReplyAll response_data false)
      end
  end.

(** [get_top5_items]. The cached value is a dict of five keys, hence
    truthy whenever it is not [None]. *)
Definition get_top5_items (category : option string) (force_refresh : bool)
    (w : World) (clk : Clock) : M Top5Reply :=
  let cache_key := "top5_all" in
  if force_refresh then refresh_top5 category w clk
  else
    cached <~ top5_cache_get cache_key (at_lookup clk) ;;
    match cached with
    | Some cached =>
        match truthy category with
        | Some category =>
            let cat_upper := upper category in
            λ s, (Return (ReplyCategory cat_upper (top5_get cached cat_upper)
                            true (Some (Cache._default_ttl (top5_cache s)))),
                  s)
        | None => ret (ReplyAll cached true)
        end
    | None => refresh_top5 category w clk
    end.

(** [cache_key] of [search_items]. *)
Definition search_key (name : string) (server_id page : Z) : string :=
  "search:" +:+ lower name +:+ ":" +:+ pretty server_id +:+ ":"
    +:+ pretty page.

(** The part of [search_items] after the cache check. *)
Definition refresh_search (name : string) (server_id page : Z) (w : World)
    (clk : Clock) : M ItemSearchResponse.t :=
  let cache_key := search_key name server_id page in
  items <~ client_search_item_deals w name server_id page ;;
  let response_data :=
    mkSearchData items (length items) (bool_decide (20 ≤ length items)%nat) in
  item_cache_set cache_key response_data (at_store clk) ;;;
  (match items with
   | [] => ret tt
   | _ :: _ =>
       repo_save_deal_items items (at_save clk "") ;;;
       ws_broadcast_item_update w name server_id
         (DataDeals items (length items)) (at_broadcast clk) ;;;
       ret tt
   end) ;;;
  ret (ItemSearchResponse.mk items (length items) page
         (bool_decide (20 ≤ length items)%nat)).

(** [search_items]. The cached value is a dict of three keys, hence
    truthy whenever it is not [None]. *)
Definition search_items (name : string) (server_id page : Z)
    (force_refresh : bool) (w : World) (clk : Clock)
  : M ItemSearchResponse.t :=
  let cache_key := search_key name server_id page in
  if force_refresh then refresh_search name server_id page w clk
  else
    cached <~ item_cache_get cache_key (at_lookup clk) ;;
    match cached with
    | Some cached =>
        ret (ItemSearchResponse.mk (items cached) (total_count cached) page
               (has_more cached))
    | None => refresh_search name server_id page w clk
    end.
End Handlers.

End Routes.

(** * The hub as a transition system *)

Module HubOps.

Section Ops.
Variable lower : string → string.
Context {D : Type}.

(** The public operations of [ConnectionManager], with their arguments;
    the operations that send carry the behaviour of the transports during
    the call. *)
Inductive Op :=
  | OpConnect (send_json : Hub.WebSocket → bool) (websocket : Hub.WebSocket)
      (client_id : string) (now : Z)
  | OpDisconnect (client_id : string)
  | OpSubscribe (client_id item_name : string) (server_id : Z)
  | OpUnsubscribe (client_id item_name : string) (server_id : Z)
  | OpBroadcastItemUpdate (send_json : Hub.WebSocket → bool)
      (item_name : string) (server_id : Z) (data : D) (now : Z)
  | OpBroadcastAll (send_json : Hub.WebSocket → bool)
      (message : Hub.Message D).

(** The manager after one operation. *)
Definition run (op : Op) (m : Hub.ConnectionManager)
  : Hub.ConnectionManager :=
  match op with
  | OpConnect send_json ws id now =>
      (Hub.connect (D:=D) send_json ws id now m).1.2
  | OpDisconnect id => Hub.disconnect id m
  | OpSubscribe id item srv => (Hub.subscribe lower id item srv m).2
  | OpUnsubscribe id item srv => (Hub.unsubscribe lower id item srv m).2
  | OpBroadcastItemUpdate send_json item srv data now =>
      (Hub.broadcast_item_update lower send_json item srv data now m).1.2
  | OpBroadcastAll send_json message =>
      (Hub.broadcast_all send_json message m).1.2
  end.

(** The managers the program can be in. *)
Inductive reachable : Hub.ConnectionManager → Prop :=
  | reachable_init : reachable Hub.init
  | reachable_run op m : reachable m → reachable (run op m).
End Ops.

(** The members of a key's entry in a subscription index (none when the
    key is absent). *)
Definition mem (subs : gmap string (gset string)) (sub_key : string)
  : gset string :=
  default ∅ (subs !! sub_key).

Definition members (m : Hub.ConnectionManager) (sub_key : string)
  : gset string :=
  mem (Hub._subscriptions m) sub_key.

(** No key of the index maps to the empty set. *)
Definition pruned (subs : gmap string (gset string)) : Prop :=
  ∀ k s, subs !! k = Some s → s ≠ ∅.

(** Consistency of the registry with the subscription index. *)
Record consistent (m : Hub.ConnectionManager) : Prop := mkConsistent {
  keyed_by_id : ∀ id c,
    Hub._connections m !! id = Some c → Hub.client_id c = id;
  own_iff_index : ∀ id c k,
    Hub._connections m !! id = Some c →
    (k ∈ Hub.subscriptions c ↔ id ∈ members m k);
  members_registered : ∀ id k,
    id ∈ members m k → is_Some (Hub._connections m !! id);
  entries_nonempty : pruned (Hub._subscriptions m)
}.

(** What a broadcast leaves of the connections whose send failed: [m] is
    the manager before, [m'] after, [sent] the sends made. Each of them is
    out of the registry and of every entry of the index; every other
    connection is where it was; and the connection count has dropped by the
    number of failed sends. *)
Definition evicted {D : Type} (m m' : Hub.ConnectionManager)
    (sent : list (Hub.Sent D)) : Prop :=
  (∀ ev, ev ∈ sent → Hub.ok ev = false →
     Hub._connections m' !! Hub.to ev = None
     ∧ ∀ k, Hub.to ev ∉ members m' k)
  ∧ (∀ id, (∀ ev, ev ∈ sent → Hub.to ev = id → Hub.ok ev = true) →
       Hub._connections m' !! id = Hub._connections m !! id
       ∧ ∀ k, id ∈ members m' k ↔ id ∈ members m k)
  ∧ Hub.connection_count m'
    = (Hub.connection_count m
       - length (filter (λ ev, Hub.ok ev = false) sent))%nat.

End HubOps.

(** [str.lower] restricted to ASCII letters, for the worked examples. *)
Definition ascii_lower (s : string) : string :=
  String.string_of_list_ascii
    (map (λ a : Ascii.ascii,
            let n := Ascii.nat_of_ascii a in
            if bool_decide (65 ≤ n ≤ 90)%nat
            then Ascii.ascii_of_nat (n + 32) else a)
         (String.list_ascii_of_string s)).

(** [str.upper] restricted to ASCII letters. *)
Definition ascii_upper (s : string) : string :=
  String.string_of_list_ascii
    (map (λ a : Ascii.ascii,
            let n := Ascii.nat_of_ascii a in
            if bool_decide (97 ≤ n ≤ 122)%nat
            then Ascii.ascii_of_nat (n - 32) else a)
         (String.list_ascii_of_string s)).

(** * Worked states *)

Module Samples.

(** Two clients, ["a"] on both the server-2 key and the all-servers key of
    an item, ["b"] on the all-servers key only, ["c"] on another item. *)
Definition ops : list (HubOps.Op (D:=nat)) :=
  [ HubOps.OpConnect (λ _, true) 1%nat "a" 0;
    HubOps.OpConnect (λ _, true) 2%nat "b" 0;
    HubOps.OpConnect (λ _, true) 3%nat "c" 0;
    HubOps.OpSubscribe "a" "Jellopy" 2;
    HubOps.OpSubscribe "b" "JELLOPY" (-1);
    HubOps.OpSubscribe "a" "Jellopy" (-1);
    HubOps.OpSubscribe "c" "Apple" 2 ].

Definition hub : Hub.ConnectionManager :=
  foldl (λ m op, HubOps.run ascii_lower op m) Hub.init ops.

(** Client ["a"] as [hub] holds it. *)
Definition client_a : Hub.ClientConnection :=
  Hub.mkClient 1%nat "a" 0 {["jellopy:2"; "jellopy:-1"]}.

(** The transport of client ["b"] is broken. *)
Definition b_is_down (ws : Hub.WebSocket) : bool :=
  negb (bool_decide (ws = 2%nat)).

(** A listing of the searched card at a given price. *)
Definition deal (price : Z) : DealItem.t :=
  DealItem.mk (-1) "all" None "Elder Willow Card" None None None None None
              1 price None None "shop" None 0.

Definition three_deals : list DealItem.t := [deal 100; deal 120; deal 90].

(** The source finds three listings for any search and has no top-5
    answer; every transport works. *)
Definition source_down_for_top5 : Routes.World :=
  Routes.mkWorld None (λ _ _ _, three_deals) (λ _, true).

(** A request whose cache lookup happens at [t] seconds and whose writes
    happen one second later. *)
Definition clock (t : Z) : Routes.Clock :=
  Routes.mkClock (timedelta t) (timedelta (t + 1)) (λ _, timedelta (t + 1))
                 (timedelta (t + 1)).

(** The application after one earlier successful top-5 save: the History
    Store holds one row. *)
Definition with_snapshot : Routes.App :=
  Routes.mkApp (Cache.init 60) (Cache.init 300) Hub.init
    (Repository.save_top_items
       [TopItem.mk 1 501 "Red Potion" 40 "-" (Some CONSUMABLE)] "C" 0
       Repository.init)
    [] [].

End Samples.

(** * Python's [float]: binary64 *)

Module PyFloat.

(** The format of a Python [float]: 53 bits of precision, infinities at
    exponent 1024. The operations are those of [SpecFloat], rounding to
    nearest, ties to even. *)
Definition prec : Z := 53.
Definition emax : Z := 1024.

(** An [int] as the exact pair of a mantissa and the exponent 0. *)
Definition exact (n : Z) : SpecFloat.spec_float :=
  match n with
  | 0 => SpecFloat.S754_zero false
  | Z.pos p => SpecFloat.S754_finite false p 0
  | Z.neg p => SpecFloat.S754_finite true p 0
  end.

(** [float(n)]: the nearest float. *)
Definition of_int (n : Z) : SpecFloat.spec_float :=
  SpecFloat.binary_normalize prec emax n 0 false.

(** [a / b] on two [int]s, [b] not 0: the quotient of the integers,
    rounded once. *)
Definition true_div (a b : Z) : SpecFloat.spec_float :=
  SpecFloat.SFdiv prec emax (exact a) (exact b).

(** [x * y] on two [float]s. *)
Definition mul (x y : SpecFloat.spec_float) : SpecFloat.spec_float :=
  SpecFloat.SFmul prec emax x y.

(** The integer nearest to [num / den], ties to the even one, for
    [0 <= num] and [0 < den]. *)
Definition nearest_even (num den : Z) : Z :=
  let q := num `div` den in
  let r := num `mod` den in
  match 2 * r ?= den with
  | Lt => q
  | Eq => if Z.even q then q else q + 1
  | Gt => q + 1
  end.

(** The number of tenths nearest to a float that is not negative. *)
Definition tenths (m : positive) (e : Z) : Z :=
  if decide (0 ≤ e) then 10 * Z.pos m * 2 ^ e
  else nearest_even (10 * Z.pos m) (2 ^ (- e)).

(** A number of tenths written with one decimal. *)
Definition tenths_text (n : Z) : string :=
  pretty (n `div` 10) +:+ "." +:+ pretty (n `mod` 10).

(** [f"{x:.1f}"]: the decimal number with one decimal nearest to the
    float, ties to even. *)
Definition format_1f (x : SpecFloat.spec_float) : string :=
  match x with
  | SpecFloat.S754_zero s => (if s then "-" else "") +:+ "0.0"
  | SpecFloat.S754_infinity s => (if s then "-" else "") +:+ "inf"
  | SpecFloat.S754_nan => "nan"
  | SpecFloat.S754_finite s m e =>
      (if s then "-" else "") +:+ tenths_text (tenths m e)
  end.

(** What a round bit and a sticky bit say of a remainder [a / b] in
    [[0, 1)]: the round bit that it is at least a half, the sticky bit
    that it is neither 0 nor a half. *)
Definition located (r s : bool) (a b : Z) : Prop :=
  0 ≤ a < b
  ∧ r = bool_decide (b ≤ 2 * a)
  ∧ s = bool_decide (a ≠ 0 ∧ 2 * a ≠ b).

End PyFloat.

(** * src/cache.py, continued: the hit rate *)

Module HitRate.

(** [f"{hits / total * 100:.1f}%"], which [TTLCache.stats] evaluates when
    [total > 0]. *)
Definition format_rate (hits total : nat) : string :=
  PyFloat.format_1f
    (PyFloat.mul (PyFloat.true_div (Z.of_nat hits) (Z.of_nat total))
                 (PyFloat.of_int 100))
  +:+ "%".

(** How a number halfway between two tenths is rounded. *)
Inductive TieRule := HalfUp | HalfDown | HalfEven | HalfOdd.

(** [hits / total * 100] as a number of tenths, rounded to the nearest
    one in exact arithmetic, a tie by the rule given. *)
Definition round_tenths (rule : TieRule) (hits total : nat) : Z :=
  let q := (1000 * Z.of_nat hits) `div` Z.of_nat total in
  let r := (1000 * Z.of_nat hits) `mod` Z.of_nat total in
  match 2 * r ?= Z.of_nat total with
  | Lt => q
  | Gt => q + 1
  | Eq =>
      match rule with
      | HalfUp => q + 1
      | HalfDown => q
      | HalfEven => if Z.even q then q else q + 1
      | HalfOdd => if Z.even q then q + 1 else q
      end
  end.

(** The claim's hit rate: the exact quotient rounded to one decimal. *)
Definition rounded_rate (rule : TieRule) (hits total : nat) : string :=
  PyFloat.tenths_text (round_tenths rule hits total) +:+ "%".

End HitRate.

(** * The cache as a transition system *)

Module CacheOps.

Section Ops.
Context {V : Type}.

(** The public operations of [TTLCache], with their arguments and clock
    readings. *)
Inductive Op :=
  | OpGet (key : string) (now : Z)
  | OpSet (key : string) (v : option V) (ttl : option Z) (now : Z)
  | OpDelete (key : string)
  | OpClear
  | OpCleanupExpired (now : Z)
  | OpGetOrSet (key : string) (factory : unit → option V) (ttl : option Z)
      (now now' : Z).

(** The cache after one operation. *)
Definition run (op : Op) (c : Cache.TTLCache V) : Cache.TTLCache V :=
  match op with
  | OpGet key now => (Cache.get key now c).2
  | OpSet key v ttl now => Cache.set key v ttl now c
  | OpDelete key => (Cache.delete_key key c).2
  | OpClear => (Cache.clear c).2
  | OpCleanupExpired now => (Cache.cleanup_expired now c).2
  | OpGetOrSet key factory ttl now now' =>
      (Cache.get_or_set key factory ttl now now' c).2
  end.

Definition run_all (ops : list Op) (c : Cache.TTLCache V)
  : Cache.TTLCache V :=
  foldl (λ c op, run op c) c ops.

(** The operations that look a key up, those that always store and those
    that may. *)
Definition is_lookup (op : Op) : bool :=
  match op with
  | OpGet _ _ | OpGetOrSet _ _ _ _ _ => true
  | _ => false
  end.
Definition is_set (op : Op) : bool :=
  match op with OpSet _ _ _ _ => true | _ => false end.
Definition is_get_or_set (op : Op) : bool :=
  match op with OpGetOrSet _ _ _ _ _ => true | _ => false end.
End Ops.

End CacheOps.
(** * src/websocket/manager.py, continued *)

Module Manager.

(** The dict returned by [get_client_info]. *)
Record ClientInfo := mkClientInfo {
  info_client_id : string;
  info_connected_at : Z;
  info_subscriptions : list string
}.

(** [get_client_info]. *)
Definition get_client_info (client_id : string) (m : Hub.ConnectionManager)
  : option ClientInfo :=
  match Hub._connections m !! client_id with
  | None => None
  | Some client =>
      Some (mkClientInfo (Hub.client_id client) (Hub.connected_at client)
                         (elements (Hub.subscriptions client)))
  end.

Section Counting.
Variable lower : string → string.
Context {D : Type}.

(** The count an operation returns to its caller: the two broadcasts
    return their [sent_count], the other operations return no count. *)
Definition returned_count (op : HubOps.Op (D:=D))
    (m : Hub.ConnectionManager) : nat :=
  match op with
  | HubOps.OpBroadcastItemUpdate send_json item srv data now =>
      (Hub.broadcast_item_update lower send_json item srv data now m).1.1
  | HubOps.OpBroadcastAll send_json message =>
      (Hub.broadcast_all send_json message m).1.1
  | _ => 0%nat
  end.

(** A sequence of operations: the manager at the end and the sum of the
    counts returned on the way. *)
Fixpoint run_all (ops : list (HubOps.Op (D:=D))) (m : Hub.ConnectionManager)
  : Hub.ConnectionManager * nat :=
  match ops with
  | [] => (m, 0%nat)
  | op :: ops =>
      let '(m', n) := run_all ops (HubOps.run lower op m) in
      (m', (returned_count op m + n)%nat)
  end.
End Counting.

End Manager.

(** * src/main.py: the message loop of [websocket_endpoint] *)

Module Endpoint.

(** A received text that [json.loads] turns into an object whose
    ["action"] and ["item_name"] are strings and whose ["server_id"] is an
    integer, each when present; [None] is an absent key. *)
Record ClientMessage := mkClientMessage {
  action : option string;
  item_name : option string;
  server_id : option Z
}.

(** What [websocket.receive_text()] delivered: a text [json.loads]
    rejects with [JSONDecodeError], or a message as above. *)
Inductive Incoming :=
  | Malformed
  | Parsed (message : ClientMessage).

(** The envelopes the loop sends back with [conn.send]. *)
Inductive Reply :=
  | ReplyError (message : string)
  | ReplySubscribed (item_name : string) (server_id : Z)
  | ReplyUnsubscribed (item_name : string) (server_id : Z)
  | ReplyPong
  | ReplyStatus (info : option Manager.ClientInfo).

(** [if not item_name] on an optional string. *)
Definition given (item_name : option string) : option string :=
  match item_name with
  | Some n => if decide (n = "") then None else Some n
  | None => None
  end.

(** [f"Unknown action: {action}"]. *)
Definition unknown_action (action : option string) : string :=
  "Unknown action: " +:+ default "None" action.

Section Loop.
Variable lower : string → string.

(** One turn of the [while True] loop for the client registered as
    [client_id]: the manager afterwards and the reply sent. *)
Definition handle (client_id : string) (incoming : Incoming)
    (m : Hub.ConnectionManager) : Hub.ConnectionManager * Reply :=
  match incoming with
  | Malformed => (m, ReplyError "Invalid JSON")
  | Parsed message =>
      let server_id := default (-1) (server_id message) in
      if decide (action message = Some "subscribe") then
        match given (item_name message) with
        | None => (m, ReplyError "item_name required")
        | Some item_name =>
            ((Hub.subscribe lower client_id item_name server_id m).2,
             ReplySubscribed item_name server_id)
        end
      else if decide (action message = Some "unsubscribe") then
        match given (item_name message) with
        | None => (m, ReplyError "item_name required")
        | Some item_name =>
            ((Hub.unsubscribe lower client_id item_name server_id m).2,
             ReplyUnsubscribed item_name server_id)
        end
      else if decide (action message = Some "ping") then (m, ReplyPong)
      else if decide (action message = Some "status") then
        (m, ReplyStatus (Manager.get_client_info client_id m))
      else (m, ReplyError (unknown_action (action message)))
  end.

(** A conversation: the manager at the end and the replies, in order. *)
Fixpoint converse (client_id : string) (incoming : list Incoming)
    (m : Hub.ConnectionManager) : Hub.ConnectionManager * list Reply :=
  match incoming with
  | [] => (m, [])
  | i :: rest =>
      let '(m1, reply) := handle client_id i m in
      let '(m2, replies) := converse client_id rest m1 in
      (m2, reply :: replies)
  end.
End Loop.

End Endpoint.
(** * The repository as a transition system *)

Module RepoOps.

(** The writes of [ItemRepository], with their arguments and the clock
    reading each takes. *)
Inductive Op :=
  | OpSaveTopItems (items : list TopItem.t) (category : string) (now : Z)
  | OpSaveDealItems (items : list DealItem.t) (now : Z).

Definition run (op : Op) (r : Repository.ItemRepository)
  : Repository.ItemRepository :=
  match op with
  | OpSaveTopItems items category now =>
      Repository.save_top_items items category now r
  | OpSaveDealItems items now => Repository.save_deal_items items now r
  end.

Definition run_all (ops : list Op) (r : Repository.ItemRepository)
  : Repository.ItemRepository :=
  foldl (λ r op, run op r) r ops.

(** The rows one call of [save_top_items] inserts in a table whose next
    key is [first]. *)
Fixpoint rank_rows (first : Z) (category : string) (now : Z)
    (items : list TopItem.t) : list Repository.RankRow :=
  match items with
  | [] => []
  | item :: items =>
      Repository.mkRankRow first (TopItem.item_id item)
        (TopItem.item_name item) category (TopItem.rank_number item)
        (TopItem.item_count item) now
      :: rank_rows (first + 1) category now items
  end.

(** The rows one call of [save_deal_items] inserts. *)
Fixpoint price_rows (first : Z) (now : Z) (items : list DealItem.t)
  : list Repository.PriceRow :=
  match items with
  | [] => []
  | item :: items =>
      Repository.mkPriceRow first None (DealItem.item_name item)
        (DealItem.server_id item) (DealItem.price item)
        (DealItem.quantity item) (DealItem.shop_name item) now
      :: price_rows (first + 1) now items
  end.

(** Keys of a table are distinct and below the table's next key. *)
Definition keyed {A} (key : A → Z) (rows : list A) (next : Z) : Prop :=
  NoDup (key <$> rows) ∧ ∀ row, row ∈ rows → 1 ≤ key row < next.

(** The tables of a repository: keys distinct and below the next key, no
    item id in the price history. *)
Definition sound (r : Repository.ItemRepository) : Prop :=
  keyed Repository.price_id (Repository.price_history r) (Repository.next_price_id r)
  ∧ keyed Repository.rank_id (Repository.rank_history r) (Repository.next_rank_id r)
  ∧ keyed Repository.rank_id (Repository.top_items_cache r) (Repository.next_cache_id r)
  ∧ 1 ≤ Repository.next_price_id r ∧ 1 ≤ Repository.next_rank_id r ∧ 1 ≤ Repository.next_cache_id r
  ∧ ∀ row, row ∈ Repository.price_history r → Repository.price_item_id row = None.

End RepoOps.

(** * src/api/routes.py, continued: the cache endpoints *)

Module Admin.

Section Statistics.
(** The rendering of the hit rate, as in [Cache.stats]. *)
Variable format_rate : nat → nat → string.

(** [get_cache_stats]: the statistics of [item_cache], then those of
    [top5_cache]. *)
Definition get_cache_stats
  : Routes.M (Cache.CacheStats * Cache.CacheStats) :=
  λ s, (Routes.Return (Cache.stats format_rate (Routes.item_cache s),
                       Cache.stats format_rate (Routes.top5_cache s)), s).
End Statistics.

(** [clear_cache]: the two counts of cleared entries, [item_cache] first. *)
Definition clear_cache : Routes.M (nat * nat) :=
  λ s,
    let '(item_cleared, item_cache) := Cache.clear (Routes.item_cache s) in
    let '(top5_cleared, top5_cache) := Cache.clear (Routes.top5_cache s) in
    (Routes.Return (item_cleared, top5_cleared),
     Routes.mkApp item_cache top5_cache (Routes.ws_manager s) (Routes.repo s)
                  (Routes.calls s) (Routes.wire s)).

End Admin.

(** * src/scheduler/jobs.py *)

Module Scheduler.


End Scheduler.

(** * Python's conversions between [int] and [str] *)

Module Py.

Section Conversions.
Import Stdlib.Strings.Ascii.

(** [sys.get_int_max_str_digits()]: the most digits a conversion between
    [int] and [str] accepts before it raises [ValueError]; 0 switches the
    limit off. *)
Variable max_str_digits : nat.

Definition within_limit (digits : nat) : bool :=
  bool_decide (max_str_digits = 0%nat ∨ (digits ≤ max_str_digits)%nat).

(** A text is given by its code points, those below 256 (what [string]
    holds); among them [\d] matches the ten ASCII digits only. *)
Definition is_digit (c : ascii) : bool :=
  bool_decide (48 ≤ N_of_ascii c ≤ 57)%N.

Definition digit_value (c : ascii) : Z := Z.of_N (N_of_ascii c) - 48.

(** [int(text)] on a text of digits, at least one. *)
Definition int_of_digits (text : list ascii) : option Z :=
  if within_limit (length text)
  then Some (foldl (λ acc c, 10 * acc + digit_value c) 0 text)
  else None.

(** The decimal digits of [abs(n)]. *)
Definition digits (n : Z) : list ascii :=
  String.list_ascii_of_string (pretty (Z.abs_N n)).

(** [str(n)], also [f"{n}"]. *)
Definition str (n : Z) : option string :=
  if within_limit (length (digits n)) then Some (pretty n) else None.

(** The thousands separators of the format [","], on the digits taken
    from the least significant one. *)
Fixpoint group3_rev (ds : list ascii) : list ascii :=
  match ds with
  | a :: b :: c :: ((_ :: _) as rest) =>
      a :: b :: c :: ","%char :: group3_rev rest
  | _ => ds
  end.

(** [f"{n:,}"]. *)
Definition format_commas (n : Z) : option string :=
  if within_limit (length (digits n))
  then Some ((if bool_decide (n < 0) then "-" else "")
             +:+ String.string_of_list_ascii
                   (reverse (group3_rev (reverse (digits n)))))
  else None.
End Conversions.

End Py.

(** * src/crawler/parser.py *)

Module Parser.

Section Numbers.
Variable max_str_digits : nat.

(** [ItemDealParser._parse_number]: [None] stands for the [ValueError] of
    [int]. *)
Definition _parse_number (text : string) : option Z :=
  let clean :=
    filter (λ c, Py.is_digit c = true) (String.list_ascii_of_string text) in
  match clean with
  | [] => Some 0
  | _ :: _ => Py.int_of_digits max_str_digits clean
  end.
End Numbers.

End Parser.

(** * src/models/item.py: the computed fields *)

Module Models.

Section PostInit.
Variable max_str_digits : nat.

(** [DealItem.model_post_init]; [None] stands for the [ValueError] of a
    conversion beyond the limit. *)
Definition model_post_init (d : DealItem.t) : option DealItem.t :=
  price_formatted ←
    match DealItem.price_formatted d with
    | None => Some <$> Py.format_commas max_str_digits (DealItem.price d)
    | Some p => Some (Some p)
    end;
  display_name ←
    match DealItem.display_name d with
    | Some n => Some (Some n)
    | None =>
        let grade :=
          match DealItem.grade d with
          | Some g => if decide (g = "") then "" else "[" +:+ g +:+ "]"
          | None => ""
          end in
        refine ←
          match DealItem.refine d with
          | Some r =>
              if bool_decide (0 < r)
              then (λ s, "+" +:+ s) <$> Py.str max_str_digits r
              else Some ""
          | None => Some ""
          end;
        let card_slots :=
          match DealItem.card_slots d with
          | Some c => if decide (c = "") then "" else "[" +:+ c +:+ "]"
          | None => ""
          end in
        Some (Some (grade +:+ refine +:+ DealItem.item_name d +:+ card_slots))
    end;
  Some (DealItem.mk (DealItem.server_id d) (DealItem.server_name d)
          (DealItem.item_id d) (DealItem.item_name d) display_name
          (DealItem.item_image_url d) (DealItem.refine d) (DealItem.grade d)
          (DealItem.card_slots d) (DealItem.quantity d) (DealItem.price d)
          price_formatted (DealItem.deal_type d) (DealItem.shop_name d)
          (DealItem.map_name d) (DealItem.crawled_at d)).
End PostInit.

End Models.

(** * More worked states *)

Module Worked.

(** An answer of the source with one weapon and one consumable. *)
Definition top5 : Top5Response.t :=
  Top5Response.mk 0 "" "2024-01-01"
    [TopItem.mk 1 1101 "Sword" 12 "-" (Some WEAPON)] []
    [TopItem.mk 1 501 "Red Potion" 40 "-" (Some CONSUMABLE)] [].

(** The source answers top-5 requests; every transport works. *)
Definition source_up : Routes.World :=
  Routes.mkWorld (Some top5) (λ _ _ _, []) (λ _, true).

(** A cache of the search results' TTL holding one entry. *)
Definition cache : Cache.TTLCache nat :=
  Cache.set "b" (Some 2%nat) None 0 (Cache.init 60).

(** A cache after 1997 misses, one [set] and 3 hits. *)
Definition lookups : Cache.TTLCache nat :=
  let missed := Nat.iter 1997 (λ c, (Cache.get "k" 0 c).2) (Cache.init 60) in
  Nat.iter 3 (λ c, (Cache.get "k" 1 c).2)
    (Cache.set "k" (Some 1%nat) None 0 missed).

(** A listing as the parser builds it, and as the model completes it. *)
Definition listing : DealItem.t := Samples.deal 1234567.

Definition listing_completed : DealItem.t :=
  DealItem.mk (-1) "all" None "Elder Willow Card" (Some "Elder Willow Card")
              None None None None 1 1234567 (Some "1,234,567") None "shop"
              None 0.

End Worked.

(** * Properties of the TTL cache *)

Section CacheProps.
Context {V : Type}.
Implicit Types (c : Cache.TTLCache V) (k : string) (v : option V).

Lemma timedelta_eq_0 s : timedelta s = 0 ↔ s = 0.
Proof. unfold timedelta. lia. Qed.


Lemma py_or_falsy d : py_or (Some 0) d = d ∧ py_or None d = d.
Proof. done. Qed.

Lemma py_or_truthy t d : t ≠ 0 → py_or (Some t) d = t.
Proof. intros Ht. simpl. by destruct (decide (t = 0)). Qed.

(** The entry [set] leaves under its key. *)
Lemma set_lookup k v ttl now c :
  Cache._cache (Cache.set k v ttl now c) !! k
  = Some (Cache.mkEntry v
            (now + timedelta (py_or ttl (Cache._default_ttl c))) now).
Proof. unfold Cache.set. simpl. by rewrite lookup_insert_eq. Qed.

Lemma set_lookup_ne k k' v ttl now c :
  k ≠ k' →
  Cache._cache (Cache.set k v ttl now c) !! k' = Cache._cache c !! k'.
Proof. intros Hne. unfold Cache.set. simpl. by rewrite lookup_insert_ne. Qed.

Lemma is_expired_false now (e : Cache.CacheEntry V) :
  Cache.is_expired now e = false ↔ now < Cache.expires_at e.
Proof.
  unfold Cache.is_expired. rewrite bool_decide_eq_false. lia.
Qed.

Lemma is_expired_true now (e : Cache.CacheEntry V) :
  Cache.is_expired now e = true ↔ Cache.expires_at e ≤ now.
Proof. unfold Cache.is_expired. by rewrite bool_decide_eq_true. Qed.

(** A read of a live entry: a hit, the map untouched. *)
Lemma get_live k now c e :
  Cache._cache c !! k = Some e →
  now < Cache.expires_at e →
  Cache.get k now c
  = (Cache.value e,
     Cache.mkCache (Cache._cache c) (Cache._default_ttl c)
                   (Cache.count_hit (Cache._stats c))).
Proof.
  intros Hk Hlive. unfold Cache.get. rewrite Hk.
  by rewrite (proj2 (is_expired_false now e) Hlive).
Qed.

(** A read of an expired entry: a miss, and the entry is evicted. *)
Lemma get_expired k now c e :
  Cache._cache c !! k = Some e →
  Cache.expires_at e ≤ now →
  Cache.get k now c
  = (None,
     Cache.mkCache (delete k (Cache._cache c)) (Cache._default_ttl c)
                   (Cache.count_miss (Cache._stats c))).
Proof.
  intros Hk Hdead. unfold Cache.get. rewrite Hk.
  by rewrite (proj2 (is_expired_true now e) Hdead).
Qed.

(** A read of an absent key: a miss, the map untouched. *)
Lemma get_absent k now c :
  Cache._cache c !! k = None →
  Cache.get k now c
  = (None,
     Cache.mkCache (Cache._cache c) (Cache._default_ttl c)
                   (Cache.count_miss (Cache._stats c))).
Proof. intros Hk. unfold Cache.get. by rewrite Hk. Qed.

(** Every read counts exactly once, as a hit or as a miss, leaves [sets]
    and the default TTL alone. *)
Lemma get_counts k now c :
  let s := Cache._stats c in
  let s' := Cache._stats (Cache.get k now c).2 in
  ((Cache.hits s' = S (Cache.hits s) ∧ Cache.misses s' = Cache.misses s)
   ∨ (Cache.hits s' = Cache.hits s ∧ Cache.misses s' = S (Cache.misses s)
      ∧ (Cache.get k now c).1 = None))
  ∧ Cache.sets s' = Cache.sets s
  ∧ Cache._default_ttl (Cache.get k now c).2 = Cache._default_ttl c.
Proof.
  unfold Cache.get. destruct (Cache._cache c !! k) as [e|]; simpl.
  - destruct (Cache.is_expired now e); simpl; auto.
  - auto.
Qed.

(** [stats] reports the three counters and the size as they are, and
    ["0.0%"] before any lookup. *)
Lemma stats_counters (format_rate : nat → nat → string) c :
  Cache.stat_hits (Cache.stats format_rate c) = Cache.hits (Cache._stats c)
  ∧ Cache.stat_misses (Cache.stats format_rate c)
    = Cache.misses (Cache._stats c)
  ∧ Cache.stat_sets (Cache.stats format_rate c) = Cache.sets (Cache._stats c)
  ∧ Cache.stat_size (Cache.stats format_rate c) = size (Cache._cache c).
Proof. done. Qed.

Lemma stats_no_lookups (format_rate : nat → nat → string) c :
  (Cache.hits (Cache._stats c) + Cache.misses (Cache._stats c) = 0)%nat →
  Cache.hit_rate (Cache.stats format_rate c) = "0.0%".
Proof.
  intros H0. unfold Cache.stats. simpl. rewrite H0.
  by destruct (decide (0 < 0)%nat); [lia|].
Qed.

(** C2 (as amended): for every key [k] and every TTL [t] other than 0,
    after [set(k, v, t)] at time [now] a [get(k)] at any time strictly
    before [now + t] returns [v] and counts a hit, leaving the map as it
    is; at or after [now + t] it returns [None], counts a miss and removes
    the entry from the map. *)
Theorem ttl_expiry k v t now c :
  t ≠ 0 →
  let c1 := Cache.set k v (Some t) now c in
  (∀ now', now' < now + timedelta t →
     Cache.get k now' c1
     = (v, Cache.mkCache (Cache._cache c1) (Cache._default_ttl c1)
                         (Cache.count_hit (Cache._stats c1))))
  ∧ (∀ now', now + timedelta t ≤ now' →
     Cache.get k now' c1
     = (None, Cache.mkCache (delete k (Cache._cache c1))
                            (Cache._default_ttl c1)
                            (Cache.count_miss (Cache._stats c1)))
     ∧ Cache._cache (Cache.get k now' c1).2 !! k = None).
Proof.
  intros Ht c1.
  pose proof (set_lookup k v (Some t) now c) as Hk.
  rewrite (py_or_truthy _ _ Ht) in Hk. fold c1 in Hk.
  split; intros now' Hnow'.
  - by rewrite (get_live _ _ _ _ Hk).
  - rewrite (get_expired _ _ _ _ Hk); [|done]. split; [done|].
    simpl. apply lookup_delete_eq.
Qed.

(** With the TTL argument absent or 0 the same holds for the default TTL
    in place of [t]. *)
Lemma ttl_expiry_default k v ttl now c :
  ttl = None ∨ ttl = Some 0 →
  let c1 := Cache.set k v ttl now c in
  let d := Cache._default_ttl c in
  (∀ now', now' < now + timedelta d →
     Cache.get k now' c1
     = (v, Cache.mkCache (Cache._cache c1) (Cache._default_ttl c1)
                         (Cache.count_hit (Cache._stats c1))))
  ∧ (∀ now', now + timedelta d ≤ now' →
     Cache.get k now' c1
     = (None, Cache.mkCache (delete k (Cache._cache c1))
                            (Cache._default_ttl c1)
                            (Cache.count_miss (Cache._stats c1)))).
Proof.
  intros Httl c1 d.
  pose proof (set_lookup k v ttl now c) as Hk.
  assert (py_or ttl (Cache._default_ttl c) = d) as Hor
    by (by destruct Httl as [-> | ->]).
  rewrite Hor in Hk. fold c1 in Hk.
  split; intros now' Hnow'.
  - by rewrite (get_live _ _ _ _ Hk).
  - by rewrite (get_expired _ _ _ _ Hk).
Qed.

End CacheProps.

(** C2 at a TTL of 60 seconds. *)
Lemma ttl_expiry_witness :
  60 ≠ 0
  ∧ let c1 := Cache.set "k" (Some 7%nat) (Some 60) 0 (Cache.init 300) in
    (∀ now', now' < 0 + timedelta 60 →
       Cache.get "k" now' c1
       = (Some 7%nat,
          Cache.mkCache (Cache._cache c1) (Cache._default_ttl c1)
                        (Cache.count_hit (Cache._stats c1))))
    ∧ (∀ now', 0 + timedelta 60 ≤ now' →
       Cache.get "k" now' c1
       = (None, Cache.mkCache (delete "k" (Cache._cache c1))
                              (Cache._default_ttl c1)
                              (Cache.count_miss (Cache._stats c1)))
       ∧ Cache._cache (Cache.get "k" now' c1).2 !! "k" = None).
Proof.
  split; [lia|].
  apply (ttl_expiry "k" (Some 7%nat) 60 0 (Cache.init 300)). lia.
Defined.

(** C2 as stated fails at a TTL of 0: on a cache with a default TTL of 60
    seconds, the entry set with TTL 0 is served, as a hit, at the very time
    of the [set] (when 0 seconds have elapsed), and stays in the map. *)
Lemma ttl_zero_still_served :
  let c1 := Cache.set "k" (Some 7%nat) (Some 0) 0 (Cache.init 60) in
  0 + timedelta 0 ≤ 0
  ∧ (Cache.get "k" 0 c1).1 = Some 7%nat
  ∧ Cache.hits (Cache._stats (Cache.get "k" 0 c1).2) = 1%nat
  ∧ Cache.misses (Cache._stats (Cache.get "k" 0 c1).2) = 0%nat
  ∧ is_Some (Cache._cache (Cache.get "k" 0 c1).2 !! "k").
Proof. vm_compute. repeat split; [discriminate | eauto]. Qed.


(** * Properties of the subscription index *)

Section IndexProps.
Import HubOps.
Implicit Types (subs : gmap string (gset string)) (id k : string).

Lemma mem_discard id subs k k' :
  mem (Hub.discard_member id subs k) k'
  = if decide (k = k') then mem subs k' ∖ {[id]} else mem subs k'.
Proof.
  unfold mem, Hub.discard_member.
  destruct (decide (k = k')) as [<-|Hne].
  - destruct (subs !! k) as [s|] eqn:Hk; simpl.
    + destruct (decide (s ∖ {[id]} = ∅)) as [He|He].
      * rewrite lookup_delete_eq. simpl. by rewrite He.
      * by rewrite lookup_insert_eq.
    + rewrite Hk. simpl. set_solver.
  - destruct (subs !! k) as [s|] eqn:Hk; [|done].
    destruct (decide (s ∖ {[id]} = ∅)).
    + by rewrite lookup_delete_ne.
    + by rewrite lookup_insert_ne.
Qed.

Lemma pruned_discard id subs k :
  pruned subs → pruned (Hub.discard_member id subs k).
Proof.
  intros Hp k' s'. unfold Hub.discard_member.
  destruct (subs !! k) as [s|] eqn:Hk; [|apply Hp].
  destruct (decide (s ∖ {[id]} = ∅)) as [He|He].
  - intros Hl. apply lookup_delete_Some in Hl as [_ Hl]. by eapply Hp.
  - intros Hl. apply lookup_insert_Some in Hl as [[_ <-]|[_ Hl]]; [done|].
    by eapply Hp.
Qed.

Lemma mem_foldl_discard id l subs k :
  mem (foldl (Hub.discard_member id) subs l) k
  = if decide (k ∈ l) then mem subs k ∖ {[id]} else mem subs k.
Proof.
  revert subs. induction l as [|a l IH]; intros subs; simpl.
  - destruct (decide (k ∈ [])) as [Hin|]; [|done].
    by apply elem_of_nil in Hin.
  - rewrite IH, mem_discard.
    destruct (decide (k ∈ l)), (decide (a = k)), (decide (k ∈ a :: l));
      set_solver.
Qed.

Lemma pruned_foldl_discard id l subs :
  pruned subs → pruned (foldl (Hub.discard_member id) subs l).
Proof.
  revert subs. induction l as [|a l IH]; intros subs Hp; simpl; [done|].
  apply IH. by apply pruned_discard.
Qed.

Lemma mem_lookup subs k s : subs !! k = Some s → mem subs k = s.
Proof. unfold mem. by intros ->. Qed.

Lemma elem_of_mem subs k id :
  id ∈ mem subs k ↔ ∃ s, subs !! k = Some s ∧ id ∈ s.
Proof.
  unfold mem. destruct (subs !! k) as [s|]; simpl.
  - split; [eauto|]. by intros (s' & [= <-] & ?).
  - split; [set_solver|]. by intros (s' & ? & ?).
Qed.

(** A pruned index is determined by its member sets. *)
Lemma pruned_ext subs1 subs2 :
  pruned subs1 → pruned subs2 →
  (∀ k, mem subs1 k = mem subs2 k) → subs1 = subs2.
Proof.
  intros H1 H2 Hm. apply map_eq. intros k. specialize (Hm k).
  unfold mem in Hm.
  destruct (subs1 !! k) as [s1|] eqn:E1, (subs2 !! k) as [s2|] eqn:E2;
    simpl in Hm; subst; try done.
  - by apply H1 in E1.
  - by apply H2 in E2.
Qed.
End IndexProps.

(** * Properties of the hub's operations *)

Section HubProps.
Import HubOps.
Implicit Types (m : Hub.ConnectionManager) (id k : string).

Lemma consistent_init : consistent Hub.init.
Proof. by split. Qed.

(** ** disconnect *)

Lemma disconnect_connections id m :
  Hub._connections (Hub.disconnect id m) = delete id (Hub._connections m).
Proof.
  unfold Hub.disconnect, Hub._disconnect_client.
  destruct (Hub._connections m !! id) eqn:Hid; [done|].
  symmetry. by apply delete_id.
Qed.

Lemma disconnect_message_count id m :
  Hub._message_count (Hub.disconnect id m) = Hub._message_count m.
Proof.
  unfold Hub.disconnect, Hub._disconnect_client.
  by destruct (Hub._connections m !! id).
Qed.

Lemma disconnect_unknown id m :
  Hub._connections m !! id = None → Hub.disconnect id m = m.
Proof.
  intros Hid. unfold Hub.disconnect, Hub._disconnect_client. by rewrite Hid.
Qed.

(** What [_disconnect_client] does to the index of any manager: the id
    leaves the entries of the connection's own keys. *)
Lemma disconnect_members_own id m c k :
  Hub._connections m !! id = Some c →
  members (Hub.disconnect id m) k
  = if decide (k ∈ Hub.subscriptions c) then members m k ∖ {[id]}
    else members m k.
Proof.
  intros Hid. unfold members, Hub.disconnect, Hub._disconnect_client.
  rewrite Hid. simpl. rewrite mem_foldl_discard.
  destruct (decide (k ∈ elements (Hub.subscriptions c))) as [Hin|Hin],
           (decide (k ∈ Hub.subscriptions c)) as [Hin'|Hin'];
    try done; by apply elem_of_elements in Hin || (apply elem_of_elements in Hin').
Qed.

Lemma disconnect_pruned id m :
  pruned (Hub._subscriptions m) →
  pruned (Hub._subscriptions (Hub.disconnect id m)).
Proof.
  intros Hp. unfold Hub.disconnect, Hub._disconnect_client.
  destruct (Hub._connections m !! id); [|done].
  simpl. by apply pruned_foldl_discard.
Qed.

(** On a consistent manager the id leaves every entry of the index. *)
Lemma disconnect_members id m k :
  consistent m →
  members (Hub.disconnect id m) k = members m k ∖ {[id]}.
Proof.
  intros Hc. destruct (Hub._connections m !! id) as [c|] eqn:Hid.
  - rewrite (disconnect_members_own _ _ _ _ Hid).
    destruct (decide (k ∈ Hub.subscriptions c)) as [|Hk]; [done|].
    rewrite (own_iff_index _ Hc _ _ k Hid) in Hk. set_solver.
  - rewrite (disconnect_unknown _ _ Hid).
    assert (id ∉ members m k); [|set_solver].
    intros Hin. apply (members_registered _ Hc) in Hin as [c Hc'].
    congruence.
Qed.

Lemma disconnect_consistent id m :
  consistent m → consistent (Hub.disconnect id m).
Proof.
  intros Hc. split.
  - intros id' c. rewrite disconnect_connections.
    intros [_ Hl]%lookup_delete_Some. by eapply keyed_by_id.
  - intros id' c k. rewrite disconnect_connections.
    intros [Hne Hl]%lookup_delete_Some.
    rewrite (disconnect_members _ _ _ Hc), (own_iff_index _ Hc _ _ k Hl).
    set_solver.
  - intros id' k. rewrite (disconnect_members _ _ _ Hc).
    rewrite disconnect_connections. intros [Hin Hne]%elem_of_difference.
    rewrite lookup_delete_ne; [by eapply members_registered|].
    intros ->. by apply Hne, elem_of_singleton.
  - apply disconnect_pruned, Hc.
Qed.

(** ** The cleanup loop of the broadcasts *)

Lemma cleanup_consistent l m :
  consistent m → consistent (Hub.cleanup l m).
Proof.
  revert m. induction l as [|a l IH]; intros m Hc; simpl; [done|].
  apply IH. by apply disconnect_consistent.
Qed.

Lemma cleanup_connections l m id :
  Hub._connections (Hub.cleanup l m) !! id
  = if decide (id ∈ l) then None else Hub._connections m !! id.
Proof.
  revert m. induction l as [|a l IH]; intros m; simpl.
  - destruct (decide (id ∈ [])) as [Hin|]; [|done].
    by apply elem_of_nil in Hin.
  - rewrite IH, disconnect_connections.
    destruct (decide (id ∈ l)) as [Hl|Hl],
             (decide (id ∈ a :: l)) as [Hal|Hal]; try done.
    + exfalso. apply Hal. by right.
    + apply elem_of_cons in Hal as [->|?]; [|done].
      apply lookup_delete_eq.
    + apply lookup_delete_ne. intros ->. apply Hal. by left.
Qed.

Lemma cleanup_members l m k :
  consistent m →
  members (Hub.cleanup l m) k = members m k ∖ list_to_set l.
Proof.
  revert m. induction l as [|a l IH]; intros m Hc; simpl.
  - set_solver.
  - rewrite IH; [|by apply disconnect_consistent].
    rewrite (disconnect_members _ _ _ Hc). set_solver.
Qed.

Lemma cleanup_message_count l m :
  Hub._message_count (Hub.cleanup l m) = Hub._message_count m.
Proof.
  revert m. induction l as [|a l IH]; intros m; simpl; [done|].
  by rewrite IH, disconnect_message_count.
Qed.

Lemma add_messages_consistent n m :
  consistent m → consistent (Hub.add_messages n m).
Proof. intros [????]. by split. Qed.

(** ** connect *)

(** [connect] is [install] after [_disconnect_client]: the test
    [client_id in self._connections] only skips a call that would do
    nothing. *)
Lemma connect_manager {D : Type} send_json ws id now m :
  (Hub.connect (D:=D) send_json ws id now m).1.2
  = Hub.install (Hub.mkClient ws id now ∅) (Hub._disconnect_client id m).
Proof.
  unfold Hub.connect. simpl.
  destruct (Hub._connections m !! id) eqn:Hid; [done|].
  by rewrite <- (disconnect_unknown _ _ Hid) at 1.
Qed.

Lemma install_consistent ws id now m :
  consistent m →
  consistent (Hub.install (Hub.mkClient ws id now ∅) (Hub.disconnect id m)).
Proof.
  intros Hc. pose proof (disconnect_consistent id _ Hc) as Hc1.
  assert (Hub._connections (Hub.disconnect id m) !! id = None) as Hgone
    by (rewrite disconnect_connections; apply lookup_delete_eq).
  assert (∀ k, id ∉ members (Hub.disconnect id m) k) as Hout
    by (intros k; rewrite (disconnect_members _ _ _ Hc); set_solver).
  split; simpl.
  - intros id' c [[<- <-]|[_ Hl]]%lookup_insert_Some; [done|].
    by eapply keyed_by_id.
  - intros id' c k [[<- <-]|[Hne Hl]]%lookup_insert_Some.
    + simpl. split; [set_solver|]. intros Hin. by apply Hout in Hin.
    + apply (own_iff_index _ Hc1 _ _ k Hl).
  - intros id' k Hin. change (id' ∈ members (Hub.disconnect id m) k) in Hin.
    apply (members_registered _ Hc1) in Hin.
    destruct (decide (id = id')) as [<-|Hne].
    + rewrite lookup_insert_eq. eauto.
    + by rewrite lookup_insert_ne.
  - apply Hc1.
Qed.

(** ** subscribe *)

Variable lower : string → string.

Lemma subscribe_unknown id item srv m :
  Hub._connections m !! id = None →
  Hub.subscribe lower id item srv m = (false, m).
Proof. intros Hid. unfold Hub.subscribe. by rewrite Hid. Qed.

Lemma subscribe_result id item srv m :
  (Hub.subscribe lower id item srv m).1
  = bool_decide (is_Some (Hub._connections m !! id)).
Proof.
  unfold Hub.subscribe. by destruct (Hub._connections m !! id).
Qed.

Lemma subscribe_connections id item srv m c :
  Hub._connections m !! id = Some c →
  Hub._connections (Hub.subscribe lower id item srv m).2
  = <[id := Hub.mkClient (Hub.websocket c) (Hub.client_id c)
              (Hub.connected_at c)
              (Hub.subscriptions c ∪ {[Hub._make_sub_key lower item srv]})]>
      (Hub._connections m).
Proof. intros Hid. unfold Hub.subscribe. by rewrite Hid. Qed.

Lemma subscribe_members id item srv m k :
  is_Some (Hub._connections m !! id) →
  members (Hub.subscribe lower id item srv m).2 k
  = if decide (k = Hub._make_sub_key lower item srv)
    then members m k ∪ {[id]} else members m k.
Proof.
  intros [c Hid]. unfold members, mem, Hub.subscribe. rewrite Hid. simpl.
  set (key := Hub._make_sub_key lower item srv).
  destruct (decide (k = key)) as [->|Hne].
  - rewrite lookup_alter_eq.
    destruct (Hub._subscriptions m !! key) as [s|] eqn:Hk.
    + by rewrite Hk.
    + by rewrite lookup_insert_eq.
  - rewrite lookup_alter_ne by done.
    destruct (Hub._subscriptions m !! key); [done|].
    by rewrite lookup_insert_ne.
Qed.

Lemma subscribe_pruned id item srv m :
  pruned (Hub._subscriptions m) →
  pruned (Hub._subscriptions (Hub.subscribe lower id item srv m).2).
Proof.
  intros Hp. unfold Hub.subscribe.
  destruct (Hub._connections m !! id) as [c|]; [|done]. simpl.
  set (key := Hub._make_sub_key lower item srv).
  intros k s. destruct (decide (k = key)) as [->|Hne].
  - rewrite lookup_alter_eq.
    destruct (_ !! key) as [s0|]; simpl; [|done].
    intros [= <-]. set_solver.
  - rewrite lookup_alter_ne by done.
    destruct (Hub._subscriptions m !! key); [apply Hp|].
    rewrite lookup_insert_ne by done. apply Hp.
Qed.

Lemma subscribe_message_count id item srv m :
  Hub._message_count (Hub.subscribe lower id item srv m).2
  = Hub._message_count m.
Proof.
  unfold Hub.subscribe. by destruct (Hub._connections m !! id).
Qed.

Lemma subscribe_consistent id item srv m :
  consistent m → consistent (Hub.subscribe lower id item srv m).2.
Proof.
  intros Hc. destruct (Hub._connections m !! id) as [c|] eqn:Hid;
    [|by rewrite subscribe_unknown].
  assert (is_Some (Hub._connections m !! id)) as Hreg by eauto.
  split.
  - intros id' c'. rewrite (subscribe_connections _ _ _ _ _ Hid).
    intros [[<- <-]|[_ Hl]]%lookup_insert_Some; simpl;
      by eapply keyed_by_id.
  - intros id' c' k. rewrite (subscribe_connections _ _ _ _ _ Hid).
    rewrite (subscribe_members _ _ _ _ _ Hreg).
    intros [[<- <-]|[Hne Hl]]%lookup_insert_Some; simpl.
    + pose proof (own_iff_index _ Hc _ _ k Hid).
      destruct (decide (k = _)); set_solver.
    + pose proof (own_iff_index _ Hc _ _ k Hl).
      destruct (decide (k = _)); set_solver.
  - intros id' k. rewrite (subscribe_connections _ _ _ _ _ Hid).
    rewrite (subscribe_members _ _ _ _ _ Hreg).
    destruct (decide (id = id')) as [<-|Hne].
    + rewrite lookup_insert_eq. eauto.
    + rewrite lookup_insert_ne by done. intros Hin.
      apply (members_registered _ Hc id' k).
      destruct (decide (k = _)); set_solver.
  - apply subscribe_pruned, Hc.
Qed.

(** ** unsubscribe *)

Lemma unsubscribe_unknown id item srv m :
  Hub._connections m !! id = None →
  Hub.unsubscribe lower id item srv m = (false, m).
Proof. intros Hid. unfold Hub.unsubscribe. by rewrite Hid. Qed.

Lemma unsubscribe_result id item srv m :
  (Hub.unsubscribe lower id item srv m).1
  = bool_decide (is_Some (Hub._connections m !! id)).
Proof.
  unfold Hub.unsubscribe. by destruct (Hub._connections m !! id).
Qed.

Lemma unsubscribe_connections id item srv m c :
  Hub._connections m !! id = Some c →
  Hub._connections (Hub.unsubscribe lower id item srv m).2
  = <[id := Hub.mkClient (Hub.websocket c) (Hub.client_id c)
              (Hub.connected_at c)
              (Hub.subscriptions c ∖ {[Hub._make_sub_key lower item srv]})]>
      (Hub._connections m).
Proof. intros Hid. unfold Hub.unsubscribe. by rewrite Hid. Qed.

Lemma unsubscribe_members id item srv m k :
  is_Some (Hub._connections m !! id) →
  members (Hub.unsubscribe lower id item srv m).2 k
  = if decide (k = Hub._make_sub_key lower item srv)
    then members m k ∖ {[id]} else members m k.
Proof.
  intros [c Hid]. unfold members, Hub.unsubscribe. rewrite Hid. simpl.
  rewrite mem_discard.
  by destruct (decide (_ = k)), (decide (k = _)).
Qed.

Lemma unsubscribe_pruned id item srv m :
  pruned (Hub._subscriptions m) →
  pruned (Hub._subscriptions (Hub.unsubscribe lower id item srv m).2).
Proof.
  intros Hp. unfold Hub.unsubscribe.
  destruct (Hub._connections m !! id) as [c|]; [|done]. simpl.
  by apply pruned_discard.
Qed.

Lemma unsubscribe_consistent id item srv m :
  consistent m → consistent (Hub.unsubscribe lower id item srv m).2.
Proof.
  intros Hc. destruct (Hub._connections m !! id) as [c|] eqn:Hid;
    [|by rewrite unsubscribe_unknown].
  assert (is_Some (Hub._connections m !! id)) as Hreg by eauto.
  split.
  - intros id' c'. rewrite (unsubscribe_connections _ _ _ _ _ Hid).
    intros [[<- <-]|[_ Hl]]%lookup_insert_Some; simpl;
      by eapply keyed_by_id.
  - intros id' c' k. rewrite (unsubscribe_connections _ _ _ _ _ Hid).
    rewrite (unsubscribe_members _ _ _ _ _ Hreg).
    intros [[<- <-]|[Hne Hl]]%lookup_insert_Some; simpl.
    + pose proof (own_iff_index _ Hc _ _ k Hid).
      destruct (decide (k = _)); set_solver.
    + pose proof (own_iff_index _ Hc _ _ k Hl).
      destruct (decide (k = _)); set_solver.
  - intros id' k. rewrite (unsubscribe_connections _ _ _ _ _ Hid).
    rewrite (unsubscribe_members _ _ _ _ _ Hreg).
    destruct (decide (id = id')) as [<-|Hne].
    + rewrite lookup_insert_eq. eauto.
    + rewrite lookup_insert_ne by done. intros Hin.
      apply (members_registered _ Hc id' k).
      destruct (decide (k = _)); set_solver.
  - apply unsubscribe_pruned, Hc.
Qed.
End HubProps.

(** * The send loops of the two broadcasts *)

Section SendLoops.
Import HubOps.
Context {D : Type}.
Variable send_json : Hub.WebSocket → bool.
Implicit Types (m : Hub.ConnectionManager) (id k : string)
  (message : Hub.Message D) (acc : Hub.Tally (D:=D))
  (targets : list (string * Hub.ClientConnection)).

(** A send loop over (id, connection) pairs: what it counts, whom it
    marks as failed and what it puts on the wire. *)
Lemma deliver_loop message targets acc :
  let r := foldl (λ acc p, Hub.deliver send_json message acc p.2 p.1)
             acc targets in
  Hub.sent_count r
  = (Hub.sent_count acc
     + length (filter (λ p, send_json (Hub.websocket p.2) = true) targets))%nat
  ∧ Hub.failed_clients r
    = Hub.failed_clients acc
      ++ (filter (λ p, send_json (Hub.websocket p.2) = false) targets).*1
  ∧ Hub.outbox r
    = Hub.outbox acc
      ++ ((λ p, Hub.mkSent p.1 (Hub.websocket p.2) message
                  (send_json (Hub.websocket p.2))) <$> targets).
Proof.
  revert acc. induction targets as [|[id c] targets IH]; intros acc; simpl.
  - rewrite !app_nil_r. by rewrite Nat.add_0_r.
  - destruct (IH (Hub.deliver send_json message acc c id)) as (Hn & Hf & Ho).
    rewrite Hn, Hf, Ho. clear IH Hn Hf Ho.
    unfold Hub.deliver, Hub.send. rewrite !filter_cons. simpl.
    destruct (send_json (Hub.websocket c)) eqn:Hs; simpl;
      rewrite <- ?app_assoc; (split; [lia|done]).
Qed.

(** The loop of [broadcast_item_update] is a send loop over the notified
    ids that are registered. *)
Lemma item_loop message m (ids : list string) acc :
  foldl (λ acc id,
           match Hub._connections m !! id with
           | Some client => Hub.deliver send_json message acc client id
           | None => acc
           end) acc ids
  = foldl (λ acc p, Hub.deliver send_json message acc p.2 p.1) acc
      (omap (λ id, (id,.) <$> Hub._connections m !! id) ids).
Proof.
  revert acc. induction ids as [|id ids IH]; intros acc; simpl; [done|].
  destruct (Hub._connections m !! id) as [c|]; simpl; by rewrite IH.
Qed.

(** The loop of [broadcast_all] is a send loop over the registry. *)
Lemma all_loop message (clients : list Hub.ClientConnection) acc :
  foldl (λ acc client,
           Hub.deliver send_json message acc client (Hub.client_id client))
        acc clients
  = foldl (λ acc p, Hub.deliver send_json message acc p.2 p.1) acc
      ((λ c, (Hub.client_id c, c)) <$> clients).
Proof.
  revert acc. induction clients as [|c clients IH]; intros acc; simpl;
    [done|]. by rewrite IH.
Qed.

(** The registered ones among a list of ids, when all are registered. *)
Lemma registered_targets m (ids : list string) :
  (∀ id, id ∈ ids → is_Some (Hub._connections m !! id)) →
  (omap (λ id, (id,.) <$> Hub._connections m !! id) ids).*1 = ids.
Proof.
  induction ids as [|id ids IH]; intros Hreg; simpl; [done|].
  destruct (Hreg id) as [c Hc]; [by left|]. rewrite Hc. simpl.
  f_equal. apply IH. intros id' Hin. apply Hreg. by right.
Qed.

Lemma elem_of_registered_targets m (ids : list string) id c :
  (id, c) ∈ omap (λ id, (id,.) <$> Hub._connections m !! id) ids
  ↔ id ∈ ids ∧ Hub._connections m !! id = Some c.
Proof.
  rewrite list_elem_of_omap. split.
  - intros (id' & Hin & Hl).
    destruct (Hub._connections m !! id') as [c'|] eqn:Hc; [|done].
    simpl in Hl. by injection Hl as <- <-.
  - intros [Hin Hc]. exists id. split; [done|]. by rewrite Hc.
Qed.

(** The pairs [broadcast_all] sends to, on a registry keyed by id. *)
Lemma all_targets m :
  (∀ id c, Hub._connections m !! id = Some c → Hub.client_id c = id) →
  (λ c, (Hub.client_id c, c)) <$> (map_to_list (Hub._connections m)).*2
  = map_to_list (Hub._connections m).
Proof.
  intros Hkey. rewrite <- list_fmap_compose.
  rewrite <- (list_fmap_id (map_to_list (Hub._connections m))) at 2.
  apply list_fmap_ext. intros i [id c] Hl. simpl.
  apply list_elem_of_lookup_2, elem_of_map_to_list in Hl.
  by rewrite (Hkey _ _ Hl).
Qed.
Lemma NoDup_failed (P : string * Hub.ClientConnection → Prop)
    `{∀ p, Decision (P p)} targets :
  NoDup targets.*1 → NoDup (filter P targets).*1.
Proof.
  induction targets as [|p targets IH]; simpl; [done|].
  intros [Hnotin Hnd]%NoDup_cons. rewrite filter_cons.
  destruct (decide (P p)); [|by apply IH].
  simpl. apply NoDup_cons. split; [|by apply IH].
  intros (q & Heq & [_ Hq]%list_elem_of_filter)%list_elem_of_fmap.
  apply Hnotin. rewrite Heq. by apply list_elem_of_fmap_2.
Qed.

Lemma length_filter_events message (b : bool) targets :
  length (filter (λ ev : Hub.Sent D, Hub.ok ev = b)
            ((λ p, Hub.mkSent p.1 (Hub.websocket p.2) message
                     (send_json (Hub.websocket p.2))) <$> targets))
  = length (filter (λ p, send_json (Hub.websocket p.2) = b) targets).
Proof.
  induction targets as [|p targets IH]; [done|].
  rewrite fmap_cons, !filter_cons. cbn beta iota delta [Hub.ok].
  destruct (decide (send_json (Hub.websocket p.2) = b));
    rewrite ?length_cons; by rewrite IH.
Qed.

(** A broadcast over distinct registered targets, on a consistent
    manager: every target is sent the message once, the outcome of each
    send is that of its own transport, the count is the number of
    successful sends, and the connections whose send failed are evicted
    while the others stay. *)
Lemma send_and_cleanup message targets m :
  consistent m →
  NoDup targets.*1 →
  (∀ id c, (id, c) ∈ targets → Hub._connections m !! id = Some c) →
  let acc := foldl (λ acc p, Hub.deliver send_json message acc p.2 p.1)
               (Hub.mkTally 0 [] []) targets in
  let m' := Hub.add_messages (Hub.sent_count acc)
              (Hub.cleanup (Hub.failed_clients acc) m) in
  Hub.outbox acc
  = (λ p, Hub.mkSent p.1 (Hub.websocket p.2) message
            (send_json (Hub.websocket p.2))) <$> targets
  ∧ Hub.sent_count acc
    = length (filter (λ ev, Hub.ok ev = true) (Hub.outbox acc))
  ∧ evicted m m' (Hub.outbox acc)
  ∧ consistent m'
  ∧ Hub._message_count m'
    = (Hub._message_count m + Hub.sent_count acc)%nat.
Proof.
  intros Hc Hnd Hreg acc m'.
  destruct (deliver_loop message targets (Hub.mkTally 0 [] []))
    as (Hn & Hf & Ho).
  fold acc in Hn, Hf, Ho. simpl in Hn, Hf, Ho.
  set (failed := Hub.failed_clients acc) in *.
  assert (∀ id, id ∈ failed ↔
            ∃ ev, ev ∈ Hub.outbox acc ∧ Hub.to ev = id ∧ Hub.ok ev = false)
    as Hfailed.
  { intros id. rewrite Hf, Ho. split.
    - intros ([id' c] & -> & [Hs Hin]%list_elem_of_filter)%list_elem_of_fmap.
      simpl in *. eexists. split; [by apply list_elem_of_fmap_2|]. done.
    - intros (ev & ([id' c] & -> & Hin)%list_elem_of_fmap & <- & Hs).
      simpl in *. apply list_elem_of_fmap. exists (id', c).
      split; [done|]. by apply list_elem_of_filter. }
  assert (∀ id, Hub._connections m' !! id
                = if decide (id ∈ failed) then None
                  else Hub._connections m !! id) as Hconn.
  { intros id. unfold m'. simpl. apply cleanup_connections. }
  assert (∀ k, members m' k = members m k ∖ list_to_set failed) as Hmem.
  { intros k. unfold m'. by rewrite <- (cleanup_members failed m k Hc). }
  split; [done|]. split.
  { rewrite Hn, Ho. by rewrite length_filter_events. }
  split; [|split].
  - split; [|split].
    + intros ev Hin Hs.
      assert (Hub.to ev ∈ failed) as Hev by (apply Hfailed; eauto).
      split.
      * rewrite Hconn. by rewrite decide_True.
      * intros k. rewrite Hmem. set_solver.
    + intros id Hok.
      assert (id ∉ failed) as Hev.
      { intros (ev & Hin & Hto & Hs)%Hfailed.
        rewrite (Hok ev Hin Hto) in Hs. done. }
      split.
      * rewrite Hconn. by rewrite decide_False.
      * intros k. rewrite Hmem. set_solver.
    + unfold Hub.connection_count.
      rewrite <- !(size_dom (D:=gset string)).
      assert (dom (Hub._connections m')
              = dom (Hub._connections m) ∖ list_to_set failed) as ->.
      { apply set_eq. intros id.
        rewrite elem_of_difference, !elem_of_dom, Hconn, elem_of_list_to_set.
        destruct (decide (id ∈ failed)); [|naive_solver].
        split; [by intros [? ?]|naive_solver]. }
      rewrite size_difference.
      * rewrite size_list_to_set.
        -- rewrite Ho, length_filter_events.
           by rewrite Hf, length_fmap.
        -- rewrite Hf. by apply NoDup_failed.
      * intros id. rewrite elem_of_list_to_set. rewrite Hf.
        intros ([id' c] & -> & [_ Hin]%list_elem_of_filter)%list_elem_of_fmap.
        apply elem_of_dom. simpl. rewrite (Hreg _ _ Hin). eauto.
  - by apply add_messages_consistent, cleanup_consistent.
  - unfold m'. simpl. by rewrite cleanup_message_count.
Qed.
End SendLoops.

Section NotifiedSet.
Import HubOps.
Variable lower : string → string.
Implicit Types (m : Hub.ConnectionManager).

(** The set collected by [broadcast_item_update]. *)
Lemma notified_clients_union item srv m :
  Hub.notified_clients lower item srv m
  = members m (Hub._make_sub_key lower item srv)
    ∪ members m (Hub._make_sub_key lower item (-1)).
Proof.
  unfold Hub.notified_clients, members, mem. simpl.
  destruct (Hub._subscriptions m !! Hub._make_sub_key lower item srv),
           (Hub._subscriptions m !! Hub._make_sub_key lower item (-1));
    simpl; set_solver.
Qed.
End NotifiedSet.

(** * The hub: the claims *)

Section Reconnect.
Import HubOps.
Context {D : Type}.
Implicit Types (m : Hub.ConnectionManager) (id k : string).

(** C7: on a consistent hub, [connect] with an id that is registered runs
    [_disconnect_client] first and installs the new connection on the
    result: after the teardown the id is out of the registry and out of
    every entry of the index, with the entries left empty pruned; after
    [connect] the registry holds the new connection under the id, with an
    empty subscription set, the id is a member of no entry, the other
    connections are untouched and the registry has as many entries as
    before. *)
Theorem reconnect_replaces send_json ws id now m old :
  consistent m →
  Hub._connections m !! id = Some old →
  let torn := Hub._disconnect_client id m in
  let r := Hub.connect (D:=D) send_json ws id now m in
  let fresh := Hub.mkClient ws id now ∅ in
  r.1.2 = Hub.install fresh torn
  ∧ Hub._connections torn !! id = None
  ∧ (∀ k, members torn k = members m k ∖ {[id]})
  ∧ pruned (Hub._subscriptions torn)
  ∧ r.1.1 = fresh
  ∧ Hub._connections r.1.2 !! id = Some fresh
  ∧ (∀ k, id ∉ members r.1.2 k)
  ∧ (∀ k, members r.1.2 k = members m k ∖ {[id]})
  ∧ (∀ id', id' ≠ id →
       Hub._connections r.1.2 !! id' = Hub._connections m !! id')
  ∧ size (Hub._connections r.1.2) = size (Hub._connections m)
  ∧ consistent r.1.2.
Proof.
  intros Hc Hid torn r fresh.
  assert (r.1.2 = Hub.install fresh torn) as Hr by apply connect_manager.
  assert (∀ k, members torn k = members m k ∖ {[id]}) as Hmem
    by (intros k; by apply disconnect_members).
  assert (Hub._connections torn = delete id (Hub._connections m)) as Hconn
    by apply disconnect_connections.
  assert (consistent r.1.2) as Hcr
    by (rewrite Hr; by apply install_consistent).
  split; [done|]. revert Hcr. rewrite Hr. simpl. rewrite Hconn. intros Hcr.
  split; [apply lookup_delete_eq|]. split; [done|].
  split; [by apply disconnect_pruned, Hc|].
  split; [done|]. split; [apply lookup_insert_eq|].
  split; [intros k; change (id ∉ members torn k); rewrite Hmem; set_solver|].
  split; [done|]. split; [|split].
  - intros id' Hne. rewrite lookup_insert_ne by done.
    by rewrite lookup_delete_ne.
  - rewrite insert_delete_eq. apply map_size_insert_Some. eauto.
  - done.
Qed.
End Reconnect.

Section HubTheorems.
Import HubOps.
Variable lower : string → string.
Context {D : Type}.
Implicit Types (m : Hub.ConnectionManager) (id k : string).

(** Every operation keeps the manager consistent. *)
Lemma run_consistent (op : Op (D:=D)) m :
  consistent m → consistent (run lower op m).
Proof.
  intros Hc. destruct op as [sj ws id now|id|id item srv|id item srv
                            |sj item srv data now|sj message]; cbn [run].
  - rewrite connect_manager. by apply install_consistent.
  - by apply disconnect_consistent.
  - by apply subscribe_consistent.
  - by apply unsubscribe_consistent.
  - by apply add_messages_consistent, cleanup_consistent.
  - by apply add_messages_consistent, cleanup_consistent.
Qed.

(** The pairs the two broadcasts send to. *)
Lemma item_targets item srv m :
  consistent m →
  let targets :=
    omap (λ id, (id,.) <$> Hub._connections m !! id)
         (elements (Hub.notified_clients lower item srv m)) in
  targets.*1 = elements (Hub.notified_clients lower item srv m)
  ∧ NoDup targets.*1
  ∧ (∀ id c, (id, c) ∈ targets → Hub._connections m !! id = Some c).
Proof.
  intros Hc targets.
  assert (targets.*1 = elements (Hub.notified_clients lower item srv m))
    as Hfst.
  { apply registered_targets. intros id Hin%elem_of_elements.
    rewrite notified_clients_union in Hin.
    apply elem_of_union in Hin as [Hin|Hin];
      by eapply members_registered. }
  split; [done|]. split.
  - rewrite Hfst. apply NoDup_elements.
  - intros id c Hin. by apply elem_of_registered_targets in Hin as [_ ?].
Qed.

Lemma registry_targets m :
  NoDup (map_to_list (Hub._connections m)).*1
  ∧ (∀ id c, (id, c) ∈ map_to_list (Hub._connections m) →
       Hub._connections m !! id = Some c).
Proof.
  split; [apply NoDup_fst_map_to_list|].
  intros id c. by rewrite elem_of_map_to_list.
Qed.

(** C4: in every state of the hub reached through connect, disconnect,
    subscribe and unsubscribe (and the two broadcasts), a key is in a
    registered connection's own subscription set iff the connection's id
    is a member of that key's entry in the index; no key of the index
    maps to an empty set; and every member of an entry is registered
    under its own id. *)
Theorem index_consistency m :
  reachable (D:=D) lower m →
  (∀ id c k,
     Hub._connections m !! id = Some c →
     (k ∈ Hub.subscriptions c
      ↔ ∃ s, Hub._subscriptions m !! k = Some s ∧ id ∈ s))
  ∧ (∀ k s, Hub._subscriptions m !! k = Some s → s ≠ ∅)
  ∧ (∀ k s id,
       Hub._subscriptions m !! k = Some s → id ∈ s →
       ∃ c, Hub._connections m !! id = Some c ∧ Hub.client_id c = id).
Proof.
  intros Hreach.
  assert (consistent m) as Hc.
  { induction Hreach as [|op m _ IH]; [apply consistent_init|].
    by apply run_consistent. }
  split; [|split].
  - intros id c k Hid. rewrite (own_iff_index _ Hc _ _ k Hid).
    apply elem_of_mem.
  - apply Hc.
  - intros k s id Hk Hin.
    destruct (members_registered _ Hc id k) as [c Hid].
    { apply elem_of_mem. eauto. }
    exists c. split; [done|]. by eapply keyed_by_id.
Qed.


(** C6: on a consistent hub, after either broadcast every connection
    whose send failed is out of the registry, out of every entry of the
    index and out of the connection count; every connection the
    broadcast is for is sent the message whatever happens to the others,
    and the connections whose send did not fail stay as they were. *)
Theorem dead_connections_evicted send_json m :
  consistent m →
  (∀ item srv (data : D) now,
     let r := Hub.broadcast_item_update lower send_json item srv data now m in
     evicted m r.1.2 r.2
     ∧ ∀ id c,
         id ∈ members m (Hub._make_sub_key lower item srv)
              ∪ members m (Hub._make_sub_key lower item (-1)) →
         Hub._connections m !! id = Some c →
         Hub.mkSent id (Hub.websocket c)
           (Hub.MsgItemUpdate item srv data now)
           (send_json (Hub.websocket c)) ∈ r.2)
  ∧ (∀ message : Hub.Message D,
       let r := Hub.broadcast_all send_json message m in
       evicted m r.1.2 r.2
       ∧ ∀ id c,
           Hub._connections m !! id = Some c →
           Hub.mkSent id (Hub.websocket c) message
             (send_json (Hub.websocket c)) ∈ r.2).
Proof.
  intros Hc. split.
  - intros item srv data now r. subst r.
    unfold Hub.broadcast_item_update. rewrite item_loop. cbn [fst snd].
    destruct (item_targets item srv m Hc) as (Hfst & Hnd & Hreg).
    destruct (send_and_cleanup send_json
                (Hub.MsgItemUpdate item srv data now) _ m Hc Hnd Hreg)
      as (Ho & _ & Hev & _).
    split; [done|].
    intros id c Hin Hid. rewrite Ho.
    apply (list_elem_of_fmap_2
             (λ p, Hub.mkSent p.1 (Hub.websocket p.2)
                     (Hub.MsgItemUpdate item srv data now)
                     (send_json (Hub.websocket p.2))) _ (id, c)).
    apply elem_of_registered_targets. split; [|done].
    by rewrite elem_of_elements, notified_clients_union.
  - intros message r. subst r. unfold Hub.broadcast_all.
    rewrite all_loop, (all_targets m (keyed_by_id _ Hc)). cbn [fst snd].
    destruct (registry_targets m) as (Hnd & Hreg).
    destruct (send_and_cleanup send_json message _ m Hc Hnd Hreg)
      as (Ho & _ & Hev & _).
    split; [done|].
    intros id c Hid. rewrite Ho.
    apply (list_elem_of_fmap_2
             (λ p, Hub.mkSent p.1 (Hub.websocket p.2) message
                     (send_json (Hub.websocket p.2))) _ (id, c)).
    by apply elem_of_map_to_list.
Qed.

(** C8: subscribing twice to a key leaves the hub exactly as subscribing
    once does; for a registered id both calls return true, the index
    entry of the key gains the id (one more member if it was not one) and
    the connection's set gains the key, and one [unsubscribe] takes the
    id out of the entry and the key out of the connection's set; for an
    id that is not registered [subscribe] and [unsubscribe] return false
    and leave the hub unchanged, and they return false in no other
    case. *)
Theorem subscribe_idempotent id item srv m :
  let key := Hub._make_sub_key lower item srv in
  let once := Hub.subscribe lower id item srv m in
  let twice := Hub.subscribe lower id item srv once.2 in
  let undone := Hub.unsubscribe lower id item srv twice.2 in
  twice = once
  ∧ (is_Some (Hub._connections m !! id) →
     once.1 = true
     ∧ (Hub.unsubscribe lower id item srv m).1 = true
     ∧ members twice.2 key = members m key ∪ {[id]}
     ∧ (id ∉ members m key →
        size (members twice.2 key) = S (size (members m key)))
     ∧ (∃ c c', Hub._connections m !! id = Some c
                ∧ Hub._connections twice.2 !! id = Some c'
                ∧ Hub.subscriptions c' = Hub.subscriptions c ∪ {[key]})
     ∧ undone.1 = true
     ∧ (id ∉ members undone.2 key)
     ∧ (∃ c, Hub._connections undone.2 !! id = Some c
             ∧ key ∉ Hub.subscriptions c))
  ∧ (Hub._connections m !! id = None →
     once = (false, m)
     ∧ Hub.unsubscribe lower id item srv m = (false, m))
  ∧ ((once.1 = false) ↔ Hub._connections m !! id = None)
  ∧ ((Hub.unsubscribe lower id item srv m).1 = false
     ↔ Hub._connections m !! id = None).
Proof.
  intros key once twice undone.
  assert (twice = once) as Htwice.
  { subst twice once. unfold Hub.subscribe. fold key.
    destruct (Hub._connections m !! id) as [c|] eqn:Hid; simpl;
      [|by rewrite Hid].
    rewrite lookup_insert_eq. simpl. f_equal.
    rewrite insert_insert_eq. f_equal.
    - f_equal. f_equal. set_solver.
    - assert (∀ subs : gmap string (gset string),
                alter (λ s, s ∪ {[id]}) key (alter (λ s, s ∪ {[id]}) key subs)
                = alter (λ s, s ∪ {[id]}) key subs) as Hidem.
      { intros subs. apply map_eq. intros k.
        destruct (decide (k = key)) as [->|Hne].
        - rewrite !lookup_alter_eq. destruct (subs !! key); simpl; [|done].
          f_equal. set_solver.
        - by rewrite !lookup_alter_ne. }
      destruct (Hub._subscriptions m !! key) as [s|] eqn:Hk.
      + rewrite lookup_alter_eq, Hk. simpl. apply Hidem.
      + rewrite lookup_alter_eq, lookup_insert_eq. simpl. apply Hidem. }
  split; [done|]. rewrite Htwice in *. subst undone. rewrite Htwice.
  split; [|split; [|split]].
  - intros [c Hid]. assert (is_Some (Hub._connections m !! id)) by eauto.
    assert (is_Some (Hub._connections once.2 !! id)) as Hreg1.
    { subst once. rewrite (subscribe_connections _ _ _ _ _ _ Hid).
      rewrite lookup_insert_eq. eauto. }
    assert (members once.2 key = members m key ∪ {[id]}) as Hm.
    { subst once. rewrite subscribe_members by done.
      by rewrite decide_True. }
    split; [subst once; by rewrite subscribe_result, bool_decide_eq_true_2|].
    split; [by rewrite unsubscribe_result, bool_decide_eq_true_2|].
    split; [done|]. split.
    { intros Hnot. rewrite Hm, size_union by set_solver.
      rewrite size_singleton. lia. }
    split.
    { exists c. eexists. split; [done|]. subst once.
      rewrite (subscribe_connections _ _ _ _ _ _ Hid).
      by rewrite lookup_insert_eq. }
    split; [by rewrite unsubscribe_result, bool_decide_eq_true_2|].
    split.
    + rewrite unsubscribe_members by done.
      rewrite decide_True by done. set_solver.
    + destruct Hreg1 as [c1 Hc1].
      rewrite (unsubscribe_connections _ _ _ _ _ _ Hc1).
      rewrite lookup_insert_eq. eexists. split; [done|]. simpl.
      fold key. set_solver.
  - intros Hid. subst once.
    by rewrite subscribe_unknown, unsubscribe_unknown.
  - subst once. rewrite subscribe_result.
    rewrite bool_decide_eq_false, <- eq_None_not_Some. done.
  - rewrite unsubscribe_result.
    rewrite bool_decide_eq_false, <- eq_None_not_Some. done.
Qed.
End HubTheorems.

(** * The hub on the worked state *)

Lemma sample_hub_reachable :
  HubOps.reachable (D:=nat) ascii_lower Samples.hub.
Proof.
  unfold Samples.hub, Samples.ops. cbn [foldl].
  repeat apply HubOps.reachable_run. apply HubOps.reachable_init.
Qed.

Lemma sample_hub_consistent : HubOps.consistent Samples.hub.
Proof.
  unfold Samples.hub, Samples.ops. cbn [foldl].
  repeat apply run_consistent. apply consistent_init.
Qed.

Lemma sample_hub_client_a :
  Hub._connections Samples.hub !! "a" = Some Samples.client_a.
Proof. vm_compute. reflexivity. Qed.

(** An update of the item on server 2 goes to ["a"] (subscribed through
    both keys, sent once) and to ["b"] (all-servers key), not to ["c"];
    ["b"]'s transport fails, so one send is counted and ["b"] is gone from
    the registry and from the index afterwards. *)
Example broadcast_item_update_sample :
  let r := Hub.broadcast_item_update ascii_lower Samples.b_is_down
             "JELLOPY" 2 7%nat 100 Samples.hub in
  r.1.1 = 1%nat
  ∧ Hub.to <$> r.2 = ["a"; "b"]
  ∧ Hub.ok <$> r.2 = [true; false]
  ∧ (map_to_list (Hub._connections r.1.2)).*1 = ["c"; "a"]
  ∧ map_to_list (elements <$> Hub._subscriptions r.1.2)
    = [("apple:2", ["c"]); ("jellopy:-1", ["a"]); ("jellopy:2", ["a"])]
  ∧ Hub._message_count r.1.2 = 1%nat.
Proof. vm_compute. repeat split. Qed.

(** A broadcast to all reaches the three clients and evicts ["b"]. *)
Example broadcast_all_sample :
  let r := Hub.broadcast_all Samples.b_is_down (Hub.MsgTop5Update 7%nat)
             Samples.hub in
  r.1.1 = 2%nat
  ∧ Hub.to <$> r.2 = ["c"; "a"; "b"]
  ∧ Hub.ok <$> r.2 = [true; true; false]
  ∧ (map_to_list (Hub._connections r.1.2)).*1 = ["c"; "a"]
  ∧ Hub.connection_count r.1.2 = 2%nat.
Proof. vm_compute. repeat split. Qed.

(** Connecting again as ["a"] drops both subscriptions of the old ["a"]. *)
Example reconnect_sample :
  let r := Hub.connect (D:=nat) (λ _, true) 9%nat "a" 50 Samples.hub in
  elements (Hub.subscriptions r.1.1) = []
  ∧ map_to_list (elements <$> Hub._subscriptions r.1.2)
    = [("apple:2", ["c"]); ("jellopy:-1", ["b"])]
  ∧ Hub.connection_count r.1.2 = 3%nat.
Proof. vm_compute. repeat split. Qed.

(** C4 on the worked state. *)
Lemma index_consistency_witness :
  HubOps.reachable (D:=nat) ascii_lower Samples.hub
  ∧ ∀ k s, Hub._subscriptions Samples.hub !! k = Some s → s ≠ ∅.
Proof.
  split; [apply sample_hub_reachable|].
  apply (index_consistency ascii_lower (D:=nat) Samples.hub
           sample_hub_reachable).
Defined.


(** C6 on the worked state. *)
Lemma dead_connections_evicted_witness :
  HubOps.consistent Samples.hub
  ∧ let r := Hub.broadcast_all Samples.b_is_down (Hub.MsgTop5Update 7%nat)
               Samples.hub in
    HubOps.evicted Samples.hub r.1.2 r.2.
Proof.
  split; [apply sample_hub_consistent|].
  apply (dead_connections_evicted ascii_lower (D:=nat) Samples.b_is_down
           Samples.hub sample_hub_consistent).
Defined.

(** C7 on the worked state. *)
Lemma reconnect_replaces_witness :
  HubOps.consistent Samples.hub
  ∧ Hub._connections Samples.hub !! "a" = Some Samples.client_a
  ∧ (Hub.connect (D:=nat) (λ _, true) 9%nat "a" 50 Samples.hub).1.2
    = Hub.install (Hub.mkClient 9%nat "a" 50 ∅)
        (Hub._disconnect_client "a" Samples.hub).
Proof.
  split; [apply sample_hub_consistent|].
  split; [apply sample_hub_client_a|].
  apply (reconnect_replaces (D:=nat) (λ _, true) 9%nat "a" 50 Samples.hub
           Samples.client_a sample_hub_consistent sample_hub_client_a).
Defined.

(** C8 on the worked state. *)
Lemma subscribe_idempotent_witness :
  Hub.subscribe ascii_lower "b" "Jellopy" 2
    (Hub.subscribe ascii_lower "b" "Jellopy" 2 Samples.hub).2
  = Hub.subscribe ascii_lower "b" "Jellopy" 2 Samples.hub.
Proof.
  apply (subscribe_idempotent ascii_lower "b" "Jellopy" 2 Samples.hub).
Defined.

(** * The on-demand handlers *)

Section Top5Props.
Import Routes.
Variable upper : string → string.
Implicit Types (s : App) (w : World) (clk : Clock).

(** The empty snapshot is that of an empty [top_items_cache] table. *)
Lemma snapshot_empty (r : Repository.ItemRepository) :
  Repository.get_cached_top_items None r = []
  ↔ Repository.top_items_cache r = [].
Proof.
  unfold Repository.get_cached_top_items.
  pose proof (merge_sort_Permutation Repository.by_category_rank
                (Repository.top_items_cache r)) as Hp.
  split; intros He.
  - rewrite He in Hp. by apply Permutation_nil_l in Hp.
  - rewrite He in *. by apply Permutation_nil_r in Hp.
Qed.

(** [get] writes no entry: what the map holds after a read it held
    before. *)
Lemma get_writes_nothing {V} k now (c : Cache.TTLCache V) k' e :
  Cache._cache (Cache.get k now c).2 !! k' = Some e →
  Cache._cache c !! k' = Some e.
Proof.
  unfold Cache.get. destruct (Cache._cache c !! k) as [e0|]; simpl; [|done].
  destruct (Cache.is_expired now e0); simpl; [|done].
  by intros [_ ?]%lookup_delete_Some.
Qed.

(** The part of [get_top5_items] after the cache check, when the source
    has no answer. *)
Lemma refresh_top5_failure category w clk s :
  fetch_top5_items w = None →
  refresh_top5 upper category w clk s
  = (match Repository.get_cached_top_items None (repo s) with
     | [] => Raise (mkHTTPException 503 "Failed to fetch data from GNJOY")
     | _ :: _ =>
         Return (ReplyStale (Repository.get_cached_top_items None (repo s)))
     end,
     mkApp (item_cache s) (top5_cache s) (ws_manager s) (repo s)
           ((calls s ++ [CallFetchTop5]) ++ [CallGetCachedTop]) (wire s)).
Proof.
  intros Hdown. unfold refresh_top5, client_fetch_top5_items,
    repo_get_cached_top_items, bind, log, ret, raise.
  rewrite Hdown.
  cbn [fst snd item_cache top5_cache ws_manager repo calls wire].
  by destruct (Repository.get_cached_top_items None (repo s)).
Qed.

(** C1: for every top-5 request that goes to the source (the cache lookup
    returns nothing, or the refresh is forced) while the source's fetch
    returns absence: the reply is the History Store's snapshot, marked
    stale, when the snapshot is not empty, and the request fails with
    status 503 when it is (which is when the store's table is empty); in
    both cases no entry is written to the cache (it is as the lookup left
    it, or untouched when the refresh is forced), nothing is broadcast,
    the hub and the History Store are unchanged, and the only calls made
    are the fetch and the snapshot read. *)
Theorem top5_failure_falls_back category force_refresh w clk s :
  fetch_top5_items w = None →
  force_refresh = true
  ∨ (Cache.get "top5_all" (at_lookup clk) (top5_cache s)).1 = None →
  let r := get_top5_items upper category force_refresh w clk s in
  let snapshot := Repository.get_cached_top_items None (repo s) in
  (snapshot ≠ [] → r.1 = Return (ReplyStale snapshot))
  ∧ (snapshot = [] →
     r.1 = Raise (mkHTTPException 503 "Failed to fetch data from GNJOY"))
  ∧ (snapshot = [] ↔ Repository.top_items_cache (repo s) = [])
  ∧ top5_cache r.2
    = (if force_refresh then top5_cache s
       else (Cache.get "top5_all" (at_lookup clk) (top5_cache s)).2)
  ∧ Cache.sets (Cache._stats (top5_cache r.2))
    = Cache.sets (Cache._stats (top5_cache s))
  ∧ (∀ k e, Cache._cache (top5_cache r.2) !! k = Some e →
            Cache._cache (top5_cache s) !! k = Some e)
  ∧ item_cache r.2 = item_cache s
  ∧ ws_manager r.2 = ws_manager s
  ∧ wire r.2 = wire s
  ∧ repo r.2 = repo s
  ∧ calls r.2 = calls s ++ [CallFetchTop5; CallGetCachedTop].
Proof.
  intros Hdown Hmiss r snapshot.
  assert (∃ s0,
    r = refresh_top5 upper category w clk s0
    ∧ top5_cache s0
      = (if force_refresh then top5_cache s
         else (Cache.get "top5_all" (at_lookup clk) (top5_cache s)).2)
    ∧ item_cache s0 = item_cache s ∧ ws_manager s0 = ws_manager s
    ∧ repo s0 = repo s ∧ calls s0 = calls s ∧ wire s0 = wire s)
    as (s0 & Hr & Hcache & Hitem & Hhub & Hrepo & Hcalls & Hwire).
  { subst r. unfold get_top5_items.
    destruct force_refresh; [by exists s|].
    destruct Hmiss as [?|Hmiss]; [done|].
    unfold bind, top5_cache_get.
    destruct (Cache.get "top5_all" (at_lookup clk) (top5_cache s))
      as [v c] eqn:Hget.
    simpl in Hmiss. subst v. by eexists. }
  rewrite (refresh_top5_failure _ _ _ _ Hdown) in Hr.
  rewrite Hr. cbn [fst snd top5_cache item_cache ws_manager wire repo calls].
  rewrite Hrepo, Hcalls, Hwire, Hhub, Hitem, Hcache. fold snapshot.
  split; [by destruct snapshot|]. split; [by intros ->|].
  split; [apply snapshot_empty|]. split; [done|].
  split; [|split].
  - destruct force_refresh; [done|].
    by destruct (get_counts "top5_all" (at_lookup clk) (top5_cache s))
      as (_ & ? & _).
  - destruct force_refresh; [done|]. apply get_writes_nothing.
  - by rewrite <- app_assoc.
Qed.
End Top5Props.

Section SearchProps.
Import Routes.
Variable lower : string → string.
Implicit Types (s : App) (w : World) (clk : Clock).

(** The part of [search_items] after the cache check. *)
Lemma refresh_search_spec name server_id page w clk s :
  let items := search_item_deals w name server_id page in
  let n := length items in
  let data := mkSearchData items n (bool_decide (20 ≤ n)%nat) in
  let sent := Hub.broadcast_item_update lower (send_json w) name server_id
                (DataDeals items n) (at_broadcast clk) (ws_manager s) in
  let r := refresh_search lower name server_id page w clk s in
  r.1 = Return (ItemSearchResponse.mk items n page
                  (bool_decide (20 ≤ n)%nat))
  ∧ item_cache r.2
    = Cache.set (search_key lower name server_id page) (Some data) None
        (at_store clk) (item_cache s)
  ∧ top5_cache r.2 = top5_cache s
  ∧ repo r.2 = Repository.save_deal_items items (at_save clk "") (repo s)
  ∧ calls r.2
    = calls s ++ CallSearchDeals name server_id page
        :: match items with
           | [] => []
           | _ :: _ => [CallSaveDeals items;
                        CallBroadcastItem name server_id (DataDeals items n)]
           end
  ∧ ws_manager r.2
    = match items with [] => ws_manager s | _ :: _ => sent.1.2 end
  ∧ wire r.2
    = match items with [] => wire s | _ :: _ => wire s ++ sent.2 end.
Proof.
  intros items n data sent r. subst r sent data n.
  unfold refresh_search, client_search_item_deals, item_cache_set,
    repo_save_deal_items, ws_broadcast_item_update, bind, log, ret.
  cbn [fst snd item_cache top5_cache ws_manager repo calls wire].
  fold items.
  destruct items as [|i items'].
  - cbn [fst snd item_cache top5_cache ws_manager repo calls wire].
    repeat split.
  - cbn [fst snd item_cache top5_cache ws_manager repo calls wire].
    destruct (Hub.broadcast_item_update lower (send_json w) name server_id
                (DataDeals (i :: items') (length (i :: items')))
                (at_broadcast clk) (ws_manager s)) as [[k m] out].
    cbn [fst snd item_cache top5_cache ws_manager repo calls wire].
    rewrite <- !app_assoc. repeat split.
Qed.

End SearchProps.

(** * The handlers on the worked states *)

(** The source is down and the History Store holds a snapshot: the caller
    gets the snapshot, marked stale. *)
Example top5_stale_sample :
  let r := Routes.get_top5_items ascii_upper None false
             Samples.source_down_for_top5 (Samples.clock 10)
             Samples.with_snapshot in
  r.1 = Routes.Return
          (Routes.ReplyStale
             [Repository.mkRankRow 1 501 "Red Potion" "C" 1 40 0])
  ∧ Routes.calls r.2 = [Routes.CallFetchTop5; Routes.CallGetCachedTop]
  ∧ Cache.len (Routes.top5_cache r.2) = 0%nat.
Proof. vm_compute. repeat split. Qed.

(** The source is down and the History Store is empty: the request fails
    with status 503. *)
Example top5_unavailable_sample :
  (Routes.get_top5_items ascii_upper (Some "w") true
     Samples.source_down_for_top5 (Samples.clock 10) Routes.startup).1
  = Routes.Raise
      (Routes.mkHTTPException 503 "Failed to fetch data from GNJOY").
Proof. vm_compute. reflexivity. Qed.

(** A first search finds three listings; a repeat nine seconds later is
    served from the cache, with no further call. *)
Example search_sample :
  let first := Routes.search_items ascii_lower "Elder Willow Card" (-1) 1
                 false Samples.source_down_for_top5 (Samples.clock 10)
                 Routes.startup in
  let again := Routes.search_items ascii_lower "Elder Willow Card" (-1) 1
                 false Samples.source_down_for_top5 (Samples.clock 20)
                 first.2 in
  first.1 = Routes.Return
              (ItemSearchResponse.mk Samples.three_deals 3 1 false)
  ∧ again.1 = first.1
  ∧ length (Routes.calls first.2) = 3%nat
  ∧ Routes.calls again.2 = Routes.calls first.2
  ∧ length (Repository.price_history (Routes.repo first.2)) = 3%nat.
Proof. vm_compute. repeat split. Qed.

(** C1 on the worked state with a snapshot. *)
Lemma top5_failure_falls_back_witness :
  Routes.fetch_top5_items Samples.source_down_for_top5 = None
  ∧ (false = true
     ∨ (Cache.get "top5_all" (Routes.at_lookup (Samples.clock 10))
          (Routes.top5_cache Samples.with_snapshot)).1 = None)
  ∧ Routes.calls
      (Routes.get_top5_items ascii_upper None false
         Samples.source_down_for_top5 (Samples.clock 10)
         Samples.with_snapshot).2
    = Routes.calls Samples.with_snapshot
      ++ [Routes.CallFetchTop5; Routes.CallGetCachedTop].
Proof.
  assert (Routes.fetch_top5_items Samples.source_down_for_top5 = None)
    as Hdown by reflexivity.
  assert (false = true
          ∨ (Cache.get "top5_all" (Routes.at_lookup (Samples.clock 10))
               (Routes.top5_cache Samples.with_snapshot)).1 = None)
    as Hmiss by (right; reflexivity).
  split; [exact Hdown|]. split; [exact Hmiss|].
  apply (top5_failure_falls_back ascii_upper None false
           Samples.source_down_for_top5 (Samples.clock 10)
           Samples.with_snapshot Hdown Hmiss).
Defined.


(** * Rounding to binary64 *)

Section FloatRounding.
Import SpecFloat.

Lemma digits2_bounds (p : positive) :
  2 ^ (Z.pos (digits2_pos p) - 1) ≤ Z.pos p < 2 ^ Z.pos (digits2_pos p).
Proof.
  induction p as [p IH|p IH|]; cbn [digits2_pos].
  - rewrite Pos2Z.inj_succ.
    replace (Z.succ (Z.pos (digits2_pos p)) - 1)
      with (Z.succ (Z.pos (digits2_pos p) - 1)) by lia.
    rewrite !Z.pow_succ_r by lia. lia.
  - rewrite Pos2Z.inj_succ.
    replace (Z.succ (Z.pos (digits2_pos p)) - 1)
      with (Z.succ (Z.pos (digits2_pos p) - 1)) by lia.
    rewrite !Z.pow_succ_r by lia. lia.
  - simpl. lia.
Qed.

Lemma digits2_unique (z k : Z) :
  2 ^ (k - 1) ≤ z < 2 ^ k → 0 < z → Zdigits2 z = k.
Proof.
  intros [Hlo Hhi] Hpos. destruct z as [|p|p]; [lia| |lia].
  cbn [Zdigits2]. pose proof (digits2_bounds p) as [Hlo' Hhi'].
  set (d := Z.pos (digits2_pos p)) in *.
  assert (0 < d) by (unfold d; lia).
  assert (0 ≤ k).
  { destruct (decide (0 ≤ k)); [done|].
    rewrite (Z.pow_neg_r 2 k) in Hhi by lia. lia. }
  destruct (Z.lt_trichotomy d k) as [Hlt|[Heq|Hgt]]; [|done|].
  - assert (2 ^ d ≤ 2 ^ (k - 1)) by (apply Z.pow_le_mono_r; lia). lia.
  - assert (2 ^ k ≤ 2 ^ (d - 1)) by (apply Z.pow_le_mono_r; lia). lia.
Qed.

(** One shift to the right keeps the value the mantissa and the two bits
    stand for. *)
Lemma shr_1_spec m r s a b :
  0 ≤ m → PyFloat.located r s a b →
  ∃ m' r' s' a',
    shr_1 (Build_shr_record m r s) = Build_shr_record m' r' s'
    ∧ 0 ≤ m' ∧ PyFloat.located r' s' a' (2 * b)
    ∧ m' * (2 * b) + a' = m * b + a.
Proof.
  intros Hm (Hab & -> & ->).
  destruct m as [|[p|p|]|p]; [| | | |lia]; cbn [shr_1].
  - exists 0, false, (bool_decide (b ≤ 2 * a)
                      || bool_decide (a ≠ 0 ∧ 2 * a ≠ b)), a.
    split; [done|]. split; [done|]. split; [|lia].
    split; [lia|]. split.
    + symmetry. apply bool_decide_eq_false. lia.
    + repeat case_bool_decide; simpl; try done; lia.
  - exists (Z.pos p), true, (bool_decide (b ≤ 2 * a)
                             || bool_decide (a ≠ 0 ∧ 2 * a ≠ b)), (b + a).
    split; [done|]. split; [lia|]. split; [|lia].
    split; [lia|]. split.
    + symmetry. apply bool_decide_eq_true. lia.
    + repeat case_bool_decide; simpl; try done; lia.
  - exists (Z.pos p), false, (bool_decide (b ≤ 2 * a)
                              || bool_decide (a ≠ 0 ∧ 2 * a ≠ b)), a.
    split; [done|]. split; [lia|]. split; [|lia].
    split; [lia|]. split.
    + symmetry. apply bool_decide_eq_false. lia.
    + repeat case_bool_decide; simpl; try done; lia.
  - exists 0, true, (bool_decide (b ≤ 2 * a)
                     || bool_decide (a ≠ 0 ∧ 2 * a ≠ b)), (b + a).
    split; [done|]. split; [lia|]. split; [|lia].
    split; [lia|]. split.
    + symmetry. apply bool_decide_eq_true. lia.
    + repeat case_bool_decide; simpl; try done; lia.
Qed.

(** So do [n] shifts. *)
Lemma iter_shr_spec (n : positive) :
  ∀ m r s a b,
    0 ≤ m → PyFloat.located r s a b →
    ∃ m' r' s' a',
      iter_pos shr_1 n (Build_shr_record m r s) = Build_shr_record m' r' s'
      ∧ 0 ≤ m' ∧ PyFloat.located r' s' a' (2 ^ Z.pos n * b)
      ∧ m' * (2 ^ Z.pos n * b) + a' = m * b + a.
Proof.
  induction n as [n IH|n IH|]; intros m r s a b Hm Hloc; cbn [iter_pos].
  - destruct (shr_1_spec m r s a b Hm Hloc)
      as (m1 & r1 & s1 & a1 & -> & Hm1 & Hloc1 & Hv1).
    destruct (IH m1 r1 s1 a1 _ Hm1 Hloc1)
      as (m2 & r2 & s2 & a2 & -> & Hm2 & Hloc2 & Hv2).
    destruct (IH m2 r2 s2 a2 _ Hm2 Hloc2)
      as (m3 & r3 & s3 & a3 & -> & Hm3 & Hloc3 & Hv3).
    exists m3, r3, s3, a3. split; [done|]. split; [done|].
    replace (Z.pos n~1) with (Z.succ (2 * Z.pos n)) by lia.
    rewrite Z.pow_succ_r, Z.pow_twice_r by lia.
    replace (2 * (2 ^ Z.pos n * 2 ^ Z.pos n) * b)
      with (2 ^ Z.pos n * (2 ^ Z.pos n * (2 * b))) by lia.
    split; [done|]. lia.
  - destruct (IH m r s a b Hm Hloc)
      as (m2 & r2 & s2 & a2 & -> & Hm2 & Hloc2 & Hv2).
    destruct (IH m2 r2 s2 a2 _ Hm2 Hloc2)
      as (m3 & r3 & s3 & a3 & -> & Hm3 & Hloc3 & Hv3).
    exists m3, r3, s3, a3. split; [done|]. split; [done|].
    replace (Z.pos n~0) with (2 * Z.pos n) by lia.
    rewrite Z.pow_twice_r.
    replace (2 ^ Z.pos n * 2 ^ Z.pos n * b)
      with (2 ^ Z.pos n * (2 ^ Z.pos n * b)) by lia.
    split; [done|]. lia.
  - destruct (shr_1_spec m r s a b Hm Hloc)
      as (m1 & r1 & s1 & a1 & -> & Hm1 & Hloc1 & Hv1).
    exists m1, r1, s1, a1. by rewrite Z.pow_1_r.
Qed.

Lemma shr_spec m r s a b e n :
  0 ≤ m → 0 ≤ n → PyFloat.located r s a b →
  ∃ m' r' s' a',
    shr (Build_shr_record m r s) e n = (Build_shr_record m' r' s', e + n)
    ∧ 0 ≤ m' ∧ PyFloat.located r' s' a' (2 ^ n * b)
    ∧ m' * (2 ^ n * b) + a' = m * b + a.
Proof.
  intros Hm Hn Hloc. destruct n as [|n|n]; [| |lia]; cbn [shr].
  - exists m, r, s, a. rewrite Z.add_0_r, Z.pow_0_r, Z.mul_1_l. done.
  - destruct (iter_shr_spec n m r s a b Hm Hloc)
      as (m' & r' & s' & a' & -> & ?). by exists m', r', s', a'.
Qed.

(** Rounding to nearest even moves by at most half a unit. *)
Lemma round_nearest_even_spec m r s a b :
  PyFloat.located r s a b →
  let M := round_nearest_even m
             (loc_of_shr_record (Build_shr_record m r s)) in
  m ≤ M ≤ m + 1 ∧ 2 * Z.abs (M * b - (m * b + a)) ≤ b.
Proof.
  intros (Hab & -> & ->) M. subst M.
  repeat case_bool_decide; cbn [loc_of_shr_record round_nearest_even];
    try destruct (Z.even m); split; nia.
Qed.

(** What [binary_round_aux] returns for a positive number whose mantissa
    has at least 53 bits, well inside the range of exponents: a normal
    float within half a unit in the last place. [M] is the mantissa before
    a carry is normalised away. *)
Lemma binary_round_aux_spec mx ex r s a b :
  0 < mx → 53 ≤ Zdigits2 mx → -1074 ≤ ex → ex + Zdigits2 mx ≤ 1023 →
  PyFloat.located r s a b →
  let n := Zdigits2 mx - 53 in
  ∃ M mf ef,
    binary_round_aux 53 1024 false mx ex
      (loc_of_shr_record (Build_shr_record mx r s))
    = S754_finite false mf ef
    ∧ 2 ^ 52 ≤ M ≤ 2 ^ 53
    ∧ 2 ^ 52 ≤ Z.pos mf < 2 ^ 53
    ∧ 2 * Z.abs (M * (2 ^ n * b) - (mx * b + a)) ≤ 2 ^ n * b
    ∧ ((Z.pos mf = M ∧ ef = ex + n)
       ∨ (M = 2 ^ 53 ∧ Z.pos mf = 2 ^ 52 ∧ ef = ex + n + 1)).
Proof.
  intros Hmx Hd Hex Hhi Hloc n.
  assert (0 < b) as Hb by (destruct Hloc as [? _]; lia).
  assert (shr_record_of_loc mx (loc_of_shr_record (Build_shr_record mx r s))
          = Build_shr_record mx r s) as Hrec by (by destruct r, s).
  unfold binary_round_aux, shr_fexp. rewrite Hrec.
  assert (fexp 53 1024 (Zdigits2 mx + ex) - ex = n) as ->
    by (unfold fexp, emin, n; lia).
  destruct (shr_spec mx r s a b ex n ltac:(lia) ltac:(unfold n; lia) Hloc)
    as (m1 & r1 & s1 & a1 & -> & Hm1 & Hloc1 & Hv1).
  assert (0 < 2 ^ n) as Hpow by (apply Z.pow_pos_nonneg; unfold n; lia).
  set (B := 2 ^ n * b) in *.
  assert (0 < B) as HB by (unfold B; nia).
  (* the truncated mantissa has 53 bits *)
  assert (2 ^ 52 ≤ m1 < 2 ^ 53) as Hm1'.
  { destruct mx as [|p|p]; [lia| |lia].
    pose proof (digits2_bounds p) as [Hlo Hup]. cbn [Zdigits2] in *.
    set (d := Z.pos (digits2_pos p)) in *.
    replace d with (n + 53) in Hup by (unfold n; lia).
    replace (d - 1) with (n + 52) in Hlo by (unfold n; lia).
    rewrite Z.pow_add_r in Hlo, Hup by (unfold n; lia).
    destruct Hloc1 as [Ha1 _]. destruct Hloc as [Ha _].
    fold B in Ha1. unfold B in *. split; nia. }
  cbn [shr_m].
  pose proof (round_nearest_even_spec m1 r1 s1 a1 B Hloc1) as [HM Herr].
  cbv zeta in HM, Herr.
  set (M := round_nearest_even m1
              (loc_of_shr_record (Build_shr_record m1 r1 s1))) in *.
  rewrite Hv1 in Herr.
  destruct (decide (M < 2 ^ 53)) as [Hnc|Hc].
  - (* no carry *)
    assert (Zdigits2 M = 53) as HdM by (apply digits2_unique; lia).
    unfold shr_record_of_loc. rewrite HdM.
    assert (fexp 53 1024 (53 + (ex + n)) - (ex + n) = 0) as ->
      by (unfold fexp, emin, n; lia).
    cbn [shr shr_m].
    destruct M as [|mf|mf] eqn:HMeq; [lia| |lia].
    assert ((ex + n <=? 1024 - 53) = true) as ->
      by (apply Z.leb_le; unfold n; lia).
    exists (Z.pos mf), mf, (ex + n).
    split; [done|]. split; [lia|]. split; [lia|]. split; [done|].
    by left.
  - (* the rounding carried into a 54th bit *)
    assert (M = 2 ^ 53) as HMeq by lia.
    rewrite HMeq in *.
    change (2 ^ 53) with 9007199254740992 in *.
    unfold shr_record_of_loc.
    assert (fexp 53 1024 (Zdigits2 9007199254740992 + (ex + n)) - (ex + n)
            = 1) as -> by (cbn [Zdigits2 digits2_pos]; unfold fexp, emin, n; lia).
    cbn [shr iter_pos shr_1 shr_m].
    assert ((ex + n + 1 <=? 1024 - 53) = true) as ->
      by (apply Z.leb_le; unfold n; lia).
    eexists 9007199254740992, _, (ex + n + 1).
    split; [done|]. split; [lia|]. split; [lia|]. split; [done|].
    right. done.
Qed.

(** The location [SFdiv] computes for a remainder. *)
Lemma new_location_spec (m t r : Z) :
  0 ≤ r < t →
  ∃ rb sb,
    new_location t r = loc_of_shr_record (Build_shr_record m rb sb)
    ∧ PyFloat.located rb sb r t.
Proof.
  intros Hr.
  exists (bool_decide (t ≤ 2 * r)), (bool_decide (r ≠ 0 ∧ 2 * r ≠ t)).
  split; [|done].
  unfold new_location, new_location_even, new_location_odd.
  destruct (Z.even t) eqn:Hev.
  - destruct (Z.eqb_spec r 0) as [->|Hne].
    + rewrite bool_decide_eq_false_2, bool_decide_eq_false_2 by lia. done.
    + destruct (Z.compare_spec (2 * r) t);
        repeat case_bool_decide; cbn [loc_of_shr_record]; try done; lia.
  - assert (2 * r ≠ t).
    { intros <-. rewrite Z.even_mul in Hev. done. }
    destruct (Z.eqb_spec r 0) as [->|Hne].
    + rewrite bool_decide_eq_false_2, bool_decide_eq_false_2 by lia. done.
    + destruct (Z.compare_spec (2 * r + 1) t);
        repeat case_bool_decide; cbn [loc_of_shr_record]; try done; lia.
Qed.

(** [hits / total] for [0 < hits <= total < 2^40]: a normal float
    [A / 2^k] within half a unit in the last place of the quotient. *)
Lemma true_div_spec (h t : Z) :
  0 < h ≤ t → t < 2 ^ 40 →
  ∃ A k mf ef,
    PyFloat.true_div h t = S754_finite false mf ef
    ∧ 2 ^ 52 ≤ A ≤ 2 ^ 53 ∧ 52 ≤ k ≤ 93
    ∧ 2 ^ 52 ≤ Z.pos mf < 2 ^ 53
    ∧ 2 * Z.abs (A * t - h * 2 ^ k) ≤ t
    ∧ ((Z.pos mf = A ∧ ef = - k)
       ∨ (A = 2 ^ 53 ∧ Z.pos mf = 2 ^ 52 ∧ ef = - k + 1)).
Proof.
  intros Hh Ht.
  destruct h as [|ph|ph]; [lia| |lia]. destruct t as [|pt|pt]; [lia| |lia].
  unfold PyFloat.true_div, PyFloat.exact, SFdiv, SFdiv_core_binary.
  cbn [xorb Zdigits2].
  pose proof (digits2_bounds ph) as [Hlo1 Hup1].
  pose proof (digits2_bounds pt) as [Hlo2 Hup2].
  set (d1 := Z.pos (digits2_pos ph)) in *.
  set (d2 := Z.pos (digits2_pos pt)) in *.
  assert (0 < d1) by (unfold d1; lia).
  assert (d1 ≤ d2).
  { destruct (decide (d1 ≤ d2)); [done|].
    assert (2 ^ d2 ≤ 2 ^ (d1 - 1)) by (apply Z.pow_le_mono_r; lia). lia. }
  assert (d2 ≤ 40).
  { destruct (decide (d2 ≤ 40)); [done|].
    assert (2 ^ 40 ≤ 2 ^ (d2 - 1)) by (apply Z.pow_le_mono_r; lia). lia. }
  rewrite !Z.add_0_r.
  assert (Z.min (fexp PyFloat.prec PyFloat.emax (d1 - d2)) (0 - 0)
          = - (53 + d2 - d1)) as ->
    by (unfold fexp, emin, PyFloat.prec, PyFloat.emax; lia).
  set (sh := 53 + d2 - d1).
  assert (0 - 0 - - sh = sh) as -> by lia.
  assert (53 ≤ sh ≤ 93) as Hsh by (unfold sh; lia).
  destruct sh as [|psh|psh] eqn:Hsheq; [lia| |lia]. rewrite <- Hsheq in *.
  rewrite Z.shiftl_mul_pow2 by lia.
  pose proof (Z_div_mod (Z.pos ph * 2 ^ sh) (Z.pos pt) ltac:(lia)) as Hdiv.
  destruct (Z.div_eucl (Z.pos ph * 2 ^ sh) (Z.pos pt)) as [q r].
  destruct Hdiv as [Hq Hr].
  (* the quotient has 53 or 54 bits *)
  assert (2 ^ sh * 2 ^ (d1 - 1) = 2 ^ 52 * 2 ^ d2) as Hp1.
  { rewrite <- !Z.pow_add_r by lia. f_equal. unfold sh. lia. }
  assert (2 ^ sh * 2 ^ d1 = 2 ^ 54 * 2 ^ (d2 - 1)) as Hp2.
  { rewrite <- !Z.pow_add_r by lia. f_equal. unfold sh. lia. }
  assert (0 < 2 ^ sh) by (apply Z.pow_pos_nonneg; lia).
  assert (2 ^ 52 ≤ q < 2 ^ 54) as Hqb by (split; nia).
  assert (Zdigits2 q = 53 ∨ Zdigits2 q = 54) as Hdq.
  { destruct (decide (q < 2 ^ 53)).
    - left. apply digits2_unique; lia.
    - right. apply digits2_unique; lia. }
  destruct (new_location_spec q (Z.pos pt) r Hr) as (rb & sb & -> & Hloc).
  destruct (binary_round_aux_spec q (- sh) rb sb r (Z.pos pt)
              ltac:(lia) ltac:(lia) ltac:(lia) ltac:(lia) Hloc)
    as (M & mf & ef & Hres & HM & Hmf & Herr & Hnorm).
  cbv zeta in Herr, Hnorm.
  set (n := Zdigits2 q - 53) in *.
  assert (0 ≤ n ≤ 1) as Hn by (unfold n; lia).
  exists M, (sh - n), mf, ef.
  split; [exact Hres|]. split; [done|]. split; [lia|]. split; [done|].
  split.
  - assert (2 ^ sh = 2 ^ (sh - n) * 2 ^ n) as Hsplit.
    { rewrite <- Z.pow_add_r by lia. f_equal. lia. }
    assert (0 < 2 ^ n) by (apply Z.pow_pos_nonneg; lia).
    replace (q * Z.pos pt + r) with (Z.pos ph * 2 ^ sh) in Herr by lia.
    rewrite Hsplit in Herr.
    replace (M * (2 ^ n * Z.pos pt)
             - Z.pos ph * (2 ^ (sh - n) * 2 ^ n))
      with ((M * Z.pos pt - Z.pos ph * 2 ^ (sh - n)) * 2 ^ n) in Herr
      by lia.
    rewrite Z.abs_mul, (Z.abs_eq (2 ^ n)) in Herr by lia. nia.
  - destruct Hnorm as [[? ->]|(? & ? & ->)]; [left|right];
      (split; [done|]); try split; try done; lia.
Qed.

(** [x * 100] for a normal float [x]: again within half a unit in the
    last place, of the exact product. *)
Lemma mul_100_spec (mf : positive) (ef : Z) :
  2 ^ 52 ≤ Z.pos mf < 2 ^ 53 → -100 ≤ ef ≤ 0 →
  ∃ B n mg eg,
    PyFloat.mul (S754_finite false mf ef) (PyFloat.of_int 100)
    = S754_finite false mg eg
    ∧ 2 ^ 52 ≤ B ≤ 2 ^ 53 ∧ 52 ≤ n ≤ 53
    ∧ 2 ^ 52 ≤ Z.pos mg < 2 ^ 53
    ∧ 2 * Z.abs (B * 2 ^ n - Z.pos mf * (100 * 2 ^ 46)) ≤ 2 ^ n
    ∧ ((Z.pos mg = B ∧ eg = ef - 46 + n)
       ∨ (B = 2 ^ 53 ∧ Z.pos mg = 2 ^ 52 ∧ eg = ef - 46 + n + 1)).
Proof.
  intros Hmf Hef.
  assert (PyFloat.of_int 100 = S754_finite false 7036874417766400 (-46))
    as -> by (by vm_compute).
  unfold PyFloat.mul, SFmul. cbn [xorb].
  rewrite Pos2Z.inj_mul.
  change (Z.pos 7036874417766400) with (100 * 2 ^ 46).
  set (P := Z.pos mf * (100 * 2 ^ 46)).
  assert (2 ^ 104 ≤ P < 2 ^ 106) as HP.
  { unfold P. change (2 ^ 104) with (2 ^ 52 * 2 ^ 52).
    change (2 ^ 106) with (2 ^ 53 * 2 ^ 53).
    change (100 * 2 ^ 46) with 7036874417766400.
    change (2 ^ 52) with 4503599627370496 in *.
    change (2 ^ 53) with 9007199254740992 in *. lia. }
  assert (Zdigits2 P = 105 ∨ Zdigits2 P = 106) as HdP.
  { destruct (decide (P < 2 ^ 105)).
    - left. apply digits2_unique; lia.
    - right. apply digits2_unique; lia. }
  destruct (binary_round_aux_spec P (ef + -46) false false 0 1
              ltac:(lia) ltac:(lia) ltac:(lia) ltac:(lia))
    as (M & mg & eg & Hres & HM & Hmg & Herr & Hnorm).
  { split; [lia|]. split; symmetry.
    - apply bool_decide_eq_false. lia.
    - apply bool_decide_eq_false. lia. }
  cbn [loc_of_shr_record] in Hres. cbv zeta in Herr, Hnorm.
  exists M, (Zdigits2 P - 53), mg, eg.
  split; [exact Hres|]. split; [done|]. split; [lia|]. split; [done|].
  split.
  - rewrite !Z.mul_1_r, ?Z.add_0_r in Herr. unfold P. exact Herr.
  - destruct Hnorm as [[? ->]|(? & ? & ->)]; [left|right];
      (split; [done|]); try split; try done; lia.
Qed.
End FloatRounding.

(** * The hit rate of [stats] *)

Section HitRateProps.

Lemma nearest_even_spec (num den : Z) :
  0 ≤ num → 0 < den →
  0 ≤ PyFloat.nearest_even num den
  ∧ 2 * Z.abs (PyFloat.nearest_even num den * den - num) ≤ den.
Proof.
  intros Hnum Hden. unfold PyFloat.nearest_even.
  pose proof (Z.div_mod num den ltac:(lia)) as Hdm.
  pose proof (Z.mod_pos_bound num den Hden) as Hr.
  assert (0 ≤ num `div` den) by (apply Z.div_pos; lia).
  set (q := num `div` den) in *. set (r := num `mod` den) in *.
  destruct (Z.compare_spec (2 * r) den); try destruct (Z.even q);
    split; nia.
Qed.

Lemma scale_bounds (c x y : Z) :
  0 ≤ c → - y ≤ 2 * x ≤ y → - (c * y) ≤ 2 * (c * x) ≤ c * y.
Proof.
  intros Hc [Hlo Hhi].
  pose proof (Z.mul_le_mono_nonneg_l _ _ c Hc Hlo).
  pose proof (Z.mul_le_mono_nonneg_l _ _ c Hc Hhi). lia.
Qed.

(** Three roundings of at most half a unit each, of [h / t], of its
    product with 100 and of the tenths of that, leave the nearest number
    of tenths of [100 * h / t] when [t] is below [2^40]. *)
Lemma three_roundings (t h A B n k K : Z) :
  0 < t < 2 ^ 40 → 52 ≤ k → 44 ≤ K →
  2 * Z.abs (A * t - h * 2 ^ k) ≤ t →
  2 * Z.abs (B * 2 ^ k - 100 * A * 2 ^ K) ≤ 2 ^ k →
  2 * Z.abs (n * 2 ^ K - 10 * B) ≤ 2 ^ K →
  2 * Z.abs (n * t - 1000 * h) ≤ t.
Proof.
  intros Ht Hk HK H1 H2 H3.
  assert (2 ^ 52 ≤ 2 ^ k) as Hp2 by (apply Z.pow_le_mono_r; lia).
  assert (2 ^ 44 ≤ 2 ^ K) as Hp1 by (apply Z.pow_le_mono_r; lia).
  set (P1 := 2 ^ K) in *. set (P2 := 2 ^ k) in *.
  change (2 ^ 52) with 4503599627370496 in Hp2.
  change (2 ^ 44) with 17592186044416 in Hp1.
  change (2 ^ 40) with 1099511627776 in Ht.
  set (d1 := A * t - h * P2) in *.
  set (d2 := B * P2 - 100 * A * P1) in *.
  set (d3 := n * P1 - 10 * B) in *.
  assert (- t ≤ 2 * d1 ≤ t) as H1' by lia.
  assert (- P2 ≤ 2 * d2 ≤ P2) as H2' by lia.
  assert (- P1 ≤ 2 * d3 ≤ P1) as H3' by lia.
  set (X := n * t - 1000 * h).
  assert (X * (P1 * P2) = 1000 * (P1 * d1) + 10 * (t * d2) + (P2 * t) * d3)
    as Hid by (unfold X, d1, d2, d3; ring).
  pose proof (scale_bounds P1 d1 t ltac:(lia) H1') as Ha.
  pose proof (scale_bounds t d2 P2 ltac:(lia) H2') as Hb.
  assert (0 ≤ P2 * t) as Hpt by (apply Z.mul_nonneg_nonneg; lia).
  pose proof (scale_bounds (P2 * t) d3 P1 Hpt H3') as Hc.
  assert (P1 * (4000 * t) ≤ P1 * P2) as Hd
    by (apply Z.mul_le_mono_nonneg_l; lia).
  assert ((16 * t) * P2 ≤ P1 * P2) as He
    by (apply Z.mul_le_mono_nonneg_r; lia).
  assert (0 < P1 * P2) as Hpp by (apply Z.mul_pos_pos; lia).
  assert (- ((t + 1) * (P1 * P2)) < (2 * X) * (P1 * P2)
          < (t + 1) * (P1 * P2)) as [Hlo Hhi] by lia.
  apply Z.mul_lt_mono_pos_r in Hhi; [|done].
  rewrite <- Z.mul_opp_l in Hlo.
  apply Z.mul_lt_mono_pos_r in Hlo; [|done].
  lia.
Qed.

Lemma abs_scale (x y c : Z) :
  0 < c → 2 * Z.abs x ≤ y → 2 * Z.abs (x * c) ≤ y * c.
Proof.
  intros Hc H. rewrite Z.abs_mul, (Z.abs_eq c) by lia.
  replace (2 * (Z.abs x * c)) with (2 * Z.abs x * c) by ring.
  apply Z.mul_le_mono_nonneg_r; lia.
Qed.

Lemma abs_unscale (x y c : Z) :
  0 < c → 2 * Z.abs (x * c) ≤ y * c → 2 * Z.abs x ≤ y.
Proof.
  intros Hc H. rewrite Z.abs_mul, (Z.abs_eq c) in H by lia.
  replace (2 * (Z.abs x * c)) with (2 * Z.abs x * c) in H by ring.
  by apply Z.mul_le_mono_pos_r in H.
Qed.

(** The text [stats] computes for [total > 0] lookups, fewer than
    [2^40]: a number of tenths nearest to the exact rate. *)
Lemma format_rate_spec (hits total : nat) :
  (0 < total)%nat → (hits ≤ total)%nat → Z.of_nat total < 2 ^ 40 →
  ∃ n : Z,
    HitRate.format_rate hits total = PyFloat.tenths_text n +:+ "%"
    ∧ 0 ≤ n
    ∧ 2 * Z.abs (n * Z.of_nat total - 1000 * Z.of_nat hits)
      ≤ Z.of_nat total.
Proof.
  intros Htot Hle Hbig. unfold HitRate.format_rate.
  set (h := Z.of_nat hits). set (t := Z.of_nat total) in *.
  assert (0 < t) by (unfold t; lia). assert (0 ≤ h ≤ t) by (unfold h, t; lia).
  destruct (decide (h = 0)) as [->|Hh].
  { exists 0. split; [|lia].
    destruct t as [|pt|pt]; [lia| |lia]. by vm_compute. }
  destruct (true_div_spec h t ltac:(lia) Hbig)
    as (A & k & mf & ef & -> & HA & Hk & Hmf & Hdiv & Hn1).
  destruct (mul_100_spec mf ef Hmf) as (B & n2 & mg & eg & -> & HB & Hn2
                                        & Hmg & Hmul & Hn2').
  { destruct Hn1 as [[_ ->]|(_ & _ & ->)]; lia. }
  (* the exponents: [A = mf * 2^j1] and [B = mg * 2^j2] *)
  assert (∃ j1, 0 ≤ j1 ≤ 1 ∧ A = Z.pos mf * 2 ^ j1 ∧ ef = - k + j1)
    as (j1 & Hj1 & HAj & Hef).
  { destruct Hn1 as [[<- ->]|(-> & -> & ->)].
    - exists 0. rewrite Z.pow_0_r. lia.
    - exists 1. split; [lia|]. split; [done|lia]. }
  assert (∃ j2, 0 ≤ j2 ≤ 1 ∧ B = Z.pos mg * 2 ^ j2
                ∧ eg = ef - 46 + n2 + j2) as (j2 & Hj2 & HBj & Heg).
  { destruct Hn2' as [[<- ->]|(-> & -> & ->)].
    - exists 0. rewrite Z.pow_0_r. lia.
    - exists 1. split; [lia|]. split; [done|lia]. }
  set (K := k + 46 - j1 - n2).
  set (u := n2 + j1 - 46).
  assert (44 ≤ K) by (unfold K; lia).
  assert (6 ≤ u ≤ 8) by (unfold u; lia).
  assert (eg < 0) by lia.
  cbn [PyFloat.format_1f]. unfold PyFloat.tenths.
  rewrite decide_False by lia.
  destruct (nearest_even_spec (10 * Z.pos mg) (2 ^ (- eg)) ltac:(lia)
              ltac:(apply Z.pow_pos_nonneg; lia)) as [Hn0 Hten].
  set (n := PyFloat.nearest_even (10 * Z.pos mg) (2 ^ (- eg))) in *.
  exists n. split; [done|]. split; [done|].
  assert (0 < 2 ^ j1) by (apply Z.pow_pos_nonneg; lia).
  assert (0 < 2 ^ j2) by (apply Z.pow_pos_nonneg; lia).
  assert (0 < 2 ^ K) by (apply Z.pow_pos_nonneg; lia).
  assert (0 < 2 ^ 46) by done.
  apply (three_roundings t h A B n k K); [lia|lia|lia|exact Hdiv| |].
  - (* the product, rescaled *)
    apply (abs_scale _ _ (2 ^ j1)) in Hmul; [|done].
    apply (abs_unscale _ _ (2 ^ 46)); [done|].
    assert (2 ^ n2 * 2 ^ j1 * 2 ^ K = 2 ^ k * 2 ^ 46) as Hpow.
    { rewrite <- !Z.pow_add_r by lia. f_equal. unfold K. lia. }
    apply (abs_scale _ _ (2 ^ K)) in Hmul; [|done].
    rewrite Hpow in Hmul.
    replace ((B * 2 ^ k - 100 * A * 2 ^ K) * 2 ^ 46)
      with ((B * 2 ^ n2 - Z.pos mf * (100 * 2 ^ 46)) * 2 ^ j1 * 2 ^ K);
      [exact Hmul|].
    rewrite HAj.
    transitivity (B * (2 ^ n2 * 2 ^ j1 * 2 ^ K)
                  - Z.pos mf * 2 ^ j1 * 100 * 2 ^ K * 2 ^ 46); [ring|].
    rewrite Hpow. ring.
  - (* the tenths, rescaled *)
    apply (abs_scale _ _ (2 ^ j2)) in Hten; [|done].
    assert (2 ^ (- eg) * 2 ^ j2 = 2 ^ K) as Hpow.
    { rewrite <- Z.pow_add_r by lia. f_equal. unfold K. lia. }
    rewrite Hpow in Hten.
    replace (n * 2 ^ K - 10 * B)
      with ((n * 2 ^ (- eg) - 10 * Z.pos mg) * 2 ^ j2); [exact Hten|].
    rewrite HBj.
    transitivity (n * (2 ^ (- eg) * 2 ^ j2) - 10 * Z.pos mg * 2 ^ j2);
      [ring|]. rewrite Hpow. ring.
Qed.

(** Away from the halfway points a nearest number of tenths is the
    rounded one, whatever the rule for ties. *)
Lemma nearest_is_rounded rule (hits total : nat) (n : Z) :
  (0 < total)%nat →
  2 * Z.abs (n * Z.of_nat total - 1000 * Z.of_nat hits) ≤ Z.of_nat total →
  2 * ((1000 * Z.of_nat hits) `mod` Z.of_nat total) ≠ Z.of_nat total →
  n = HitRate.round_tenths rule hits total.
Proof.
  intros Htot Hn Htie. unfold HitRate.round_tenths.
  set (h := Z.of_nat hits) in *. set (t := Z.of_nat total) in *.
  assert (0 < t) by (unfold t; lia).
  pose proof (Z.div_mod (1000 * h) t ltac:(lia)) as Hdm.
  pose proof (Z.mod_pos_bound (1000 * h) t ltac:(lia)) as Hr.
  set (q := (1000 * h) `div` t) in *. set (r := (1000 * h) `mod` t) in *.
  destruct (Z.compare_spec (2 * r) t); [done| |]; nia.
Qed.
End HitRateProps.

Section HitRateClaim.
Context {V : Type}.

(** C9 (as amended): [stats] reports the hit, miss and set counters as
    they are, ["0.0%"] when no lookup has been counted, and otherwise, for
    [h] hits and [m] misses with [h + m] below [2^40], a number of tenths
    [n] between 0 and 1000 that is nearest to [h / (h + m) * 100]; so the
    rate reported is [h / (h + m) * 100] rounded to one decimal, under
    every rule for ties, whenever that value is not exactly halfway
    between two numbers with one decimal. *)
Theorem hit_rate_nearest_tenth (c : Cache.TTLCache V) :
  let h := Cache.hits (Cache._stats c) in
  let m := Cache.misses (Cache._stats c) in
  Z.of_nat (h + m) < 2 ^ 40 →
  let st := Cache.stats HitRate.format_rate c in
  Cache.stat_hits st = h
  ∧ Cache.stat_misses st = m
  ∧ Cache.stat_sets st = Cache.sets (Cache._stats c)
  ∧ ((h + m = 0)%nat → Cache.hit_rate st = "0.0%")
  ∧ ((0 < h + m)%nat →
     ∃ n : Z,
       Cache.hit_rate st = PyFloat.tenths_text n +:+ "%"
       ∧ 0 ≤ n ≤ 1000
       ∧ 2 * Z.abs (n * Z.of_nat (h + m) - 1000 * Z.of_nat h)
         ≤ Z.of_nat (h + m)
       ∧ ∀ rule,
           2 * ((1000 * Z.of_nat h) `mod` Z.of_nat (h + m))
           ≠ Z.of_nat (h + m) →
           Cache.hit_rate st = HitRate.rounded_rate rule h (h + m)).
Proof.
  intros h m Hbig st.
  destruct (stats_counters HitRate.format_rate c) as (Hh & Hm & Hs & _).
  split; [exact Hh|]. split; [exact Hm|]. split; [exact Hs|].
  split; [apply stats_no_lookups|].
  intros Hpos. subst st. unfold Cache.stats. cbn [Cache.hit_rate].
  fold h m. rewrite decide_True by done.
  destruct (format_rate_spec h (h + m) Hpos ltac:(lia) Hbig)
    as (n & Htext & Hn0 & Hnear).
  exists n. split; [exact Htext|]. split; [|split; [exact Hnear|]].
  - split; [done|].
    destruct (decide (n ≤ 1000)) as [|Hgt]; [done|exfalso].
    assert (1001 * Z.of_nat (h + m) ≤ n * Z.of_nat (h + m))
      by (apply Z.mul_le_mono_nonneg_r; lia).
    lia.
  - intros rule Htie. rewrite Htext. unfold HitRate.rounded_rate.
    by rewrite (nearest_is_rounded rule h (h + m) n Hpos Hnear Htie).
Qed.
End HitRateClaim.

(** C9 on a cache that has counted 3 hits and 1997 misses. *)
Lemma hit_rate_nearest_tenth_witness :
  Z.of_nat (Cache.hits (Cache._stats Worked.lookups)
            + Cache.misses (Cache._stats Worked.lookups)) < 2 ^ 40
  ∧ Cache.stat_hits (Cache.stats HitRate.format_rate Worked.lookups)
    = Cache.hits (Cache._stats Worked.lookups).
Proof.
  assert (Z.of_nat (Cache.hits (Cache._stats Worked.lookups)
                    + Cache.misses (Cache._stats Worked.lookups)) < 2 ^ 40)
    as Hbig by (by vm_compute).
  split; [exact Hbig|].
  apply (hit_rate_nearest_tenth Worked.lookups Hbig).
Defined.

(** C9 as stated fails where the exact rate is halfway between two
    numbers with one decimal. After 3 hits and 1997 misses the rate is
    0.15 and [stats] reports ["0.1%"], where rounding half up or half to
    even gives 0.2; after 1 hit in 2000 lookups the rate is 0.05 and the
    report is ["0.1%"], where rounding half down or half to even gives
    0.0; after 1 hit in 16 lookups the rate is 6.25 and the report is
    ["6.2%"], where rounding half up or half to odd gives 6.3. So no rule
    for ties makes the claim's equation hold. *)
Lemma hit_rate_not_rounded :
  let st := Cache.stats HitRate.format_rate Worked.lookups in
  Cache.stat_hits st = 3%nat
  ∧ Cache.stat_misses st = 1997%nat
  ∧ Cache.hit_rate st = "0.1%"
  ∧ HitRate.rounded_rate HitRate.HalfUp 3 2000 = "0.2%"
  ∧ HitRate.rounded_rate HitRate.HalfEven 3 2000 = "0.2%"
  ∧ HitRate.format_rate 1 2000 = "0.1%"
  ∧ HitRate.rounded_rate HitRate.HalfDown 1 2000 = "0.0%"
  ∧ HitRate.rounded_rate HitRate.HalfEven 1 2000 = "0.0%"
  ∧ HitRate.format_rate 1 16 = "6.2%"
  ∧ HitRate.rounded_rate HitRate.HalfUp 1 16 = "6.3%"
  ∧ HitRate.rounded_rate HitRate.HalfOdd 1 16 = "6.3%"
  ∧ ∀ rule, ∃ hits total : nat,
      (0 < total)%nat ∧ (hits ≤ total)%nat
      ∧ HitRate.format_rate hits total
        ≠ HitRate.rounded_rate rule hits total.
Proof.
  cbv zeta. do 11 (split; [by vm_compute|]).
  intros [| | |].
  - exists 3%nat, 2000%nat. split; [lia|]. split; [lia|]. by vm_compute.
  - exists 1%nat, 2000%nat. split; [lia|]. split; [lia|]. by vm_compute.
  - exists 3%nat, 2000%nat. split; [lia|]. split; [lia|]. by vm_compute.
  - exists 1%nat, 16%nat. split; [lia|]. split; [lia|]. by vm_compute.
Qed.

(** * More on the TTL cache *)

Section CacheMore.
Context {V : Type}.
Implicit Types (c : Cache.TTLCache V) (k : string) (v : option V).

(** What a read returns, from the map alone. *)
Lemma get_result k now c :
  (Cache.get k now c).1
  = match Cache._cache c !! k with
    | Some e => if Cache.is_expired now e then None else Cache.value e
    | None => None
    end.
Proof.
  unfold Cache.get. destruct (Cache._cache c !! k) as [e|]; [|done].
  by destruct (Cache.is_expired now e).
Qed.

(** A read leaves the other keys alone. *)
Lemma get_lookup_ne k k' now c :
  k ≠ k' →
  Cache._cache (Cache.get k now c).2 !! k' = Cache._cache c !! k'.
Proof.
  intros Hne. unfold Cache.get.
  destruct (Cache._cache c !! k) as [e|]; [|done].
  destruct (Cache.is_expired now e); [|done].
  simpl. by rewrite lookup_delete_ne.
Qed.

(** Replacement: a second [set] of a key makes the map what it would be
    without the first; its value is what [get] returns until its own
    expiry, whatever the expiry of the entry it replaced. *)
Theorem set_replaces k v1 v2 ttl1 ttl2 now1 now2 c :
  let c2 := Cache.set k v2 ttl2 now2 (Cache.set k v1 ttl1 now1 c) in
  Cache._cache c2 = Cache._cache (Cache.set k v2 ttl2 now2 c)
  ∧ Cache.sets (Cache._stats c2) = S (S (Cache.sets (Cache._stats c)))
  ∧ ∀ now',
      (Cache.get k now' c2).1
      = if decide (now' < now2 + timedelta (py_or ttl2 (Cache._default_ttl c)))
        then v2 else None.
Proof.
  intros c2. split; [|split].
  - unfold c2, Cache.set. simpl. by rewrite insert_insert_eq.
  - done.
  - intros now'. rewrite get_result. unfold c2. rewrite set_lookup. simpl.
    unfold Cache.is_expired. simpl.
    destruct (decide (now' < _)).
    + by rewrite bool_decide_eq_false_2 by lia.
    + by rewrite bool_decide_eq_true_2 by lia.
Qed.

(** Keys expire and are written independently: storing, reading or
    deleting one key changes neither the entry of another key nor what a
    read of it returns. *)
Theorem keys_independent k k' v ttl now now' c :
  k ≠ k' →
  Cache._cache (Cache.set k v ttl now c) !! k' = Cache._cache c !! k'
  ∧ Cache._cache (Cache.get k now c).2 !! k' = Cache._cache c !! k'
  ∧ Cache._cache (Cache.delete_key k c).2 !! k' = Cache._cache c !! k'
  ∧ (Cache.get k' now' (Cache.set k v ttl now c)).1 = (Cache.get k' now' c).1
  ∧ (Cache.get k' now' (Cache.get k now c).2).1 = (Cache.get k' now' c).1
  ∧ (Cache.get k' now' (Cache.delete_key k c).2).1 = (Cache.get k' now' c).1.
Proof.
  intros Hne.
  assert (Cache._cache (Cache.delete_key k c).2 !! k' = Cache._cache c !! k')
    as Hdel.
  { unfold Cache.delete_key. destruct (Cache._cache c !! k); [|done].
    simpl. by rewrite lookup_delete_ne. }
  rewrite !get_result, Hdel, set_lookup_ne, get_lookup_ne by done.
  done.
Qed.

(** [delete] returns true exactly when the map holds an entry for the key,
    expired or not; afterwards the key is absent and a read of it is a
    miss; the counters are untouched. *)
Theorem delete_key_spec k now c :
  let r := Cache.delete_key k c in
  (r.1 = true ↔ is_Some (Cache._cache c !! k))
  ∧ Cache._cache r.2 = delete k (Cache._cache c)
  ∧ (Cache.get k now r.2).1 = None
  ∧ Cache.misses (Cache._stats (Cache.get k now r.2).2)
    = S (Cache.misses (Cache._stats c))
  ∧ Cache._stats r.2 = Cache._stats c
  ∧ Cache._default_ttl r.2 = Cache._default_ttl c.
Proof.
  intros r. unfold r, Cache.delete_key.
  destruct (Cache._cache c !! k) as [e|] eqn:Hk; simpl.
  - split; [split; eauto|]. split; [done|].
    rewrite get_absent by (simpl; apply lookup_delete_eq). done.
  - split; [split; [done|by intros [? ?]]|].
    split; [symmetry; by apply delete_id|].
    rewrite get_absent by done. done.
Qed.

(** [clear] returns the number of entries and empties the map: every
    later read is a miss. The hit, miss and set counters are not reset. *)
Theorem clear_spec c :
  let r := Cache.clear c in
  r.1 = Cache.len c
  ∧ Cache.len r.2 = 0%nat
  ∧ (∀ k now, (Cache.get k now r.2).1 = None
              ∧ Cache.misses (Cache._stats (Cache.get k now r.2).2)
                = S (Cache.misses (Cache._stats c)))
  ∧ Cache._stats r.2 = Cache._stats c
  ∧ Cache._default_ttl r.2 = Cache._default_ttl c.
Proof.
  intros r. unfold r, Cache.clear, Cache.len. simpl.
  split; [done|]. split; [apply map_size_empty|]. split; [|done].
  intros k now. by rewrite get_absent by apply lookup_empty.
Qed.
End CacheMore.

Section CacheSweep.
Context {V : Type}.
Implicit Types (c : Cache.TTLCache V) (k : string) (v : option V).

Lemma foldl_delete_lookup {A} (l : list string) (m : gmap string A) k :
  foldl (λ m k, delete k m) m l !! k
  = if decide (k ∈ l) then None else m !! k.
Proof.
  revert m. induction l as [|a l IH]; intros m; simpl.
  - destruct (decide (k ∈ [])) as [Hin|]; [|done].
    by apply elem_of_nil in Hin.
  - rewrite IH.
    destruct (decide (k ∈ l)) as [Hl|Hl],
             (decide (k ∈ a :: l)) as [Hal|Hal]; try done.
    + exfalso. apply Hal. by right.
    + apply elem_of_cons in Hal as [->|?]; [|done]. apply lookup_delete_eq.
    + apply lookup_delete_ne. intros ->. apply Hal. by left.
Qed.

Lemma NoDup_fst_filter {A B} (P : A * B → Prop) `{∀ p, Decision (P p)}
    (l : list (A * B)) :
  NoDup l.*1 → NoDup (filter P l).*1.
Proof.
  induction l as [|p l IH]; simpl; [done|].
  intros [Hnotin Hnd]%NoDup_cons. rewrite filter_cons.
  destruct (decide (P p)); [|by apply IH].
  simpl. apply NoDup_cons. split; [|by apply IH].
  intros (q & Heq & [_ Hq]%list_elem_of_filter)%list_elem_of_fmap.
  apply Hnotin. rewrite Heq. by apply list_elem_of_fmap_2.
Qed.

(** The keys [cleanup_expired] collects. *)
Lemma expired_keys_spec now c k :
  k ∈ (filter (λ kv, Cache.is_expired now kv.2 = true)
         (map_to_list (Cache._cache c))).*1
  ↔ ∃ e, Cache._cache c !! k = Some e ∧ Cache.is_expired now e = true.
Proof.
  rewrite list_elem_of_fmap. split.
  - intros ([k' e] & -> & [He Hin]%list_elem_of_filter).
    apply elem_of_map_to_list in Hin. eauto.
  - intros (e & Hk & He). exists (k, e). split; [done|].
    apply list_elem_of_filter. split; [done|].
    by apply elem_of_map_to_list.
Qed.

(** [cleanup_expired] removes the entries expired at the time of the
    sweep and only those, and returns how many they were; the counters are
    untouched; a read at that time returns what it would have returned
    without the sweep, and finds nothing left to evict. *)
Theorem cleanup_expired_spec now c :
  let r := Cache.cleanup_expired now c in
  (∀ k, Cache._cache r.2 !! k
        = match Cache._cache c !! k with
          | Some e => if Cache.is_expired now e then None else Some e
          | None => None
          end)
  ∧ Cache.len c = (r.1 + Cache.len r.2)%nat
  ∧ Cache._stats r.2 = Cache._stats c
  ∧ Cache._default_ttl r.2 = Cache._default_ttl c
  ∧ (∀ k, (Cache.get k now r.2).1 = (Cache.get k now c).1)
  ∧ (∀ k, Cache._cache (Cache.get k now r.2).2 = Cache._cache r.2).
Proof.
  intros r.
  set (keys := (filter (λ kv, Cache.is_expired now kv.2 = true)
                  (map_to_list (Cache._cache c))).*1).
  assert (∀ k, Cache._cache r.2 !! k
               = match Cache._cache c !! k with
                 | Some e => if Cache.is_expired now e then None else Some e
                 | None => None
                 end) as Hlookup.
  { intros k. unfold r, Cache.cleanup_expired. simpl. fold keys.
    rewrite foldl_delete_lookup.
    destruct (decide (k ∈ keys)) as [Hin|Hin].
    - apply expired_keys_spec in Hin as (e & -> & ->). done.
    - destruct (Cache._cache c !! k) as [e|] eqn:Hk; [|done].
      destruct (Cache.is_expired now e) eqn:He; [|done].
      exfalso. apply Hin, expired_keys_spec. eauto. }
  split; [done|]. split; [|split; [done|split; [done|split]]].
  - unfold Cache.len. rewrite <- !(size_dom (D:=gset string)).
    assert (dom (Cache._cache r.2)
            = dom (Cache._cache c) ∖ list_to_set keys) as ->.
    { apply set_eq. intros k.
      rewrite elem_of_difference, !elem_of_dom, Hlookup, elem_of_list_to_set.
      unfold keys. rewrite expired_keys_spec.
      destruct (Cache._cache c !! k) as [e|]; [|split; [by intros [? ?]|]].
      - destruct (Cache.is_expired now e) eqn:He.
        + split; [by intros [? ?]|]. intros [_ Hno]. exfalso. apply Hno. eauto.
        + split; [|eauto]. intros _. split; [eauto|].
          intros (e' & [= <-] & He'). congruence.
      - by intros [[? ?] _]. }
    assert (list_to_set keys ⊆ dom (Cache._cache c)) as Hsub.
    { intros k. rewrite elem_of_list_to_set. unfold keys.
      rewrite expired_keys_spec, elem_of_dom. intros (e & -> & _). eauto. }
    rewrite size_difference by done.
    rewrite size_list_to_set
      by (apply NoDup_fst_filter, NoDup_fst_map_to_list).
    apply subseteq_size in Hsub.
    rewrite size_list_to_set in Hsub
      by (apply NoDup_fst_filter, NoDup_fst_map_to_list).
    unfold r, Cache.cleanup_expired. simpl. fold keys. lia.
  - intros k. rewrite !get_result, Hlookup.
    destruct (Cache._cache c !! k) as [e|]; [|done].
    by destruct (Cache.is_expired now e) eqn:He; [|rewrite He].
  - intros k. unfold Cache.get.
    destruct (Cache._cache r.2 !! k) as [e|] eqn:Hk; [|done].
    rewrite Hlookup in Hk.
    destruct (Cache._cache c !! k) as [e'|]; [|done].
    destruct (Cache.is_expired now e') eqn:He; [done|].
    injection Hk as <-. by rewrite He.
Qed.

(** [get_or_set]: a live cached value is returned as a plain [get] would,
    whatever the factory computes; otherwise the factory's value is
    returned, and stored if it is not [None], so that a read before its
    expiry returns it; a [None] from the factory is returned and not
    stored. *)
Theorem get_or_set_spec k (factory : unit → option V) ttl now now' c :
  let r := Cache.get_or_set k factory ttl now now' c in
  (∀ x, (Cache.get k now c).1 = Some x →
        r = (Some x, (Cache.get k now c).2))
  ∧ ((Cache.get k now c).1 = None →
     r.1 = factory tt
     ∧ (∀ x, factory tt = Some x →
          r.2 = Cache.set k (Some x) ttl now' (Cache.get k now c).2
          ∧ ∀ now'',
              now'' < now' + timedelta (py_or ttl (Cache._default_ttl c)) →
              (Cache.get k now'' r.2).1 = Some x)
     ∧ (factory tt = None → r.2 = (Cache.get k now c).2))
  ∧ (Cache.hits (Cache._stats r.2) + Cache.misses (Cache._stats r.2)
     = S (Cache.hits (Cache._stats c) + Cache.misses (Cache._stats c)))%nat.
Proof.
  intros r. unfold r, Cache.get_or_set.
  destruct (get_counts k now c) as (Hcount & _ & Hdef).
  destruct (Cache.get k now c) as [o c1] eqn:Hget. simpl in *.
  split; [|split].
  - by intros x ->.
  - intros ->. destruct (factory tt) as [x|] eqn:Hf; simpl.
    + split; [done|]. split; [|done]. intros x' [= <-]. split; [done|].
      intros now'' Hlive. rewrite get_result, set_lookup, Hdef. simpl.
      unfold Cache.is_expired. simpl.
      by rewrite bool_decide_eq_false_2 by lia.
    + split; [done|]. split; [done|]. done.
  - destruct o as [x|]; simpl; [lia|].
    destruct (factory tt); simpl; lia.
Qed.
End CacheSweep.

Section CacheCounters.
Context {V : Type}.
Implicit Types (c : Cache.TTLCache V).

Lemma run_counters (op : CacheOps.Op (V:=V)) c :
  let s := Cache._stats c in
  let s' := Cache._stats (CacheOps.run op c) in
  (Cache.hits s' + Cache.misses s'
   = Cache.hits s + Cache.misses s
     + (if CacheOps.is_lookup op then 1 else 0))%nat
  ∧ (Cache.sets s + (if CacheOps.is_set op then 1 else 0)
     ≤ Cache.sets s')%nat
  ∧ (Cache.sets s'
     ≤ Cache.sets s + (if CacheOps.is_set op then 1 else 0)
       + (if CacheOps.is_get_or_set op then 1 else 0))%nat
  ∧ Cache._default_ttl (CacheOps.run op c) = Cache._default_ttl c.
Proof.
  destruct op as [k now|k v ttl now|k| |now|k f ttl now now']; simpl.
  - destruct (get_counts k now c) as (Hc & Hs & Hd). simpl in *.
    rewrite Hs, Hd. repeat split; lia.
  - repeat split; lia.
  - unfold Cache.delete_key. destruct (Cache._cache c !! k); simpl;
      repeat split; lia.
  - repeat split; lia.
  - repeat split; lia.
  - destruct (get_counts k now c) as (Hc & Hs & Hd).
    unfold Cache.get_or_set.
    destruct (Cache.get k now c) as [o c1]. simpl in *.
    destruct o as [x|]; simpl; [rewrite Hs, Hd; repeat split; lia|].
    destruct (f tt); simpl; rewrite Hs, Hd; repeat split; lia.
Qed.

(** The counters count operations: after any sequence of operations the
    hits and misses together have grown by the number of lookups made
    ([get] and [get_or_set]), the set counter by the number of [set]s plus
    at most one per [get_or_set]; [delete], [clear] and [cleanup_expired]
    count nothing, and the default TTL never changes. *)
Theorem counters_count_operations (ops : list (CacheOps.Op (V:=V))) c :
  let s := Cache._stats c in
  let s' := Cache._stats (CacheOps.run_all ops c) in
  (Cache.hits s' + Cache.misses s'
   = Cache.hits s + Cache.misses s
     + length (filter (λ op, CacheOps.is_lookup op = true) ops))%nat
  ∧ (Cache.sets s + length (filter (λ op, CacheOps.is_set op = true) ops)
     ≤ Cache.sets s')%nat
  ∧ (Cache.sets s'
     ≤ Cache.sets s + length (filter (λ op, CacheOps.is_set op = true) ops)
       + length (filter (λ op, CacheOps.is_get_or_set op = true) ops))%nat
  ∧ Cache._default_ttl (CacheOps.run_all ops c) = Cache._default_ttl c.
Proof.
  revert c. induction ops as [|op ops IH]; intros c.
  - simpl. repeat split; lia.
  - cbv zeta.
    change (CacheOps.run_all (op :: ops) c)
      with (CacheOps.run_all ops (CacheOps.run op c)).
    destruct (IH (CacheOps.run op c)) as (H1 & H2 & H3 & H4).
    destruct (run_counters op c) as (R1 & R2 & R3 & R4).
    cbv zeta in *. rewrite !filter_cons.
    split; [|split; [|split]]; [| | |by rewrite H4, R4].
    all: destruct (CacheOps.is_lookup op), (CacheOps.is_set op),
                  (CacheOps.is_get_or_set op); simpl; lia.
Qed.
End CacheCounters.

(** * More on the hub *)

Section SubKeys.
Import Stdlib.Strings.Ascii.
Variable lower : string → string.

Lemma chars_app (a b : string) :
  String.list_ascii_of_string (a +:+ b)
  = String.list_ascii_of_string a ++ String.list_ascii_of_string b.
Proof. induction a as [|c a IH]; simpl; [done|]. by rewrite IH. Qed.

Lemma chars_inj (a b : string) :
  String.list_ascii_of_string a = String.list_ascii_of_string b → a = b.
Proof.
  intros H. rewrite <- (String.string_of_list_ascii_of_string a),
    <- (String.string_of_list_ascii_of_string b). by rewrite H.
Qed.

Lemma pretty_N_go_no_colon x s :
  ":"%char ∉ String.list_ascii_of_string s →
  ":"%char ∉ String.list_ascii_of_string (pretty_N_go x s).
Proof.
  revert s. induction (N.lt_wf_0 x) as [x _ IH]; intros s Hs.
  assert (x = 0 ∨ 0 < x)%N as [->|?] by lia.
  - by rewrite pretty_N_go_0.
  - rewrite pretty_N_go_step by done. apply IH.
    { by apply N.div_lt. }
    simpl. intros [Hc|Hin]%elem_of_cons; [|done].
    revert Hc. unfold pretty_N_char. by repeat case_match.
Qed.

(** The decimal rendering of an integer holds no colon. *)
Lemma pretty_Z_no_colon (z : Z) :
  ":"%char ∉ String.list_ascii_of_string (pretty z).
Proof.
  assert (∀ p : positive,
            ":"%char ∉ String.list_ascii_of_string (pretty (N.pos p))) as Hpos.
  { intros p. unfold pretty, pretty_N.
    destruct (decide (N.pos p = 0)%N); [done|].
    apply pretty_N_go_no_colon. simpl. apply not_elem_of_nil. }
  destruct z as [|p|p]; unfold pretty, pretty_Z.
  - simpl. intros [?|Hin%elem_of_nil]%elem_of_cons; done.
  - apply Hpos.
  - rewrite chars_app. simpl.
    intros [?|Hin]%elem_of_cons; [done|]. by apply (Hpos p).
Qed.

Lemma split_at_last_colon (x y p q : list Ascii.ascii) :
  ":"%char ∉ p → ":"%char ∉ q →
  x ++ ":"%char :: p = y ++ ":"%char :: q → x = y ∧ p = q.
Proof.
  intros Hp Hq. revert y. induction x as [|a x IH]; intros [|b y] Heq;
    simpl in Heq.
  - by injection Heq as ->.
  - injection Heq as <- ->. exfalso. apply Hp. set_solver.
  - injection Heq as -> <-. exfalso. apply Hq. set_solver.
  - injection Heq as -> Heq. destruct (IH _ Heq) as [-> ->]. done.
Qed.

End SubKeys.

Section HubMore.
Import HubOps.
Implicit Types (m : Hub.ConnectionManager) (id k : string).

(** [disconnect] is idempotent and a no-op on an unknown id; on any
    manager it removes at most the given id: every other connection and
    every other id's memberships stay as they are. *)
Theorem disconnect_idempotent id m :
  Hub.disconnect id (Hub.disconnect id m) = Hub.disconnect id m
  ∧ (Hub._connections m !! id = None → Hub.disconnect id m = m)
  ∧ Hub._connections (Hub.disconnect id m) !! id = None
  ∧ (∀ id', id' ≠ id →
       Hub._connections (Hub.disconnect id m) !! id'
       = Hub._connections m !! id'
       ∧ ∀ k, id' ∈ members (Hub.disconnect id m) k ↔ id' ∈ members m k)
  ∧ (is_Some (Hub._connections m !! id) →
     S (Hub.connection_count (Hub.disconnect id m)) = Hub.connection_count m).
Proof.
  assert (Hub._connections (Hub.disconnect id m) !! id = None) as Hgone
    by (rewrite disconnect_connections; apply lookup_delete_eq).
  split; [by apply disconnect_unknown|].
  split; [apply disconnect_unknown|]. split; [done|]. split.
  - intros id' Hne. rewrite disconnect_connections.
    split; [by apply lookup_delete_ne|]. intros k.
    destruct (Hub._connections m !! id) as [c|] eqn:Hid.
    + rewrite (disconnect_members_own _ _ _ _ Hid).
      destruct (decide (k ∈ Hub.subscriptions c)); set_solver.
    + by rewrite (disconnect_unknown _ _ Hid).
  - intros [c Hid]. unfold Hub.connection_count.
    rewrite disconnect_connections.
    rewrite map_size_delete_Some by eauto.
    assert (size (Hub._connections m) ≠ 0)%nat; [|lia].
    apply map_size_non_empty_iff. intros He. by rewrite He in Hid.
Qed.

(** [connect] with an id that is not registered adds the new connection,
    with no subscription, and touches nothing else. *)
Theorem connect_fresh {D : Type} send_json ws id now m :
  Hub._connections m !! id = None →
  let r := Hub.connect (D:=D) send_json ws id now m in
  r.1.1 = Hub.mkClient ws id now ∅
  ∧ Hub._connections r.1.2 = <[id := Hub.mkClient ws id now ∅]>
                               (Hub._connections m)
  ∧ Hub._subscriptions r.1.2 = Hub._subscriptions m
  ∧ Hub._message_count r.1.2 = Hub._message_count m
  ∧ Hub.connection_count r.1.2 = S (Hub.connection_count m)
  ∧ r.2 = Hub.mkSent id ws (Hub.MsgConnected id now) (send_json ws)
  ∧ (consistent m → consistent r.1.2).
Proof.
  intros Hid r.
  assert (consistent m → consistent r.1.2) as Hcons.
  { intros Hc. unfold r. rewrite connect_manager.
    pose proof (install_consistent ws id now m Hc) as Hi.
    unfold Hub.disconnect in Hi. done. }
  revert Hcons. unfold r, Hub.connect. rewrite Hid. simpl. intros Hcons.
  split; [done|]. split; [done|]. split; [done|]. split; [done|].
  split; [|done].
  unfold Hub.connection_count. simpl. by apply map_size_insert_None.
Qed.
End HubMore.

Section HubRoundTrip.
Import HubOps.
Variable lower : string → string.
Implicit Types (m : Hub.ConnectionManager) (id k : string).

Lemma manager_eq m m' :
  Hub._connections m = Hub._connections m' →
  Hub._subscriptions m = Hub._subscriptions m' →
  Hub._message_count m = Hub._message_count m' →
  m = m'.
Proof. destruct m, m'. simpl. by intros -> -> ->. Qed.

Lemma client_eq (c c' : Hub.ClientConnection) :
  Hub.websocket c = Hub.websocket c' →
  Hub.client_id c = Hub.client_id c' →
  Hub.connected_at c = Hub.connected_at c' →
  Hub.subscriptions c = Hub.subscriptions c' →
  c = c'.
Proof. destruct c, c'. simpl. by intros -> -> -> ->. Qed.

Lemma unsubscribe_message_count id item srv m :
  Hub._message_count (Hub.unsubscribe lower id item srv m).2
  = Hub._message_count m.
Proof.
  unfold Hub.unsubscribe. by destruct (Hub._connections m !! id).
Qed.

(** On a consistent hub [unsubscribe] undoes [subscribe] and [subscribe]
    undoes [unsubscribe]: subscribing a registered connection to a key it
    does not hold and unsubscribing it again gives back the very same
    manager, index entries created on the way being pruned again; and the
    same the other way round for a key it holds. *)
Theorem subscribe_unsubscribe_round_trip id item srv m c :
  consistent m →
  Hub._connections m !! id = Some c →
  (Hub._make_sub_key lower item srv ∉ Hub.subscriptions c →
   Hub.unsubscribe lower id item srv (Hub.subscribe lower id item srv m).2
   = (true, m))
  ∧ (Hub._make_sub_key lower item srv ∈ Hub.subscriptions c →
     Hub.subscribe lower id item srv (Hub.unsubscribe lower id item srv m).2
     = (true, m)).
Proof.
  intros Hc Hid. set (key := Hub._make_sub_key lower item srv).
  assert (is_Some (Hub._connections m !! id)) as Hreg by eauto.
  pose proof (own_iff_index _ Hc _ _ key Hid) as Hown.
  split; intros Hkey.
  - set (m1 := (Hub.subscribe lower id item srv m).2).
    assert (is_Some (Hub._connections m1 !! id)) as Hreg1.
    { unfold m1. rewrite (subscribe_connections _ _ _ _ _ _ Hid).
      rewrite lookup_insert_eq. eauto. }
    rewrite (surjective_pairing (Hub.unsubscribe lower id item srv m1)).
    f_equal.
    { by rewrite unsubscribe_result, bool_decide_eq_true_2. }
    apply manager_eq.
    + destruct Hreg1 as [c1 Hc1].
      rewrite (unsubscribe_connections _ _ _ _ _ _ Hc1).
      unfold m1 in Hc1 |- *.
      rewrite (subscribe_connections _ _ _ _ _ _ Hid) in Hc1 |- *.
      rewrite lookup_insert_eq in Hc1. injection Hc1 as <-.
      rewrite insert_insert_eq. apply insert_id. rewrite Hid. f_equal.
      apply client_eq; simpl; try done. fold key. set_solver.
    + apply pruned_ext.
      * apply unsubscribe_pruned, subscribe_pruned, Hc.
      * apply Hc.
      * intros k.
        change (members (Hub.unsubscribe lower id item srv m1).2 k
                = members m k).
        rewrite unsubscribe_members by done. unfold m1.
        rewrite subscribe_members by done. fold key.
        destruct (decide (k = key)) as [->|]; [|done]. set_solver.
    + unfold m1. by rewrite unsubscribe_message_count, subscribe_message_count.
  - set (m1 := (Hub.unsubscribe lower id item srv m).2).
    assert (is_Some (Hub._connections m1 !! id)) as Hreg1.
    { unfold m1. rewrite (unsubscribe_connections _ _ _ _ _ _ Hid).
      rewrite lookup_insert_eq. eauto. }
    rewrite (surjective_pairing (Hub.subscribe lower id item srv m1)).
    f_equal.
    { by rewrite subscribe_result, bool_decide_eq_true_2. }
    apply manager_eq.
    + destruct Hreg1 as [c1 Hc1].
      rewrite (subscribe_connections _ _ _ _ _ _ Hc1).
      unfold m1 in Hc1 |- *.
      rewrite (unsubscribe_connections _ _ _ _ _ _ Hid) in Hc1 |- *.
      rewrite lookup_insert_eq in Hc1. injection Hc1 as <-.
      rewrite insert_insert_eq. apply insert_id. rewrite Hid. f_equal.
      apply client_eq; simpl; try done. fold key.
      apply set_eq. intros x. rewrite elem_of_union, elem_of_difference,
        elem_of_singleton.
      destruct (decide (x = key)) as [->|]; naive_solver.
    + apply pruned_ext.
      * apply subscribe_pruned, unsubscribe_pruned, Hc.
      * apply Hc.
      * intros k.
        change (members (Hub.subscribe lower id item srv m1).2 k
                = members m k).
        rewrite subscribe_members by done. unfold m1.
        rewrite unsubscribe_members by done. fold key.
        destruct (decide (k = key)) as [->|]; [|done].
        apply set_eq. intros x. rewrite elem_of_union, elem_of_difference,
          elem_of_singleton.
        destruct (decide (x = id)) as [->|]; naive_solver.
    + unfold m1. by rewrite subscribe_message_count, unsubscribe_message_count.
Qed.
End HubRoundTrip.

Section HubStats.
Import HubOps.
Implicit Types (m : Hub.ConnectionManager) (id k : string).

(** On a consistent hub the keys of the index are the keys some
    registered connection holds: [stats] counts the distinct keys that
    have a subscriber, and a client's info lists the keys of the entries
    it is a member of. *)
Theorem stats_count_subscribed_keys m :
  consistent m →
  dom (Hub._subscriptions m)
  = ⋃ (Hub.subscriptions <$> (map_to_list (Hub._connections m)).*2)
  ∧ Hub.subscription_keys (Hub.stats m)
    = size (⋃ (Hub.subscriptions <$> (map_to_list (Hub._connections m)).*2))
  ∧ Hub.connections (Hub.stats m) = Hub.connection_count m
  ∧ (∀ id, Manager.get_client_info id m = None
           ↔ Hub._connections m !! id = None)
  ∧ (∀ id info, Manager.get_client_info id m = Some info →
       Manager.info_client_id info = id
       ∧ NoDup (Manager.info_subscriptions info)
       ∧ ∀ k, k ∈ Manager.info_subscriptions info ↔ id ∈ members m k).
Proof.
  intros Hc.
  assert (dom (Hub._subscriptions m)
          = ⋃ (Hub.subscriptions <$> (map_to_list (Hub._connections m)).*2))
    as Hdom.
  { apply set_eq. intros k. rewrite elem_of_dom, elem_of_union_list. split.
    - intros [s Hk].
      assert (s ≠ ∅) as Hne by (by eapply entries_nonempty).
      apply set_choose_L in Hne as [id Hin].
      assert (id ∈ members m k) as Hmem by (apply elem_of_mem; eauto).
      destruct (members_registered _ Hc id k Hmem) as [c Hid].
      exists (Hub.subscriptions c). split.
      + apply list_elem_of_fmap. exists c. split; [done|].
        apply list_elem_of_fmap. exists (id, c). split; [done|].
        by apply elem_of_map_to_list.
      + by apply (own_iff_index _ Hc _ _ k Hid).
    - intros (X & (c & -> & ([id c'] & -> & Hin)%list_elem_of_fmap)
                     %list_elem_of_fmap & Hk).
      apply elem_of_map_to_list in Hin. simpl in Hk.
      apply (own_iff_index _ Hc _ _ k Hin), elem_of_mem in Hk
        as (s & Hs & _). eauto. }
  split; [done|]. split.
  { unfold Hub.stats. simpl. by rewrite <- Hdom, size_dom. }
  split; [done|]. split.
  - intros id. unfold Manager.get_client_info.
    by destruct (Hub._connections m !! id).
  - intros id info. unfold Manager.get_client_info.
    destruct (Hub._connections m !! id) as [c|] eqn:Hid; [|done].
    intros [= <-]. simpl. split; [by eapply keyed_by_id|].
    split; [apply NoDup_elements|]. intros k.
    rewrite elem_of_elements. apply (own_iff_index _ Hc _ _ k Hid).
Qed.
End HubStats.

Section HubAccounting.
Import HubOps.
Variable lower : string → string.
Context {D : Type}.
Implicit Types (m : Hub.ConnectionManager) (id k : string).

Lemma run_message_count (op : Op (D:=D)) m :
  Hub._message_count (run lower op m)
  = (Hub._message_count m + Manager.returned_count lower op m)%nat.
Proof.
  destruct op as [sj ws id now|id|id item srv|id item srv
                 |sj item srv data now|sj message]; cbn [run].
  - rewrite connect_manager. simpl.
    change (Hub._message_count (Hub.disconnect id m)
            = (Hub._message_count m + 0)%nat).
    rewrite disconnect_message_count. lia.
  - rewrite disconnect_message_count. simpl. lia.
  - rewrite subscribe_message_count. simpl. lia.
  - rewrite unsubscribe_message_count. simpl. lia.
  - unfold Hub.broadcast_item_update. simpl.
    by rewrite cleanup_message_count.
  - unfold Hub.broadcast_all. simpl. by rewrite cleanup_message_count.
Qed.

(** [total_messages_sent] is the sum of the counts the broadcasts have
    returned: connecting (and its welcome message), disconnecting,
    subscribing and unsubscribing never change it. *)
Theorem message_count_accounts (ops : list (Op (D:=D))) m :
  Hub._message_count (Manager.run_all lower ops m).1
  = (Hub._message_count m + (Manager.run_all lower ops m).2)%nat.
Proof.
  revert m. induction ops as [|op ops IH]; intros m; simpl; [lia|].
  specialize (IH (run lower op m)).
  destruct (Manager.run_all lower ops (run lower op m)) as [m' n].
  simpl in *. rewrite IH, run_message_count. lia.
Qed.
End HubAccounting.

Section BroadcastEdges.
Import HubOps.
Variable lower : string → string.
Context {D : Type}.
Variable send_json : Hub.WebSocket → bool.
Implicit Types (m : Hub.ConnectionManager) (id k : string).

Lemma add_no_messages m : Hub.add_messages 0 m = m.
Proof. apply manager_eq; simpl; [done..|lia]. Qed.

(** Whom [broadcast_item_update] sends to, on a consistent hub. *)
Lemma item_update_recipients item srv (data : D) now m :
  consistent m →
  Hub.to <$> (Hub.broadcast_item_update lower send_json item srv data now m).2
  = elements (members m (Hub._make_sub_key lower item srv)
              ∪ members m (Hub._make_sub_key lower item (-1))).
Proof.
  intros Hc. unfold Hub.broadcast_item_update. rewrite item_loop.
  cbn [fst snd].
  destruct (item_targets lower item srv m Hc) as (Hfst & Hnd & Hreg).
  destruct (send_and_cleanup send_json
              (Hub.MsgItemUpdate item srv data now) _ m Hc Hnd Hreg)
    as (Ho & _).
  rewrite Ho, <- list_fmap_compose.
  rewrite <- (notified_clients_union lower item srv m).
  etrans; [|exact Hfst]. apply list_fmap_ext. by intros i [id c] _.
Qed.

(** A broadcast for an item nobody subscribed to, on that server or on all
    servers, sends nothing, returns 0 and leaves the manager as it is; so
    does a broadcast to all on an empty registry. *)
Theorem broadcast_without_subscribers item srv (data : D) now
    (message : Hub.Message D) m :
  (members m (Hub._make_sub_key lower item srv) = ∅ →
   members m (Hub._make_sub_key lower item (-1)) = ∅ →
   Hub.broadcast_item_update lower send_json item srv data now m
   = (0%nat, m, []))
  ∧ (Hub._connections m = ∅ →
     Hub.broadcast_all send_json message m = (0%nat, m, [])).
Proof.
  split.
  - intros He Hw. unfold Hub.broadcast_item_update.
    rewrite notified_clients_union, He, Hw, union_empty_r_L, elements_empty.
    simpl. by rewrite add_no_messages.
  - intros He. unfold Hub.broadcast_all. rewrite He, map_to_list_empty.
    simpl. by rewrite add_no_messages.
Qed.

(** When every transport accepts the message, a broadcast evicts nobody:
    the manager afterwards differs only by the message count, which grows
    by the count returned; [broadcast_all] returns the number of registered
    connections and, on a consistent hub, [broadcast_item_update] the
    number of distinct subscribers of the two keys. *)
Theorem broadcast_without_failures item srv (data : D) now
    (message : Hub.Message D) m :
  (∀ ws, send_json ws = true) →
  (let r := Hub.broadcast_all send_json message m in
   r.1.1 = Hub.connection_count m
   ∧ r.1.2 = Hub.add_messages (Hub.connection_count m) m
   ∧ length r.2 = Hub.connection_count m
   ∧ ∀ ev, ev ∈ r.2 → Hub.ok ev = true)
  ∧ (let r := Hub.broadcast_item_update lower send_json item srv data now m in
     r.1.2 = Hub.add_messages r.1.1 m
     ∧ (∀ ev, ev ∈ r.2 → Hub.ok ev = true)
     ∧ (consistent m →
        r.1.1 = size (members m (Hub._make_sub_key lower item srv)
                      ∪ members m (Hub._make_sub_key lower item (-1))))).
Proof.
  intros Hup.
  assert (∀ msg (targets : list (string * Hub.ClientConnection)),
    let acc := foldl (λ acc p, Hub.deliver send_json msg acc p.2 p.1)
                 (Hub.mkTally (D:=D) 0 [] []) targets in
    Hub.sent_count acc = length targets
    ∧ Hub.failed_clients acc = []
    ∧ length (Hub.outbox acc) = length targets
    ∧ ∀ ev, ev ∈ Hub.outbox acc → Hub.ok ev = true) as Hloop.
  { intros msg targets acc.
    destruct (deliver_loop send_json msg targets (Hub.mkTally 0 [] []))
      as (Hn & Hf & Ho).
    fold acc in Hn, Hf, Ho. simpl in Hn, Hf, Ho.
    assert (filter (λ p : string * Hub.ClientConnection,
                      send_json (Hub.websocket p.2) = true) targets = targets)
      as Hall.
    { clear -Hup. induction targets as [|p t IH]; [done|].
      rewrite filter_cons, decide_True by apply Hup. by rewrite IH. }
    assert (filter (λ p : string * Hub.ClientConnection,
                      send_json (Hub.websocket p.2) = false) targets = [])
      as Hnone.
    { clear -Hup. induction targets as [|p t IH]; [done|].
      rewrite filter_cons, decide_False; [done|]. by rewrite Hup. }
    rewrite Hn, Hf, Ho, Hall, Hnone, length_fmap.
    split; [done|]. split; [done|]. split; [done|].
    intros ev ([id c] & -> & _)%list_elem_of_fmap. apply Hup. }
  split.
  - intros r. unfold r, Hub.broadcast_all. rewrite all_loop. cbn [fst snd].
    destruct (Hloop message
                ((λ c, (Hub.client_id c, c))
                   <$> (map_to_list (Hub._connections m)).*2))
      as (Hn & Hf & Ho & Hok).
    rewrite Hn, Hf, Ho, !length_fmap, length_map_to_list. done.
  - intros r. unfold r, Hub.broadcast_item_update. rewrite item_loop.
    cbn [fst snd].
    destruct (Hloop (Hub.MsgItemUpdate item srv data now)
                (omap (λ id, (id,.) <$> Hub._connections m !! id)
                   (elements (Hub.notified_clients lower item srv m))))
      as (Hn & Hf & Ho & Hok).
    rewrite Hf. split; [done|]. split; [done|].
    intros Hc. rewrite Hn.
    destruct (item_targets lower item srv m Hc) as (Hfst & _).
    rewrite <- (length_fmap fst), Hfst, notified_clients_union. done.
Qed.
End BroadcastEdges.

Section EndpointProps.
Import HubOps.
Variable lower : string → string.
Implicit Types (m : Hub.ConnectionManager) (id k : string).

(** What one turn of the loop may change. *)
Lemma handle_frame client_id incoming m :
  let r := Endpoint.handle lower client_id incoming m in
  dom (Hub._connections r.1) = dom (Hub._connections m)
  ∧ Hub._message_count r.1 = Hub._message_count m
  ∧ (consistent m → consistent r.1)
  ∧ (Hub._connections m !! client_id = None → r.1 = m)
  ∧ (∀ id, id ≠ client_id →
       Hub._connections r.1 !! id = Hub._connections m !! id
       ∧ ∀ k, id ∈ members r.1 k ↔ id ∈ members m k).
Proof.
  assert (∀ item srv,
    let m1 := (Hub.subscribe lower client_id item srv m).2 in
    dom (Hub._connections m1) = dom (Hub._connections m)
    ∧ Hub._message_count m1 = Hub._message_count m
    ∧ (consistent m → consistent m1)
    ∧ (Hub._connections m !! client_id = None → m1 = m)
    ∧ (∀ id, id ≠ client_id →
         Hub._connections m1 !! id = Hub._connections m !! id
         ∧ ∀ k, id ∈ members m1 k ↔ id ∈ members m k)) as Hsub.
  { intros item srv m1. unfold m1.
    split; [|split; [apply subscribe_message_count|
             split; [apply subscribe_consistent|split]]].
    - destruct (Hub._connections m !! client_id) as [c|] eqn:Hid;
        [|by rewrite subscribe_unknown].
      rewrite (subscribe_connections _ _ _ _ _ _ Hid), dom_insert_L.
      apply elem_of_dom_2 in Hid. set_solver.
    - intros Hid. by rewrite subscribe_unknown.
    - intros id Hne.
      destruct (Hub._connections m !! client_id) as [c|] eqn:Hid;
        [|by rewrite subscribe_unknown].
      rewrite (subscribe_connections _ _ _ _ _ _ Hid).
      split; [by rewrite lookup_insert_ne|]. intros k.
      rewrite subscribe_members by eauto.
      destruct (decide (k = _)); set_solver. }
  assert (∀ item srv,
    let m1 := (Hub.unsubscribe lower client_id item srv m).2 in
    dom (Hub._connections m1) = dom (Hub._connections m)
    ∧ Hub._message_count m1 = Hub._message_count m
    ∧ (consistent m → consistent m1)
    ∧ (Hub._connections m !! client_id = None → m1 = m)
    ∧ (∀ id, id ≠ client_id →
         Hub._connections m1 !! id = Hub._connections m !! id
         ∧ ∀ k, id ∈ members m1 k ↔ id ∈ members m k)) as Hunsub.
  { intros item srv m1. unfold m1.
    split; [|split; [apply unsubscribe_message_count|
             split; [apply unsubscribe_consistent|split]]].
    - destruct (Hub._connections m !! client_id) as [c|] eqn:Hid;
        [|by rewrite unsubscribe_unknown].
      rewrite (unsubscribe_connections _ _ _ _ _ _ Hid), dom_insert_L.
      apply elem_of_dom_2 in Hid. set_solver.
    - intros Hid. by rewrite unsubscribe_unknown.
    - intros id Hne.
      destruct (Hub._connections m !! client_id) as [c|] eqn:Hid;
        [|by rewrite unsubscribe_unknown].
      rewrite (unsubscribe_connections _ _ _ _ _ _ Hid).
      split; [by rewrite lookup_insert_ne|]. intros k.
      rewrite unsubscribe_members by eauto.
      destruct (decide (k = _)); set_solver. }
  unfold Endpoint.handle. destruct incoming as [|message]; [done|].
  repeat case_decide; try done.
  - destruct (Endpoint.given _); [apply Hsub|done].
  - destruct (Endpoint.given _); [apply Hunsub|done].
Qed.

(** Any number of received texts, each an undecodable one or a JSON
    object with fields of the protocol's types, registers and unregisters
    nobody, leaves every other client's connection and memberships as they
    are, never counts as a sent message and keeps the hub consistent;
    every text gets exactly one reply; and a client that is no longer
    registered changes nothing at all. *)
Theorem conversation_frame client_id (incoming : list Endpoint.Incoming) m :
  let r := Endpoint.converse lower client_id incoming m in
  dom (Hub._connections r.1) = dom (Hub._connections m)
  ∧ Hub._message_count r.1 = Hub._message_count m
  ∧ length r.2 = length incoming
  ∧ (consistent m → consistent r.1)
  ∧ (Hub._connections m !! client_id = None → r.1 = m)
  ∧ (∀ id, id ≠ client_id →
       Hub._connections r.1 !! id = Hub._connections m !! id
       ∧ ∀ k, id ∈ members r.1 k ↔ id ∈ members m k).
Proof.
  revert m. induction incoming as [|i rest IH]; intros m; [done|].
  cbn [Endpoint.converse].
  destruct (handle_frame client_id i m) as (Hd & Hn & Hc & Hu & Hf).
  destruct (Endpoint.handle lower client_id i m) as [m1 reply].
  specialize (IH m1).
  destruct (Endpoint.converse lower client_id rest m1) as [m2 replies].
  cbn [fst snd] in *. destruct IH as (Hd' & Hn' & Hl' & Hc' & Hu' & Hf').
  split; [by rewrite Hd'|]. split; [by rewrite Hn'|].
  split; [simpl; by rewrite Hl'|]. split; [auto|]. split.
  - intros Hid. rewrite (Hu Hid) in *. auto.
  - intros id Hne. destruct (Hf id Hne) as [H1 H2].
    destruct (Hf' id Hne) as [H1' H2'].
    split; [by rewrite H1'|]. intros k. by rewrite H2'.
Qed.

(** A subscribe or unsubscribe message that names an item is acknowledged
    whether or not the hub still knows the client: for a client that is
    not registered the reply is the acknowledgement and the hub is
    unchanged; without an item name the reply is an error and the hub is
    unchanged. *)
Theorem acknowledged_regardless client_id item srv m :
  item ≠ "" →
  let subscribe_msg :=
    Endpoint.Parsed (Endpoint.mkClientMessage (Some "subscribe") (Some item)
                       srv) in
  let unsubscribe_msg :=
    Endpoint.Parsed (Endpoint.mkClientMessage (Some "unsubscribe")
                       (Some item) srv) in
  (Endpoint.handle lower client_id subscribe_msg m).2
  = Endpoint.ReplySubscribed item (default (-1) srv)
  ∧ (Endpoint.handle lower client_id unsubscribe_msg m).2
    = Endpoint.ReplyUnsubscribed item (default (-1) srv)
  ∧ (Hub._connections m !! client_id = None →
     Endpoint.handle lower client_id subscribe_msg m
     = (m, Endpoint.ReplySubscribed item (default (-1) srv))
     ∧ Endpoint.handle lower client_id unsubscribe_msg m
       = (m, Endpoint.ReplyUnsubscribed item (default (-1) srv)))
  ∧ (∀ action name,
       action = "subscribe" ∨ action = "unsubscribe" →
       name = None ∨ name = Some "" →
       Endpoint.handle lower client_id
         (Endpoint.Parsed (Endpoint.mkClientMessage (Some action) name srv)) m
       = (m, Endpoint.ReplyError "item_name required")).
Proof.
  intros Hitem sub unsub. subst sub unsub.
  unfold Endpoint.handle, Endpoint.given.
  cbn [Endpoint.action Endpoint.item_name Endpoint.server_id].
  split; [by repeat case_decide; simplify_eq|].
  split; [by repeat case_decide; simplify_eq|].
  split.
  - intros Hid. destruct (decide (item = "")) as [?|_]; [done|].
    cbn iota. rewrite subscribe_unknown, unsubscribe_unknown by done.
    split; by repeat case_decide; simplify_eq.
  - intros action name [-> | ->] [-> | ->];
      by repeat case_decide; simplify_eq.
Qed.
End EndpointProps.

(** * The repository *)

Section RepoProps.
Import Repository RepoOps.
Implicit Types (r : ItemRepository).

Lemma rank_rows_keys first category now items :
  rank_id <$> rank_rows first category now items
  = seqZ first (Z.of_nat (length items)).
Proof.
  revert first. induction items as [|i items IH]; intros first; [done|].
  cbn [rank_rows fmap list_fmap length]. rewrite seqZ_cons by lia.
  f_equal. change (list_fmap _ _ rank_id ?l) with (rank_id <$> l).
  rewrite IH. f_equal; lia.
Qed.

Lemma price_rows_keys first now items :
  price_id <$> price_rows first now items = seqZ first (Z.of_nat (length items)).
Proof.
  revert first. induction items as [|i items IH]; intros first; [done|].
  cbn [price_rows fmap list_fmap length]. rewrite seqZ_cons by lia.
  f_equal. change (list_fmap _ _ price_id ?l) with (price_id <$> l).
  rewrite IH. f_equal; lia.
Qed.

Lemma rank_rows_category first category now items row :
  row ∈ rank_rows first category now items → rank_category row = category.
Proof.
  revert first. induction items as [|i items IH]; intros first; simpl.
  - by intros ?%elem_of_nil.
  - intros [->|Hin]%elem_of_cons; [done|]. by eapply IH.
Qed.

Lemma price_rows_no_item_id first now items row :
  row ∈ price_rows first now items → price_item_id row = None.
Proof.
  revert first. induction items as [|i items IH]; intros first; simpl.
  - by intros ?%elem_of_nil.
  - intros [->|Hin]%elem_of_cons; [done|]. by eapply IH.
Qed.

(** The insert loop of [save_top_items]. *)
Lemma insert_top_items category now items r :
  let r' := foldl (insert_top_item category now) r items in
  top_items_cache r'
  = top_items_cache r ++ rank_rows (next_cache_id r) category now items
  ∧ rank_history r'
    = rank_history r ++ rank_rows (next_rank_id r) category now items
  ∧ price_history r' = price_history r
  ∧ next_price_id r' = next_price_id r
  ∧ next_cache_id r' = next_cache_id r + Z.of_nat (length items)
  ∧ next_rank_id r' = next_rank_id r + Z.of_nat (length items).
Proof.
  revert r. induction items as [|i items IH]; intros r.
  - simpl. rewrite !app_nil_r. repeat split; lia.
  - cbn [foldl]. destruct (IH (insert_top_item category now r i))
      as (H1 & H2 & H3 & H4 & H5 & H6).
    cbv zeta. rewrite H1, H2, H3, H4, H5, H6. simpl.
    rewrite <- !app_assoc. simpl. repeat split; lia.
Qed.

(** The insert loop of [save_deal_items]. *)
Lemma insert_deal_items now items r :
  let r' := save_deal_items items now r in
  price_history r'
  = price_history r ++ price_rows (next_price_id r) now items
  ∧ rank_history r' = rank_history r
  ∧ top_items_cache r' = top_items_cache r
  ∧ next_price_id r' = next_price_id r + Z.of_nat (length items)
  ∧ next_cache_id r' = next_cache_id r
  ∧ next_rank_id r' = next_rank_id r.
Proof.
  unfold save_deal_items. revert r.
  induction items as [|i items IH]; intros r.
  - simpl. rewrite !app_nil_r. repeat split; lia.
  - cbn [foldl]. destruct (IH (insert_deal_item now r i))
      as (H1 & H2 & H3 & H4 & H5 & H6).
    cbv zeta. rewrite H1, H2, H3, H4, H5, H6. simpl.
    rewrite <- !app_assoc. simpl. repeat split; lia.
Qed.

Lemma filter_all {A} (P : A → Prop) `{∀ x, Decision (P x)} (l : list A) :
  (∀ x, x ∈ l → P x) → filter P l = l.
Proof.
  induction l as [|a l IH]; intros Hall; [done|].
  rewrite filter_cons, decide_True by (apply Hall; by left).
  f_equal. apply IH. intros x Hin. apply Hall. by right.
Qed.

Lemma filter_none {A} (P : A → Prop) `{∀ x, Decision (P x)} (l : list A) :
  (∀ x, x ∈ l → ¬ P x) → filter P l = [].
Proof.
  induction l as [|a l IH]; intros Hall; [done|].
  rewrite filter_cons, decide_False by (apply Hall; by left).
  apply IH. intros x Hin. apply Hall. by right.
Qed.

(** [save_top_items] replaces the category's rows of the latest-items
    table by one row per item saved, in order, with fresh keys, and
    appends the same rows to the rank history; so the snapshot of that
    category is what was saved last, the snapshots of the other categories
    are what they were, and the price history is untouched. *)
Theorem save_top_items_spec items category now r :
  let r' := save_top_items items category now r in
  top_items_cache r'
  = filter (λ row, rank_category row ≠ category) (top_items_cache r)
    ++ rank_rows (next_cache_id r) category now items
  ∧ rank_history r'
    = rank_history r ++ rank_rows (next_rank_id r) category now items
  ∧ price_history r' = price_history r
  ∧ (category ≠ "" →
     get_cached_top_items (Some category) r'
     ≡ₚ rank_rows (next_cache_id r) category now items)
  ∧ (∀ other, other ≠ category → other ≠ "" →
       get_cached_top_items (Some other) r'
       = get_cached_top_items (Some other) r).
Proof.
  intros r'. unfold r', save_top_items.
  match goal with
  | |- context [foldl _ ?r0 items] =>
      destruct (insert_top_items category now items r0)
        as (H1 & H2 & H3 & _)
  end.
  cbv zeta in H1, H2, H3. simpl in H1, H2, H3.
  rewrite H1, H2, H3. split; [done|]. split; [done|]. split; [done|].
  unfold get_cached_top_items. rewrite H1. split.
  - intros Hne. rewrite decide_False by done.
    rewrite merge_sort_Permutation, filter_app.
    rewrite (filter_none (λ row, rank_category row = category)
               (filter _ (top_items_cache r)))
      by (by intros row [? _]%list_elem_of_filter).
    rewrite filter_all; [done|].
    intros row. apply rank_rows_category.
  - intros other Hne He. destruct (decide (other = "")); [done|].
    rewrite filter_app.
    rewrite (filter_none (λ row, rank_category row = other)
               (rank_rows _ _ _ _)).
    2:{ intros row Hin%rank_rows_category. congruence. }
    rewrite app_nil_r. f_equal.
    rewrite list_filter_filter. apply list_filter_iff.
    intros row. split; [by intros [? _]|]. intros Hrow. split; congruence.
Qed.

Lemma string_order_total (a b : string) :
  String.ltb a b = true ∨ a = b ∨ String.ltb b a = true.
Proof.
  unfold String.ltb. pose proof (String.compare_antisym a b) as Ha.
  destruct (String.compare a b) eqn:Hab.
  - right. left. by apply String.compare_eq_iff.
  - by left.
  - right. right. destruct (String.compare b a); done.
Qed.

#[local] Instance by_rank_total : Total by_rank.
Proof. intros a b. unfold by_rank. lia. Qed.

#[local] Instance by_category_rank_total : Total by_category_rank.
Proof.
  intros a b. unfold by_category_rank.
  destruct (string_order_total (rank_category a) (rank_category b))
    as [?|[->|?]]; [by left; left| |by right; left].
  destruct (decide (rank a ≤ rank b)); [left|right]; right;
    (split; [done|lia]).
Qed.

(** [get_cached_top_items] returns the rows of the latest-items table, of
    the category asked for if one is given, each once, ordered by rank
    within, and by category across, categories. *)
Theorem get_cached_top_items_sorted category r :
  (category ≠ "" →
   get_cached_top_items (Some category) r
   ≡ₚ filter (λ row, rank_category row = category) (top_items_cache r)
   ∧ Sorted by_rank (get_cached_top_items (Some category) r))
  ∧ get_cached_top_items None r ≡ₚ top_items_cache r
  ∧ Sorted by_category_rank (get_cached_top_items None r)
  ∧ get_cached_top_items (Some "") r = get_cached_top_items None r.
Proof.
  unfold get_cached_top_items. split; [|split; [|split]].
  - intros Hne. rewrite decide_False by done.
    split; [apply merge_sort_Permutation|apply Sorted_merge_sort, _].
  - apply merge_sort_Permutation.
  - apply Sorted_merge_sort, _.
  - done.
Qed.

Lemma keyed_filter {A} (key : A → Z) (P : A → Prop) `{∀ x, Decision (P x)}
    rows next :
  keyed key rows next → keyed key (filter P rows) next.
Proof.
  intros [Hnd Hb]. split.
  - clear Hb. induction rows as [|a rows IH]; [done|].
    rewrite fmap_cons in Hnd. apply NoDup_cons in Hnd as [Hnotin Hnd].
    rewrite filter_cons. destruct (decide (P a)); [|by apply IH].
    rewrite fmap_cons. apply NoDup_cons. split; [|by apply IH].
    intros (b & Hk & [_ Hb]%list_elem_of_filter)%list_elem_of_fmap.
    apply Hnotin. rewrite Hk. by apply list_elem_of_fmap_2.
  - intros row [_ Hin]%list_elem_of_filter. by apply Hb.
Qed.

Lemma keyed_append {A} (key : A → Z) rows new next (n : nat) :
  1 ≤ next →
  keyed key rows next →
  key <$> new = seqZ next (Z.of_nat n) →
  keyed key (rows ++ new) (next + Z.of_nat n).
Proof.
  intros Hpos [Hnd Hb] Hnew.
  assert (∀ row, row ∈ new → next ≤ key row < next + Z.of_nat n) as Hnewb.
  { intros row Hin. apply (list_elem_of_fmap_2 key) in Hin.
    rewrite Hnew in Hin. apply elem_of_seqZ in Hin. lia. }
  split.
  - rewrite fmap_app. apply NoDup_app. split; [done|]. split.
    + intros k (row & -> & Hin)%list_elem_of_fmap
                (row' & Hk & Hin')%list_elem_of_fmap.
      apply Hb in Hin. apply Hnewb in Hin'. lia.
    + rewrite Hnew. apply NoDup_seqZ.
  - intros row [Hin|Hin]%elem_of_app.
    + apply Hb in Hin. lia.
    + apply Hnewb in Hin. lia.
Qed.

Lemma run_sound op r :
  sound r →
  sound (run op r)
  ∧ rank_history r `prefix_of` rank_history (run op r)
  ∧ price_history r `prefix_of` price_history (run op r).
Proof.
  intros (Hp & Hh & Hc & Hp1 & Hh1 & Hc1 & Hnone).
  destruct op as [items category now|items now]; cbn [run].
  - unfold save_top_items.
    match goal with
    | |- context [foldl _ ?r0 items] =>
        destruct (insert_top_items category now items r0)
          as (H1 & H2 & H3 & H4 & H5 & H6); set (r' := foldl _ r0 items) in *
    end.
    cbv zeta in H1, H2, H3, H4, H5, H6. simpl in H1, H2, H3, H4, H5, H6.
    split; [|split].
    + unfold sound. rewrite H1, H2, H3, H4, H5, H6.
      split; [done|]. split.
      { apply keyed_append; [done..|apply rank_rows_keys]. }
      split.
      { apply keyed_append; [done|by apply keyed_filter
                            |apply rank_rows_keys]. }
      repeat split; try lia. done.
    + rewrite H2. by apply prefix_app_r.
    + by rewrite H3.
  - destruct (insert_deal_items now items r) as (H1 & H2 & H3 & H4 & H5 & H6).
    cbv zeta in H1, H2, H3, H4, H5, H6.
    split; [|split].
    + unfold sound. rewrite H1, H2, H3, H4, H5, H6.
      split.
      { apply keyed_append; [done..|apply price_rows_keys]. }
      split; [done|]. split; [done|].
      repeat split; try lia.
      intros row [Hin|Hin]%elem_of_app; [by apply Hnone|].
      by eapply price_rows_no_item_id.
    + by rewrite H2.
    + rewrite H1. by apply prefix_app_r.
Qed.

(** Whatever is saved, in any order, from the empty database on: the keys
    of each table stay distinct, the rank history and the price history
    only grow at the end (no row is changed or removed), and no row of the
    price history carries an item id. *)
Theorem repository_history_append_only (ops : list Op) :
  let r := run_all ops init in
  NoDup (price_id <$> price_history r)
  ∧ NoDup (rank_id <$> rank_history r)
  ∧ NoDup (rank_id <$> top_items_cache r)
  ∧ (∀ row, row ∈ price_history r → price_item_id row = None)
  ∧ ∀ more,
      rank_history r `prefix_of` rank_history (run_all more r)
      ∧ price_history r `prefix_of` price_history (run_all more r).
Proof.
  assert (∀ ops r, sound r →
            sound (run_all ops r)
            ∧ rank_history r `prefix_of` rank_history (run_all ops r)
            ∧ price_history r `prefix_of` price_history (run_all ops r))
    as Hall.
  { clear. intros ops. induction ops as [|op ops IH]; intros r Hs.
    - done.
    - change (run_all (op :: ops) r) with (run_all ops (run op r)).
      destruct (run_sound op r Hs) as (Hs1 & Hh1 & Hp1).
      destruct (IH _ Hs1) as (Hs2 & Hh2 & Hp2).
      split; [done|]. split; by etrans. }
  assert (sound init) as Hinit.
  { unfold sound, keyed, init. simpl.
    repeat split; try apply NoDup_nil_2; try lia;
      try (intros ? Hin; by apply elem_of_nil in Hin);
      exfalso; by eapply elem_of_nil. }
  intros r. destruct (Hall ops init Hinit) as (Hs & _).
  fold r in Hs.
  pose proof Hs as ((? & _) & (? & _) & (? & _) & _ & _ & _ & ?).
  split; [done|]. split; [done|]. split; [done|]. split; [done|].
  intros more. by destruct (Hall more r Hs) as (_ & ? & ?).
Qed.

(** [save_deal_items] appends one row per item, in order, with consecutive
    fresh keys and the clock reading of the call, copying name, server,
    price, quantity and shop and leaving the item id empty; nothing else
    changes. *)
Theorem save_deal_items_spec items now r :
  let r' := save_deal_items items now r in
  price_history r'
  = price_history r ++ price_rows (next_price_id r) now items
  ∧ length (price_history r') = (length (price_history r) + length items)%nat
  ∧ price_id <$> price_rows (next_price_id r) now items
    = seqZ (next_price_id r) (Z.of_nat (length items))
  ∧ (∀ i item, items !! i = Some item →
       price_rows (next_price_id r) now items !! i
       = Some (mkPriceRow (next_price_id r + Z.of_nat i) None
                 (DealItem.item_name item) (DealItem.server_id item)
                 (DealItem.price item) (DealItem.quantity item)
                 (DealItem.shop_name item) now))
  ∧ rank_history r' = rank_history r
  ∧ top_items_cache r' = top_items_cache r.
Proof.
  intros r'. destruct (insert_deal_items now items r) as (H1 & H2 & H3 & _).
  cbv zeta in H1, H2, H3. fold r' in H1, H2, H3.
  split; [done|]. split.
  { rewrite H1, length_app. f_equal.
    rewrite <- (length_fmap price_id), price_rows_keys, length_seqZ. lia. }
  split; [apply price_rows_keys|]. split; [|done].
  generalize (next_price_id r). clear. intros first i. revert first i.
  induction items as [|a items IH]; intros first [|i] item; simpl; try done.
  - intros [= ->]. do 2 f_equal. lia.
  - intros Hi. rewrite (IH _ _ _ Hi). do 2 f_equal. lia.
Qed.
End RepoProps.

(** * More on the handlers *)

Section SearchKeys.
Import Stdlib.Strings.Ascii.
Variable lower : string → string.

(** Cache keys of [search_items] tell apart what the request tells apart,
    up to the case of the name: two keys are equal exactly when the
    lower-cased names, the server ids and the pages are equal. *)
Theorem search_key_injective name1 name2 (srv1 srv2 page1 page2 : Z) :
  Routes.search_key lower name1 srv1 page1
  = Routes.search_key lower name2 srv2 page2
  ↔ lower name1 = lower name2 ∧ srv1 = srv2 ∧ page1 = page2.
Proof.
  unfold Routes.search_key. split; [|by intros (-> & -> & ->)].
  intros Heq. apply (f_equal String.list_ascii_of_string) in Heq.
  rewrite !chars_app in Heq. simpl in Heq.
  repeat (injection Heq as Heq).
  assert ((String.list_ascii_of_string (lower name1)
             ++ ":"%char :: String.list_ascii_of_string (pretty srv1))
            ++ ":"%char :: String.list_ascii_of_string (pretty page1)
          = (String.list_ascii_of_string (lower name2)
               ++ ":"%char :: String.list_ascii_of_string (pretty srv2))
              ++ ":"%char :: String.list_ascii_of_string (pretty page2))
    as Heq' by (rewrite <- !app_assoc; exact Heq).
  apply split_at_last_colon in Heq' as [Heq' Hp];
    [|apply pretty_Z_no_colon..].
  clear Heq. rename Heq' into Heq.
  apply split_at_last_colon in Heq as [Hl Hs];
    [|apply pretty_Z_no_colon..].
  split; [by apply chars_inj|].
  split; apply (inj pretty); by apply chars_inj.
Qed.
End SearchKeys.

Section Top5Success.
Import Routes.
Variable upper : string → string.
Implicit Types (s : App) (w : World) (clk : Clock).

(** The part of [get_top5_items] after the cache check, when the source
    answers. *)
Lemma refresh_top5_success category w clk s result :
  fetch_top5_items w = Some result →
  let data := mkTop5Data (Top5Response.now_date result)
                (Top5Response.weapons result) (Top5Response.defenses result)
                (Top5Response.consumables result) (Top5Response.etcs result) in
  let sent := Hub.broadcast_all (send_json w)
                (Hub.MsgTop5Update (DataTop5 data)) (ws_manager s) in
  let r := refresh_top5 upper category w clk s in
  r.1 = Return (match truthy category with
                | Some c => ReplyCategory (upper c) (top5_get data (upper c))
                              false None
                | None => ReplyAll data false
                end)
  ∧ top5_cache r.2
    = Cache.set "top5_all" (Some data) None (at_store clk) (top5_cache s)
  ∧ item_cache r.2 = item_cache s
  ∧ repo r.2
    = Repository.save_top_items (Top5Response.etcs result) "E"
        (at_save clk "E")
        (Repository.save_top_items (Top5Response.consumables result) "C"
           (at_save clk "C")
           (Repository.save_top_items (Top5Response.defenses result) "D"
              (at_save clk "D")
              (Repository.save_top_items (Top5Response.weapons result) "W"
                 (at_save clk "W") (repo s))))
  ∧ calls r.2
    = calls s
      ++ [CallFetchTop5;
          CallSaveTop (Top5Response.weapons result) "W";
          CallSaveTop (Top5Response.defenses result) "D";
          CallSaveTop (Top5Response.consumables result) "C";
          CallSaveTop (Top5Response.etcs result) "E";
          CallBroadcastAll (Hub.MsgTop5Update (DataTop5 data))]
  ∧ ws_manager r.2 = sent.1.2
  ∧ wire r.2 = wire s ++ sent.2.
Proof.
  intros Hup data sent r. subst r sent.
  destruct s as [ic tc m rp cs wr].
  unfold refresh_top5, client_fetch_top5_items.
  rewrite Hup.
  cbv beta iota zeta delta [top5_cache_set repo_save_top_items
    ws_broadcast_all bind log ret fst snd item_cache top5_cache ws_manager
    repo calls wire].
  fold data.
  destruct (Hub.broadcast_all (send_json w)
              (Hub.MsgTop5Update (DataTop5 data)) m) as [[n m'] out].
  destruct (truthy category);
    cbv beta iota zeta delta [fst snd item_cache top5_cache ws_manager
      repo calls wire];
    rewrite <- !app_assoc; repeat split.
Qed.

(** A request that is forced, or whose lookup finds nothing, runs the
    part after the cache check on the state the lookup left. *)
Lemma get_top5_goes_to_source category force_refresh w clk s :
  force_refresh = true
  ∨ (Cache.get "top5_all" (at_lookup clk) (top5_cache s)).1 = None →
  ∃ s0,
    get_top5_items upper category force_refresh w clk s
    = refresh_top5 upper category w clk s0
    ∧ Cache._default_ttl (top5_cache s0) = Cache._default_ttl (top5_cache s)
    ∧ item_cache s0 = item_cache s ∧ ws_manager s0 = ws_manager s
    ∧ repo s0 = repo s ∧ calls s0 = calls s ∧ wire s0 = wire s.
Proof.
  intros Hmiss. unfold get_top5_items.
  destruct force_refresh; [by exists s|].
  destruct Hmiss as [?|Hmiss]; [done|].
  unfold bind, top5_cache_get.
  destruct (get_counts "top5_all" (at_lookup clk) (top5_cache s))
    as (_ & _ & Hdef).
  destruct (Cache.get "top5_all" (at_lookup clk) (top5_cache s))
    as [v c].
  cbn [fst snd] in Hmiss, Hdef. subst v. by eexists.
Qed.

(** The state a top-5 request leaves when it goes to the source and gets
    an answer. *)
Lemma top5_success_state category force_refresh w clk s result :
  fetch_top5_items w = Some result →
  force_refresh = true
  ∨ (Cache.get "top5_all" (at_lookup clk) (top5_cache s)).1 = None →
  let data := mkTop5Data (Top5Response.now_date result)
                (Top5Response.weapons result) (Top5Response.defenses result)
                (Top5Response.consumables result) (Top5Response.etcs result) in
  let ttl := Cache._default_ttl (top5_cache s) in
  let r := get_top5_items upper category force_refresh w clk s in
  r.1 = Return (match truthy category with
                | Some c => ReplyCategory (upper c) (top5_get data (upper c))
                              false None
                | None => ReplyAll data false
                end)
  ∧ Cache._cache (top5_cache r.2) !! "top5_all"
    = Some (Cache.mkEntry (Some data) (at_store clk + timedelta ttl)
              (at_store clk))
  ∧ Cache._default_ttl (top5_cache r.2) = ttl
  ∧ item_cache r.2 = item_cache s
  ∧ repo r.2
    = Repository.save_top_items (Top5Response.etcs result) "E"
        (at_save clk "E")
        (Repository.save_top_items (Top5Response.consumables result) "C"
           (at_save clk "C")
           (Repository.save_top_items (Top5Response.defenses result) "D"
              (at_save clk "D")
              (Repository.save_top_items (Top5Response.weapons result) "W"
                 (at_save clk "W") (repo s))))
  ∧ calls r.2
    = calls s
      ++ [CallFetchTop5;
          CallSaveTop (Top5Response.weapons result) "W";
          CallSaveTop (Top5Response.defenses result) "D";
          CallSaveTop (Top5Response.consumables result) "C";
          CallSaveTop (Top5Response.etcs result) "E";
          CallBroadcastAll (Hub.MsgTop5Update (DataTop5 data))]
  ∧ wire r.2
    = wire s ++ (Hub.broadcast_all (send_json w)
                   (Hub.MsgTop5Update (DataTop5 data)) (ws_manager s)).2
  ∧ ws_manager r.2
    = (Hub.broadcast_all (send_json w)
         (Hub.MsgTop5Update (DataTop5 data)) (ws_manager s)).1.2.
Proof.
  intros Hup Hmiss data ttl r.
  destruct (get_top5_goes_to_source category force_refresh w clk s Hmiss)
    as (s0 & Hr & Httl & Hitem & Hhub & Hrepo & Hcalls & Hwire).
  fold r in Hr.
  destruct (refresh_top5_success category w clk s0 result Hup)
    as (Hreply & Hcache & Hitem' & Hrepo' & Hcalls' & Hhub' & Hwire').
  rewrite <- Hr in Hreply, Hcache, Hitem', Hrepo', Hcalls', Hhub', Hwire'.
  fold data in Hreply, Hcache, Hcalls', Hwire', Hhub'.
  split; [done|].
  split; [by rewrite Hcache, set_lookup, Httl|].
  split; [by rewrite Hcache|].
  split; [by rewrite Hitem'|].
  split; [by rewrite Hrepo', Hrepo|].
  split; [by rewrite Hcalls', Hcalls|].
  split; [by rewrite Hwire', Hwire, Hhub|].
  by rewrite Hhub', Hhub.
Qed.

(** A top-5 request that goes to the source and gets an answer: replies
    with the fresh data (or the slice of the category asked for), stores
    the data under the one key for the default TTL, saves the four
    categories in the History Store in the order W, D, C, E and then
    broadcasts the data to every connection. Until the entry expires every
    request that does not force a refresh is answered from it, for any
    category, with no call on the source, the store or the hub. *)
Theorem top5_success_caches_and_broadcasts category force_refresh w clk s
    result :
  fetch_top5_items w = Some result →
  force_refresh = true
  ∨ (Cache.get "top5_all" (at_lookup clk) (top5_cache s)).1 = None →
  let data := mkTop5Data (Top5Response.now_date result)
                (Top5Response.weapons result) (Top5Response.defenses result)
                (Top5Response.consumables result) (Top5Response.etcs result) in
  let ttl := Cache._default_ttl (top5_cache s) in
  let r := get_top5_items upper category force_refresh w clk s in
  r.1 = Return (match truthy category with
                | Some c => ReplyCategory (upper c) (top5_get data (upper c))
                              false None
                | None => ReplyAll data false
                end)
  ∧ Cache._cache (top5_cache r.2) !! "top5_all"
    = Some (Cache.mkEntry (Some data) (at_store clk + timedelta ttl)
              (at_store clk))
  ∧ (∀ category' w' clk',
       at_lookup clk' < at_store clk + timedelta ttl →
       let r' := get_top5_items upper category' false w' clk' r.2 in
       r'.1 = Return (match truthy category' with
                      | Some c => ReplyCategory (upper c)
                                    (top5_get data (upper c)) true (Some ttl)
                      | None => ReplyAll data true
                      end)
       ∧ calls r'.2 = calls r.2 ∧ repo r'.2 = repo r.2
       ∧ ws_manager r'.2 = ws_manager r.2 ∧ wire r'.2 = wire r.2)
  ∧ calls r.2
    = calls s
      ++ [CallFetchTop5;
          CallSaveTop (Top5Response.weapons result) "W";
          CallSaveTop (Top5Response.defenses result) "D";
          CallSaveTop (Top5Response.consumables result) "C";
          CallSaveTop (Top5Response.etcs result) "E";
          CallBroadcastAll (Hub.MsgTop5Update (DataTop5 data))]
  ∧ wire r.2
    = wire s ++ (Hub.broadcast_all (send_json w)
                   (Hub.MsgTop5Update (DataTop5 data)) (ws_manager s)).2
  ∧ item_cache r.2 = item_cache s.
Proof.
  intros Hup Hmiss data ttl r.
  destruct (top5_success_state category force_refresh w clk s result Hup
              Hmiss)
    as (Hreply & Hentry & Httl & Hitem & _ & Hcalls & Hwire & _).
  fold r data ttl in Hreply, Hentry, Httl, Hitem, Hcalls, Hwire.
  split; [done|]. split; [done|]. split; [|done].
  intros category' w' clk' Hlive r'. subst r'.
  unfold get_top5_items, bind, top5_cache_get.
  rewrite (get_live _ _ _ _ Hentry) by done.
  cbn [fst snd Cache.value].
  destruct (truthy category');
    cbn [fst snd top5_cache Cache._default_ttl calls repo ws_manager wire
         ret];
    by rewrite ?Httl.
Qed.
End Top5Success.

(** * The snapshot behind the stale reply *)

Section Snapshot.
Import Repository RepoOps.

Lemma save_top_items_cache items category now r :
  top_items_cache (save_top_items items category now r)
  = filter (λ row, rank_category row ≠ category) (top_items_cache r)
    ++ rank_rows (next_cache_id r) category now items
  ∧ next_cache_id (save_top_items items category now r)
    = next_cache_id r + Z.of_nat (length items).
Proof.
  unfold save_top_items.
  match goal with
  | |- context [foldl _ ?r0 items] =>
      destruct (insert_top_items category now items r0)
        as (H1 & _ & _ & _ & H5 & _)
  end.
  cbv zeta in H1, H5. simpl in H1, H5. by rewrite H1, H5.
Qed.

(** The rows of one category after a [save_top_items]. *)
Lemma save_top_items_slice c items category now r :
  filter (λ row, rank_category row = c)
    (top_items_cache (save_top_items items category now r))
  = if decide (c = category)
    then rank_rows (next_cache_id r) category now items
    else filter (λ row, rank_category row = c) (top_items_cache r).
Proof.
  rewrite (proj1 (save_top_items_cache items category now r)), filter_app.
  destruct (decide (c = category)) as [->|Hne].
  - rewrite (filter_none (λ row, rank_category row = category)
               (filter _ (top_items_cache r)))
      by (by intros row [? _]%list_elem_of_filter).
    rewrite filter_all; [done|]. intros row. apply rank_rows_category.
  - rewrite (filter_none (λ row, rank_category row = c)
               (rank_rows _ _ _ _)).
    2:{ intros row Hin%rank_rows_category. congruence. }
    rewrite app_nil_r, list_filter_filter. apply list_filter_iff.
    intros row. split; [by intros [? _]|]. intros Hrow. split; congruence.
Qed.

Lemma snapshot_slice c r :
  filter (λ row, rank_category row = c) (get_cached_top_items None r)
  ≡ₚ filter (λ row, rank_category row = c) (top_items_cache r).
Proof.
  unfold get_cached_top_items. by rewrite merge_sort_Permutation.
Qed.

Lemma snapshot_nil r :
  get_cached_top_items None r = [] ↔ top_items_cache r = [].
Proof.
  unfold get_cached_top_items. split; intros H.
  - apply Permutation_nil_r. rewrite <- H.
    by rewrite merge_sort_Permutation.
  - by rewrite H.
Qed.
End Snapshot.

Section StaleSnapshot.
Import Routes.
Variable upper : string → string.
Implicit Types (s : App) (w : World) (clk : Clock).

(** After a top-5 request that went to the source and got an answer, the
    History Store's snapshot holds, for each of the categories W, D, C and
    E, exactly one row per item of the answer, stamped with the time of
    that category's save and keyed in the order of the saves; rows of any
    other category are as they were. A later request that goes to the
    source (forced, or made once the cached entry has expired) while the
    source is down is answered with this snapshot, marked stale, whenever
    the answer held at least one item. *)
Theorem stale_snapshot_is_last_result category force_refresh w clk s result
    category' force_refresh' w' clk' :
  fetch_top5_items w = Some result →
  force_refresh = true
  ∨ (Cache.get "top5_all" (at_lookup clk) (top5_cache s)).1 = None →
  fetch_top5_items w' = None →
  force_refresh' = true
  ∨ at_store clk + timedelta (Cache._default_ttl (top5_cache s))
    ≤ at_lookup clk' →
  let r := get_top5_items upper category force_refresh w clk s in
  let r' := get_top5_items upper category' force_refresh' w' clk' r.2 in
  let snapshot := Repository.get_cached_top_items None (repo r.2) in
  let slice c := filter (λ row, Repository.rank_category row = c) in
  let n := Repository.next_cache_id (repo s) in
  let nw := Z.of_nat (length (Top5Response.weapons result)) in
  let nd := Z.of_nat (length (Top5Response.defenses result)) in
  let nc := Z.of_nat (length (Top5Response.consumables result)) in
  slice "W" snapshot
  ≡ₚ RepoOps.rank_rows n "W" (at_save clk "W") (Top5Response.weapons result)
  ∧ slice "D" snapshot
    ≡ₚ RepoOps.rank_rows (n + nw) "D" (at_save clk "D")
         (Top5Response.defenses result)
  ∧ slice "C" snapshot
    ≡ₚ RepoOps.rank_rows (n + nw + nd) "C" (at_save clk "C")
         (Top5Response.consumables result)
  ∧ slice "E" snapshot
    ≡ₚ RepoOps.rank_rows (n + nw + nd + nc) "E" (at_save clk "E")
         (Top5Response.etcs result)
  ∧ (∀ c, c ∉ ["W"; "D"; "C"; "E"] →
       slice c snapshot ≡ₚ slice c (Repository.top_items_cache (repo s)))
  ∧ (Top5Response.weapons result ++ Top5Response.defenses result
       ++ Top5Response.consumables result ++ Top5Response.etcs result ≠ [] →
     r'.1 = Return (ReplyStale snapshot))
  ∧ repo r'.2 = repo r.2.
Proof.
  intros Hup Hmiss Hdown Hlate r r' snapshot slice n nw nd nc.
  destruct (top5_success_state upper category force_refresh w clk s result
              Hup Hmiss)
    as (_ & Hentry & _ & _ & Hrepo & _).
  fold r in Hentry, Hrepo.
  set (rw := Repository.save_top_items (Top5Response.weapons result) "W"
               (at_save clk "W") (repo s)) in *.
  set (rd := Repository.save_top_items (Top5Response.defenses result) "D"
               (at_save clk "D") rw) in *.
  set (rc := Repository.save_top_items (Top5Response.consumables result) "C"
               (at_save clk "C") rd) in *.
  assert (Repository.next_cache_id rw = n + nw) as Hnw
    by apply save_top_items_cache.
  assert (Repository.next_cache_id rd = n + nw + nd) as Hnd.
  { unfold rd. rewrite (proj2 (save_top_items_cache _ _ _ _)), Hnw. done. }
  assert (Repository.next_cache_id rc = n + nw + nd + nc) as Hnc.
  { unfold rc. rewrite (proj2 (save_top_items_cache _ _ _ _)), Hnd. done. }
  assert (∀ c,
    slice c snapshot
    ≡ₚ if decide (c = "E")
       then RepoOps.rank_rows (n + nw + nd + nc) "E" (at_save clk "E")
              (Top5Response.etcs result)
       else if decide (c = "C")
       then RepoOps.rank_rows (n + nw + nd) "C" (at_save clk "C")
              (Top5Response.consumables result)
       else if decide (c = "D")
       then RepoOps.rank_rows (n + nw) "D" (at_save clk "D")
              (Top5Response.defenses result)
       else if decide (c = "W")
       then RepoOps.rank_rows n "W" (at_save clk "W")
              (Top5Response.weapons result)
       else slice c (Repository.top_items_cache (repo s))) as Hslice.
  { intros c. unfold slice, snapshot. rewrite snapshot_slice, Hrepo.
    rewrite save_top_items_slice, Hnc.
    destruct (decide (c = "E")); [done|].
    unfold rc. rewrite save_top_items_slice, Hnd.
    destruct (decide (c = "C")); [done|].
    unfold rd. rewrite save_top_items_slice, Hnw.
    destruct (decide (c = "D")); [done|].
    unfold rw. rewrite save_top_items_slice.
    by destruct (decide (c = "W")). }
  split; [by rewrite (Hslice "W")|].
  split; [by rewrite (Hslice "D")|].
  split; [by rewrite (Hslice "C")|].
  split; [by rewrite (Hslice "E")|].
  split.
  { intros c Hc. rewrite (Hslice c).
    repeat (destruct (decide _) as [->|?]; [exfalso; apply Hc; set_solver|]).
    done. }
  assert (force_refresh' = true
          ∨ (Cache.get "top5_all" (at_lookup clk') (top5_cache r.2)).1 = None)
    as Hmiss'.
  { destruct Hlate as [?|Hlate]; [by left|right].
    by rewrite (get_expired _ _ _ _ Hentry). }
  destruct (get_top5_goes_to_source upper category' force_refresh' w' clk'
              r.2 Hmiss')
    as (s0 & Hr' & _ & _ & _ & Hrepo0 & _).
  fold r' in Hr'. rewrite (refresh_top5_failure upper) in Hr' by done.
  rewrite Hrepo0 in Hr'. fold snapshot in Hr'.
  split; [|by rewrite Hr'].
  intros Hsome. rewrite Hr'. cbn [fst].
  assert (snapshot ≠ []) as Hne.
  { intros Hsnap. apply Hsome.
    pose proof (Hslice "W") as HW. pose proof (Hslice "D") as HD.
    pose proof (Hslice "C") as HC. pose proof (Hslice "E") as HE.
    rewrite Hsnap in HW, HD, HC, HE.
    cbn in HW, HD, HC, HE.
    apply Permutation_nil in HW, HD, HC, HE.
    destruct (Top5Response.weapons result); [|done].
    destruct (Top5Response.defenses result); [|done].
    destruct (Top5Response.consumables result); [|done].
    by destruct (Top5Response.etcs result). }
  clearbody snapshot. by destruct snapshot.
Qed.
End StaleSnapshot.

(** * The admin routes and the scheduled crawl *)

Section AdminProps.
Import Routes.
Variables lower upper : string → string.
Implicit Types (s : App) (w : World) (clk : Clock).

(** [clear_cache] reports the two sizes and empties both caches, keeping
    their counters (the statistics afterwards are those of before with
    size 0) and everything else of the application; after it the
    next search and the next top-5 request go to the source whatever was
    cached before: each starts its calls with the fetch. *)
Theorem clear_cache_forces_refetch s :
  let r := Admin.clear_cache s in
  r.1 = Return (Cache.len (item_cache s), Cache.len (top5_cache s))
  ∧ (∀ format_rate,
       let before := (Cache.stats format_rate (item_cache s),
                      Cache.stats format_rate (top5_cache s)) in
       (Admin.get_cache_stats format_rate r.2).1
       = Return (Cache.mkCacheStats (Cache.stat_hits before.1)
                   (Cache.stat_misses before.1) (Cache.stat_sets before.1) 0
                   (Cache.hit_rate before.1),
                 Cache.mkCacheStats (Cache.stat_hits before.2)
                   (Cache.stat_misses before.2) (Cache.stat_sets before.2) 0
                   (Cache.hit_rate before.2)))
  ∧ ws_manager r.2 = ws_manager s ∧ repo r.2 = repo s
  ∧ calls r.2 = calls s ∧ wire r.2 = wire s
  ∧ (∀ name server_id page w clk,
       let items := search_item_deals w name server_id page in
       let r' := search_items lower name server_id page false w clk r.2 in
       r'.1 = Return (ItemSearchResponse.mk items (length items) page
                        (bool_decide (20 ≤ length items)%nat))
       ∧ ∃ rest,
           calls r'.2
           = calls s ++ CallSearchDeals name server_id page :: rest)
  ∧ (∀ category w clk,
       ∃ rest,
         calls (get_top5_items upper category false w clk r.2).2
         = calls s ++ CallFetchTop5 :: rest).
Proof.
  intros r. subst r. unfold Admin.clear_cache, Admin.get_cache_stats,
    Cache.stats, Cache.clear, Cache.len.
  cbn [fst snd item_cache top5_cache ws_manager repo calls wire
       Cache._cache Cache._stats Cache.stat_hits Cache.stat_misses
       Cache.stat_sets Cache.hit_rate].
  rewrite map_size_empty.
  do 6 (split; [done|]).
  split.
  - intros name server_id page w clk.
    unfold search_items, bind, item_cache_get.
    rewrite get_absent by apply lookup_empty.
    cbn [fst snd item_cache top5_cache ws_manager repo calls wire].
    match goal with
    | |- context [refresh_search lower name server_id page w clk ?s0] =>
        destruct (refresh_search_spec lower name server_id page w clk s0)
          as (Hreply & _ & _ & _ & Hcalls & _)
    end.
    cbn [calls] in Hcalls. split; [exact Hreply|]. by eexists.
  - intros category w clk.
    match goal with
    | |- context [get_top5_items upper category false w clk ?s1] =>
        destruct (get_top5_goes_to_source upper category false w clk s1)
          as (s0 & -> & _ & _ & _ & _ & Hcalls & _)
    end.
    { right. cbn [top5_cache]. by rewrite get_absent by apply lookup_empty. }
    cbn [calls] in Hcalls.
    destruct (fetch_top5_items w) as [result|] eqn:Hup.
    + destruct (refresh_top5_success upper category w clk s0 result Hup)
        as (_ & _ & _ & _ & -> & _).
      rewrite Hcalls. by eexists.
    + rewrite (refresh_top5_failure upper) by done.
      cbn [snd calls]. rewrite Hcalls, <- app_assoc. by eexists.
Qed.
End AdminProps.

Section SchedulerProps.
Import Routes.
Variable upper : string → string.
Implicit Types (s : App) (w : World) (clk : Clock).

End SchedulerProps.

(** * Numbers in the parser and in the models *)

Section Digits.
Import Stdlib.Strings.Ascii.

(** The value [int] reads off a text of digits. *)
Lemma foldl_digits (acc : Z) (l : list ascii) :
  foldl (λ acc c, 10 * acc + Py.digit_value c) acc l
  = acc * 10 ^ Z.of_nat (length l)
    + foldl (λ acc c, 10 * acc + Py.digit_value c) 0 l.
Proof.
  revert acc. induction l as [|c l IH]; intros acc.
  - simpl. lia.
  - cbn [foldl length]. rewrite IH, (IH (10 * 0 + _)).
    rewrite Nat2Z.inj_succ, Z.pow_succ_r by lia. lia.
Qed.

Lemma pretty_N_char_digit (d : N) :
  (d < 10)%N →
  Py.is_digit (pretty_N_char d) = true
  ∧ Py.digit_value (pretty_N_char d) = Z.of_N d.
Proof.
  intros Hd.
  assert (d = 0 ∨ d = 1 ∨ d = 2 ∨ d = 3 ∨ d = 4 ∨ d = 5 ∨ d = 6 ∨ d = 7
          ∨ d = 8 ∨ d = 9)%N as Hcases by lia.
  destruct Hcases as [->|[->|[->|[->|[->|[->|[->|[->|[->| ->]]]]]]]]];
    by vm_compute.
Qed.

Lemma pretty_N_go_digits x s :
  let chars := String.list_ascii_of_string in
  let value := foldl (λ acc c, 10 * acc + Py.digit_value c) 0 in
  (∀ c, c ∈ chars s → Py.is_digit c = true) →
  (∀ c, c ∈ chars (pretty_N_go x s) → Py.is_digit c = true)
  ∧ value (chars (pretty_N_go x s))
    = Z.of_N x * 10 ^ Z.of_nat (length (chars s)) + value (chars s).
Proof.
  intros chars value. revert s.
  induction (N.lt_wf_0 x) as [x _ IH]; intros s Hs.
  assert (x = 0 ∨ 0 < x)%N as [->|Hpos] by lia.
  - rewrite pretty_N_go_0. split; [done|]. lia.
  - rewrite pretty_N_go_step by done.
    destruct (pretty_N_char_digit (x `mod` 10)%N) as [Hd Hv].
    { apply N.mod_lt. lia. }
    destruct (IH (x `div` 10)%N (N.div_lt x 10 Hpos eq_refl)
                (String (pretty_N_char (x `mod` 10)) s)) as [Hall Hval].
    { intros c [->|Hin]%elem_of_cons; [done|by apply Hs]. }
    split; [done|]. rewrite Hval. unfold value, chars.
    cbn [String.list_ascii_of_string foldl length].
    rewrite foldl_digits, Hv, Nat2Z.inj_succ, Z.pow_succ_r by lia.
    pose proof (N.div_mod x 10 ltac:(lia)) as Hdm.
    apply (f_equal Z.of_N) in Hdm.
    rewrite N2Z.inj_add, N2Z.inj_mul in Hdm. simpl Z.of_N in Hdm.
    fold value. lia.
Qed.

(** The digits of a number are digits, and read back as its absolute
    value. *)
Lemma digits_spec (n : Z) :
  (∀ c, c ∈ Py.digits n → Py.is_digit c = true)
  ∧ foldl (λ acc c, 10 * acc + Py.digit_value c) 0 (Py.digits n) = Z.abs n.
Proof.
  unfold Py.digits, pretty, pretty_N.
  destruct (decide (Z.abs_N n = 0)%N) as [H0|Hne].
  - split; [|by rewrite <- N2Z.inj_abs_N, H0].
    intros c [->|Hin%elem_of_nil]%elem_of_cons; done.
  - destruct (pretty_N_go_digits (Z.abs_N n) "") as [Hall Hval].
    { intros c Hin. by apply elem_of_nil in Hin. }
    split; [done|]. rewrite Hval. simpl. rewrite N2Z.inj_abs_N. lia.
Qed.

Lemma filter_group3_rev (P : ascii → Prop) `{∀ c, Decision (P c)}
    (ds : list ascii) :
  ¬ P ","%char → filter P (Py.group3_rev ds) = filter P ds.
Proof.
  intros Hcomma.
  assert (∀ n ds, (length ds ≤ n)%nat →
            filter P (Py.group3_rev ds) = filter P ds) as Hall.
  { clear ds. intros n. induction n as [|n IH]; intros ds Hlen.
    - by destruct ds; [|simpl in Hlen; lia].
    - destruct ds as [|a [|b [|c [|d rest]]]]; [done..|].
      change (Py.group3_rev (a :: b :: c :: d :: rest))
        with ([a; b; c] ++ ","%char :: Py.group3_rev (d :: rest)).
      change (a :: b :: c :: d :: rest) with ([a; b; c] ++ d :: rest).
      rewrite !filter_app. f_equal.
      rewrite (filter_cons _ ","%char), decide_False by done.
      apply IH. simpl in Hlen |- *. lia. }
  by apply (Hall (length ds)).
Qed.

Lemma filter_digits_all (l : list ascii) :
  (∀ c, c ∈ l → Py.is_digit c = true) →
  filter (λ c, Py.is_digit c = true) l = l.
Proof.
  induction l as [|a l IH]; intros Hall; [done|].
  rewrite filter_cons, decide_True by (apply Hall; by left).
  f_equal. apply IH. intros c Hin. apply Hall. by right.
Qed.

Lemma filter_digits_none (l : list ascii) :
  (∀ c, c ∈ l → Py.is_digit c = false) →
  filter (λ c, Py.is_digit c = true) l = [].
Proof.
  induction l as [|a l IH]; intros Hall; [done|].
  rewrite filter_cons, decide_False
    by (rewrite (Hall a) by (by left); done).
  apply IH. intros c Hin. apply Hall. by right.
Qed.

(** What [re.sub(r"[^\d]", "", text)] leaves of a formatted number. *)
Lemma clean_format_commas max_str_digits (n : Z) s :
  Py.format_commas max_str_digits n = Some s →
  filter (λ c, Py.is_digit c = true) (String.list_ascii_of_string s)
  = Py.digits n
  ∧ Py.within_limit max_str_digits (length (Py.digits n)) = true.
Proof.
  unfold Py.format_commas.
  destruct (Py.within_limit max_str_digits (length (Py.digits n)));
    [|done].
  intros [= <-]. split; [|done].
  rewrite chars_app, filter_app, String.list_ascii_of_string_of_list_ascii.
  rewrite filter_reverse, filter_group3_rev, <- filter_reverse by done.
  rewrite reverse_involutive.
  rewrite (filter_digits_all (Py.digits n)) by apply digits_spec.
  by destruct (bool_decide (n < 0)).
Qed.

(** A text whose digits are those of a number within the limit is read as
    the number's absolute value. *)
Lemma parse_number_digits max_str_digits (n : Z) (text : string) :
  filter (λ c, Py.is_digit c = true) (String.list_ascii_of_string text)
  = Py.digits n →
  Py.within_limit max_str_digits (length (Py.digits n)) = true →
  Parser._parse_number max_str_digits text = Some (Z.abs n).
Proof.
  intros Hclean Hlim. unfold Parser._parse_number. rewrite Hclean.
  destruct (digits_spec n) as [_ Hval].
  destruct (Py.digits n) as [|c l] eqn:Hd.
  - simpl in Hval. by rewrite <- Hval.
  - unfold Py.int_of_digits. by rewrite Hlim, Hval.
Qed.
End Digits.

Section ParserProps.
Import Stdlib.Strings.Ascii.
Variable max_str_digits : nat.

(** [_parse_number] reads a text's digits as one decimal number and
    ignores every other character: with [k] digits in the text the result
    is 0 when [k = 0], lies between 0 and [10^k - 1] when [k] is within the
    conversion limit, and is a [ValueError] exactly when [k] is beyond the
    limit. It is never negative. *)
Theorem parse_number_range (text : string) :
  let k := length (filter (λ c, Py.is_digit c = true)
                     (String.list_ascii_of_string text)) in
  (k = 0%nat → Parser._parse_number max_str_digits text = Some 0)
  ∧ (Py.within_limit max_str_digits k = true →
     ∃ v, Parser._parse_number max_str_digits text = Some v
          ∧ 0 ≤ v < 10 ^ Z.of_nat k)
  ∧ (Py.within_limit max_str_digits k = false →
     Parser._parse_number max_str_digits text = None)
  ∧ (∀ v, Parser._parse_number max_str_digits text = Some v → 0 ≤ v).
Proof.
  intros k. subst k. unfold Parser._parse_number.
  assert (∀ l : list ascii,
            (∀ c, c ∈ l → Py.is_digit c = true) →
            0 ≤ foldl (λ acc c, 10 * acc + Py.digit_value c) 0 l
            < 10 ^ Z.of_nat (length l)) as Hrange.
  { intros l. induction l as [|c l IH] using rev_ind; intros Hall.
    - simpl. lia.
    - rewrite foldl_app, length_app. cbn [foldl length].
      rewrite Nat2Z.inj_add, Z.pow_add_r by lia.
      assert (0 ≤ Py.digit_value c ≤ 9) as Hc.
      { specialize (Hall c ltac:(set_solver)). unfold Py.is_digit in Hall.
        apply bool_decide_eq_true in Hall. unfold Py.digit_value. lia. }
      specialize (IH ltac:(set_solver)). simpl Z.of_nat. lia. }
  set (clean := filter (λ c, Py.is_digit c = true)
                  (String.list_ascii_of_string text)).
  assert (∀ c, c ∈ clean → Py.is_digit c = true) as Hclean
    by (by intros c [? _]%list_elem_of_filter).
  specialize (Hrange clean Hclean).
  destruct clean as [|c clean'] eqn:Hc.
  - split; [done|]. split; [intros _; exists 0; simpl; split; [done|lia]|].
    split; [|by intros v [= <-]].
    unfold Py.within_limit. rewrite bool_decide_eq_false. simpl.
    intros Hlim. exfalso. apply Hlim. right. lia.
  - unfold Py.int_of_digits.
    split; [done|].
    destruct (Py.within_limit max_str_digits (length (c :: clean'))).
    + split; [intros _; by eexists|]. split; [done|].
      intros v [= <-]. apply Hrange.
    + split; [done|]. split; [done|]. by intros v.
Qed.

(** The price text of a [DealItem] parses back: a number formatted with
    thousands separators, with any text free of digits before and after
    it (a currency sign, blanks), is read by [_parse_number] as the
    number's absolute value; the sign is lost. *)
Theorem formatted_price_parses_back (n : Z) (s before after : string) :
  Py.format_commas max_str_digits n = Some s →
  (∀ c, c ∈ String.list_ascii_of_string before
          ++ String.list_ascii_of_string after →
        Py.is_digit c = false) →
  Parser._parse_number max_str_digits (before +:+ s +:+ after)
  = Some (Z.abs n).
Proof.
  intros Hs Hno. destruct (clean_format_commas _ _ _ Hs) as [Hclean Hlim].
  apply parse_number_digits; [|done].
  rewrite !chars_app, !filter_app, Hclean.
  rewrite (filter_digits_none (String.list_ascii_of_string before))
    by (intros c Hin; apply Hno; set_solver).
  rewrite (filter_digits_none (String.list_ascii_of_string after))
    by (intros c Hin; apply Hno; set_solver).
  by rewrite app_nil_l, app_nil_r.
Qed.
End ParserProps.

Section ModelProps.
Variable max_str_digits : nat.

(** [model_post_init] fills [price_formatted] and [display_name] only
    where they are absent and changes no other field; a price text it
    computes parses back to the absolute value of the price; and running
    it again on its result changes nothing. *)
Theorem model_post_init_fills_absent_fields (d d' : DealItem.t) :
  Models.model_post_init max_str_digits d = Some d' →
  d' = DealItem.mk (DealItem.server_id d) (DealItem.server_name d)
         (DealItem.item_id d) (DealItem.item_name d)
         (DealItem.display_name d') (DealItem.item_image_url d)
         (DealItem.refine d) (DealItem.grade d) (DealItem.card_slots d)
         (DealItem.quantity d) (DealItem.price d)
         (DealItem.price_formatted d') (DealItem.deal_type d)
         (DealItem.shop_name d) (DealItem.map_name d) (DealItem.crawled_at d)
  ∧ (∀ p, DealItem.price_formatted d = Some p →
          DealItem.price_formatted d' = Some p)
  ∧ (∀ n, DealItem.display_name d = Some n →
          DealItem.display_name d' = Some n)
  ∧ (DealItem.price_formatted d = None →
     ∃ p, DealItem.price_formatted d' = Some p
          ∧ Parser._parse_number max_str_digits p
            = Some (Z.abs (DealItem.price d)))
  ∧ (DealItem.display_name d = None →
     ∃ n, DealItem.display_name d' = Some n)
  ∧ Models.model_post_init max_str_digits d' = Some d'.
Proof.
  unfold Models.model_post_init at 1. intros Hinit.
  apply bind_Some in Hinit as (pf & Hpf & Hinit).
  apply bind_Some in Hinit as (dn & Hdn & [= <-]).
  cbn [DealItem.price_formatted DealItem.display_name].
  split; [done|].
  assert (∃ p, pf = Some p ∧
            (DealItem.price_formatted d = None →
             Py.format_commas max_str_digits (DealItem.price d) = Some p))
    as (p & -> & Hp).
  { destruct (DealItem.price_formatted d) as [p|].
    - injection Hpf as <-. by exists p.
    - apply fmap_Some in Hpf as (p & Hp & ->). by exists p. }
  assert (∃ n, dn = Some n) as (n & ->).
  { destruct (DealItem.display_name d) as [n|].
    - injection Hdn as <-. by exists n.
    - apply bind_Some in Hdn as (? & _ & [= <-]). by eexists. }
  split.
  { intros p' Hp'. rewrite Hp' in Hpf. by injection Hpf as <-. }
  split.
  { intros n' Hn'. rewrite Hn' in Hdn. by injection Hdn as <-. }
  split.
  { intros Hnone. exists p. split; [done|].
    destruct (clean_format_commas _ _ _ (Hp Hnone)) as [Hclean Hlim].
    by apply parse_number_digits. }
  split; [by eexists|].
  unfold Models.model_post_init. by cbn.
Qed.
End ModelProps.

(** * The properties on the worked states *)

(** Writing key ["a"] leaves the entry of key ["b"] alone. *)
Lemma keys_independent_witness :
  "a" ≠ "b"
  ∧ Cache._cache (Cache.set "a" (Some 1%nat) None 5 Worked.cache) !! "b"
    = Cache._cache Worked.cache !! "b".
Proof.
  assert ("a" ≠ "b") as Hne by done.
  split; [exact Hne|].
  apply (keys_independent "a" "b" (Some 1%nat) None 5 7 Worked.cache Hne).
Defined.

(** A fourth client joins the worked hub. *)
Lemma connect_fresh_witness :
  Hub._connections Samples.hub !! "d" = None
  ∧ Hub.connection_count
      (Hub.connect (D:=nat) (λ _, true) 4%nat "d" 60 Samples.hub).1.2
    = S (Hub.connection_count Samples.hub).
Proof.
  assert (Hub._connections Samples.hub !! "d" = None) as Hnew
    by (by vm_compute).
  split; [exact Hnew|].
  apply (connect_fresh (D:=nat) (λ _, true) 4%nat "d" 60 Samples.hub Hnew).
Defined.

(** Client ["a"] subscribes to a new item of the worked hub and
    unsubscribes again. *)
Lemma subscribe_unsubscribe_round_trip_witness :
  HubOps.consistent Samples.hub
  ∧ Hub._connections Samples.hub !! "a" = Some Samples.client_a
  ∧ (Hub._make_sub_key ascii_lower "Apple" 2
       ∉ Hub.subscriptions Samples.client_a →
     Hub.unsubscribe ascii_lower "a" "Apple" 2
       (Hub.subscribe ascii_lower "a" "Apple" 2 Samples.hub).2
     = (true, Samples.hub)).
Proof.
  split; [apply sample_hub_consistent|].
  split; [apply sample_hub_client_a|].
  apply (subscribe_unsubscribe_round_trip ascii_lower "a" "Apple" 2
           Samples.hub Samples.client_a sample_hub_consistent
           sample_hub_client_a).
Defined.

(** The statistics of the worked hub. *)
Lemma stats_count_subscribed_keys_witness :
  HubOps.consistent Samples.hub
  ∧ Hub.subscription_keys (Hub.stats Samples.hub)
    = size (⋃ (Hub.subscriptions
                 <$> (map_to_list (Hub._connections Samples.hub)).*2)).
Proof.
  split; [apply sample_hub_consistent|].
  apply (stats_count_subscribed_keys Samples.hub sample_hub_consistent).
Defined.

(** A broadcast to all on the worked hub with every transport working. *)
Lemma broadcast_without_failures_witness :
  (∀ ws : Hub.WebSocket, (λ _ : Hub.WebSocket, true) ws = true)
  ∧ (Hub.broadcast_all (λ _, true) (Hub.MsgTop5Update 7%nat)
       Samples.hub).1.1
    = Hub.connection_count Samples.hub.
Proof.
  assert (∀ ws : Hub.WebSocket, (λ _ : Hub.WebSocket, true) ws = true)
    as Hup by done.
  split; [exact Hup|].
  apply (broadcast_without_failures ascii_lower (D:=nat) (λ _, true)
           "Jellopy" 2 7%nat 100 (Hub.MsgTop5Update 7%nat) Samples.hub Hup).
Defined.

(** A subscribe message of a client the worked hub does not know. *)
Lemma acknowledged_regardless_witness :
  "Apple" ≠ ""
  ∧ (Endpoint.handle ascii_lower "nobody"
       (Endpoint.Parsed (Endpoint.mkClientMessage (Some "subscribe")
                           (Some "Apple") None))
       Samples.hub).2
    = Endpoint.ReplySubscribed "Apple" (-1).
Proof.
  assert ("Apple" ≠ "") as Hne by done.
  split; [exact Hne|].
  apply (acknowledged_regardless ascii_lower "nobody" "Apple" None
           Samples.hub Hne).
Defined.

(** A first top-5 request on the application as it starts, the source
    being up. *)
Lemma top5_success_caches_and_broadcasts_witness :
  Routes.fetch_top5_items Worked.source_up = Some Worked.top5
  ∧ (false = true
     ∨ (Cache.get "top5_all" (Routes.at_lookup (Samples.clock 10))
          (Routes.top5_cache Routes.startup)).1 = None)
  ∧ Routes.item_cache
      (Routes.get_top5_items ascii_upper (Some "w") false Worked.source_up
         (Samples.clock 10) Routes.startup).2
    = Routes.item_cache Routes.startup.
Proof.
  assert (Routes.fetch_top5_items Worked.source_up = Some Worked.top5)
    as Hup by reflexivity.
  assert (false = true
          ∨ (Cache.get "top5_all" (Routes.at_lookup (Samples.clock 10))
               (Routes.top5_cache Routes.startup)).1 = None)
    as Hmiss by (right; reflexivity).
  split; [exact Hup|]. split; [exact Hmiss|].
  apply (top5_success_caches_and_broadcasts ascii_upper (Some "w") false
           Worked.source_up (Samples.clock 10) Routes.startup Worked.top5
           Hup Hmiss).
Defined.

(** The source answers a first request and is down for a forced second
    one: the weapon saved by the first is in the snapshot. *)
Lemma stale_snapshot_is_last_result_witness :
  Routes.fetch_top5_items Worked.source_up = Some Worked.top5
  ∧ (false = true
     ∨ (Cache.get "top5_all" (Routes.at_lookup (Samples.clock 10))
          (Routes.top5_cache Routes.startup)).1 = None)
  ∧ Routes.fetch_top5_items Samples.source_down_for_top5 = None
  ∧ (true = true
     ∨ Routes.at_store (Samples.clock 10)
       + timedelta (Cache._default_ttl (Routes.top5_cache Routes.startup))
       ≤ Routes.at_lookup (Samples.clock 20))
  ∧ filter (λ row, Repository.rank_category row = "W")
      (Repository.get_cached_top_items None
         (Routes.repo
            (Routes.get_top5_items ascii_upper None false Worked.source_up
               (Samples.clock 10) Routes.startup).2))
    ≡ₚ RepoOps.rank_rows
         (Repository.next_cache_id (Routes.repo Routes.startup)) "W"
         (Routes.at_save (Samples.clock 10) "W")
         (Top5Response.weapons Worked.top5).
Proof.
  assert (Routes.fetch_top5_items Worked.source_up = Some Worked.top5)
    as Hup by reflexivity.
  assert (false = true
          ∨ (Cache.get "top5_all" (Routes.at_lookup (Samples.clock 10))
               (Routes.top5_cache Routes.startup)).1 = None)
    as Hmiss by (right; reflexivity).
  assert (Routes.fetch_top5_items Samples.source_down_for_top5 = None)
    as Hdown by reflexivity.
  assert (true = true
          ∨ Routes.at_store (Samples.clock 10)
            + timedelta
                (Cache._default_ttl (Routes.top5_cache Routes.startup))
            ≤ Routes.at_lookup (Samples.clock 20))
    as Hlate by (left; reflexivity).
  split; [exact Hup|]. split; [exact Hmiss|]. split; [exact Hdown|].
  split; [exact Hlate|].
  apply (stale_snapshot_is_last_result ascii_upper None false
           Worked.source_up (Samples.clock 10) Routes.startup Worked.top5
           None true Samples.source_down_for_top5 (Samples.clock 20)
           Hup Hmiss Hdown Hlate).
Defined.

(** A price as the site shows it, with the currency after it. *)
Lemma formatted_price_parses_back_witness :
  Py.format_commas 4300 1234567 = Some "1,234,567"
  ∧ (∀ c, c ∈ String.list_ascii_of_string ""
            ++ String.list_ascii_of_string " z" →
          Py.is_digit c = false)
  ∧ Parser._parse_number 4300 ("" +:+ "1,234,567" +:+ " z")
    = Some (Z.abs 1234567).
Proof.
  assert (Py.format_commas 4300 1234567 = Some "1,234,567") as Hs
    by (by vm_compute).
  assert (∀ c, c ∈ String.list_ascii_of_string ""
                 ++ String.list_ascii_of_string " z" →
               Py.is_digit c = false) as Hno.
  { intros c Hin. simpl in Hin.
    apply elem_of_cons in Hin as [->|Hin]; [by vm_compute|].
    apply elem_of_cons in Hin as [->|Hin]; [by vm_compute|].
    by apply elem_of_nil in Hin. }
  split; [exact Hs|]. split; [exact Hno|].
  apply (formatted_price_parses_back 4300 1234567 "1,234,567" "" " z"
           Hs Hno).
Defined.

(** The model completes a listing the parser built without a price
    text. *)
Lemma model_post_init_fills_absent_fields_witness :
  Models.model_post_init 4300 Worked.listing = Some Worked.listing_completed
  ∧ Models.model_post_init 4300 Worked.listing_completed
    = Some Worked.listing_completed.
Proof.
  assert (Models.model_post_init 4300 Worked.listing
          = Some Worked.listing_completed) as Hinit by (by vm_compute).
  split; [exact Hinit|].
  apply (model_post_init_fills_absent_fields 4300 Worked.listing
           Worked.listing_completed Hinit).
Defined.
